(** * Keyword-spotting corpus preparation: noise augmentation, balancing,
      dev/test/train label splitting

    A shallow embedding of the three scripts under
    [examples/hi_xiaowen/s0]:

    - [数据增强.py]      ([add_noise_to_audio], [batch_process_audio_folder]),
    - [数据平衡.py]      ([balance_samples]),
    - [数据标签制作.py]  ([split_and_generate_labels]).

    Samples are IEEE-754 binary64 values ([spec_float] at precision 53),
    so that division by zero, NaN propagation and clipping behave as they
    do in numpy.  The random generators (numpy's global [RandomState],
    Python's [random] module) and numpy's FFT are libraries outside the
    repository: they enter as interfaces, with the shape contracts their
    documentation states, and small executable instances are given so
    that every statement can be run on concrete inputs. *)

From Stdlib Require Import ZArith Lia Bool List Ascii String.
From Stdlib Require Import Floats.SpecFloat.
From stdpp Require Import base option list strings gmap.

Local Open Scope Z_scope.

(** ** Exceptions and results *)

Inductive exn : Type :=
| ValueError
| ZeroDivisionError
| OverflowError
| IndexError
| OSError.

Inductive result (A : Type) : Type :=
| Ok (a : A)
| Raise (e : exn).

Arguments Ok {A} a.
Arguments Raise {A} e.

#[global] Instance result_ret : MRet result := fun A a => Ok a.
#[global] Instance result_bind : MBind result := fun A B k m =>
  match m with
  | Ok a => k a
  | Raise e => Raise e
  end.

Definition is_ok {A} (r : result A) : bool :=
  match r with Ok _ => true | Raise _ => false end.

(** ** Binary64 arithmetic *)

Module F64.

Definition prec : Z := 53.
Definition emax : Z := 1024.

Abbreviation float := spec_float.

Definition add : float -> float -> float := SFadd prec emax.
Definition sub : float -> float -> float := SFsub prec emax.
Definition mul : float -> float -> float := SFmul prec emax.
Definition div : float -> float -> float := SFdiv prec emax.
Definition sqrt : float -> float := SFsqrt prec emax.
Definition abs : float -> float := SFabs.

Definition nan : float := S754_nan.
Definition zero : float := S754_zero false.

Definition is_nan (x : float) : bool :=
  match x with S754_nan => true | _ => false end.

Definition is_zero (x : float) : bool :=
  match x with S754_zero _ => true | _ => false end.

(** Neither an infinity nor NaN. *)
Definition is_finite (x : float) : bool :=
  match x with S754_zero _ | S754_finite _ _ _ => true | _ => false end.

(** C comparisons: every one of them is false when an operand is NaN. *)
Definition eqb (x y : float) : bool := SFeqb x y.
Definition ltb (x y : float) : bool := SFltb x y.
Definition leb (x y : float) : bool := SFleb x y.
Definition gtb (x y : float) : bool := SFltb y x.
Definition geb (x y : float) : bool := SFleb y x.

(** The binary64 value nearest to an integer (ties to even). *)
Definition of_Z (z : Z) : float := binary_normalize prec emax z 0 false.

(** The binary64 value nearest to the rational [a / b]: how a decimal
    literal such as [0.001] is read ([ratio 1 1000]). *)
Definition ratio (a b : Z) : float := div (of_Z a) (of_Z b).

Definition one : float := Eval vm_compute in of_Z 1.
Definition minus_one : float := Eval vm_compute in of_Z (-1).

(** Truncation toward zero, for finite values. *)
Definition trunc (x : float) : option Z :=
  match x with
  | S754_zero _ => Some 0
  | S754_finite s m e => Some (cond_Zopp s (Z.shiftl (Zpos m) e))
  | S754_infinity _ | S754_nan => None
  end.

(** [lo <= x <= hi], false for NaN. *)
Definition within (lo hi x : float) : bool := leb lo x && leb x hi.

End F64.

Import F64.

(** ** Python numbers *)

(** [float(n)] for an [int]. *)
Definition py_float (n : Z) : result float :=
  match of_Z n with
  | S754_infinity _ => Raise OverflowError
  | f => Ok f
  end.

(** [int(x)] for a [float]: truncation; infinities and NaN raise. *)
Definition py_int (x : float) : result Z :=
  match x with
  | S754_infinity _ => Raise OverflowError
  | S754_nan => Raise ValueError
  | _ => match trunc x with Some z => Ok z | None => Raise ValueError end
  end.

(** [a / b] for two [int]s: the correctly rounded quotient.  CPython
    divides the integers themselves, whatever their size; [SFdiv] on the
    mantissas [|a|] and [|b|] at exponent 0 computes the same rounding. *)
Definition int_float (n : Z) : float :=
  match n with
  | Z0 => S754_zero false
  | Zpos p => S754_finite false p 0
  | Zneg p => S754_finite true p 0
  end.

Definition py_truediv (a b : Z) : result float :=
  if b =? 0 then Raise ZeroDivisionError
  else match div (int_float a) (int_float b) with
       | S754_infinity _ => Raise OverflowError
       | q => Ok q
       end.

(** [x / y] for two Python [float]s. *)
Definition py_fdiv (x y : float) : result float :=
  if is_zero y then Raise ZeroDivisionError else Ok (div x y).

(** ** numpy arrays (one-dimensional) *)

Record complex : Type := Complex { re : float; im : float }.

(** Element-wise binary operation with broadcasting of a length-1 operand. *)
Definition broadcast {A B C} (f : A -> B -> C) (a : list A) (b : list B)
  : result (list C) :=
  if (length a =? length b)%nat then Ok (zip_with f a b)
  else match a, b with
       | _, [y] => Ok (map (fun x => f x y) a)
       | [x], _ => Ok (map (f x) b)
       | _, _ => Raise ValueError
       end.

(** An operation whose result has the shape of [a]: the in-place
    [a op= b], and the values of an indexed assignment. *)
Definition broadcast_to {A B C} (f : A -> B -> C) (a : list A) (b : list B)
  : result (list C) :=
  if (length a =? length b)%nat then Ok (zip_with f a b)
  else match b with
       | [y] => Ok (map (fun x => f x y) a)
       | _ => Raise ValueError
       end.

(** [np.maximum] on two scalars: NaN wins. *)
Definition np_maximum (a b : float) : float :=
  if is_nan a || geb a b then a else b.

(** [np.max]: a reduction with [np.maximum]; an empty array has no maximum. *)
Definition np_max (a : list float) : result float :=
  match a with
  | [] => Raise ValueError
  | x :: rest => Ok (fold_left np_maximum rest x)
  end.

(** [np.clip(x, lo, hi)] on one element: [min(max(x, lo), hi)], where both
    steps hand a NaN through. *)
Definition np_clip1 (lo hi x : float) : float :=
  let m := if is_nan x then x else if gtb x lo then x else lo in
  if is_nan m then m else if ltb m hi then m else hi.

Definition np_clip (a : list float) (lo hi : float) : list float :=
  map (np_clip1 lo hi) a.

(** Division of complex numbers as numpy's loop computes it. *)
Definition np_cdiv (a b : complex) : complex :=
  let br := abs (re b) in
  let bi := abs (im b) in
  if geb br bi then
    if eqb br zero && eqb bi zero then
      Complex (div (re a) br) (div (im a) br)
    else
      let rat := div (im b) (re b) in
      let scl := div one (add (re b) (mul (im b) rat)) in
      Complex (mul (add (re a) (mul (im a) rat)) scl)
              (mul (sub (im a) (mul (re a) rat)) scl)
  else
    let rat := div (re b) (im b) in
    let scl := div one (add (im b) (mul (re b) rat)) in
    Complex (mul (add (mul (re a) rat) (im a)) scl)
            (mul (sub (mul (im a) rat) (re a)) scl).

Definition of_real (x : float) : complex := Complex x zero.

(** [np.fft.rfftfreq(n, d)]. *)
Definition rfftfreq (n : nat) (d : float) : result (list float) :=
  nf ← py_float (Z.of_nat n);
  val ← py_fdiv one (mul nf d);
  Ok (map (fun k => mul (of_Z (Z.of_nat k)) val) (seq 0 (n / 2 + 1))).

(** [a[idx] = vals] with integer index array [idx]: assignments are made
    in order, a negative index counts from the end. *)
Definition setitem1 (a : list float) (i : Z) (v : float) : result (list float) :=
  let n := Z.of_nat (length a) in
  if (0 <=? i) && (i <? n) then Ok (<[Z.to_nat i := v]> a)
  else if (- n <=? i) && (i <? 0) then Ok (<[Z.to_nat (i + n) := v]> a)
  else Raise IndexError.

Fixpoint setitem_pairs (a : list float) (ivs : list (Z * float))
  : result (list float) :=
  match ivs with
  | [] => Ok a
  | (i, v) :: rest => a' ← setitem1 a i v; setitem_pairs a' rest
  end.

Definition setitem (a : list float) (idx : list Z) (vals : list float)
  : result (list float) :=
  ivs ← broadcast_to pair idx vals;
  setitem_pairs a ivs.

(** ** Library interfaces *)

(** numpy's global random state: [np.random.seed], [np.random.normal(loc,
    scale, size)] and [np.random.randint(low, high, size)].  Each draw
    returns the array and the state it leaves behind. *)
Class NumpyRandom : Type := {
  np_state : Type;
  np_seed : Z -> np_state;
  np_normal : float -> float -> nat -> np_state -> list float * np_state;
  np_randint : Z -> Z -> nat -> np_state -> list Z * np_state
}.

(** What numpy documents about the shape and range of the draws. *)
Definition random_contract (R : NumpyRandom) : Prop :=
  (forall loc scale n st, length (np_normal loc scale n st).1 = n) /\
  (forall lo hi n st, length (np_randint lo hi n st).1 = n) /\
  (forall lo hi n st z, lo < hi -> z ∈ (np_randint lo hi n st).1 -> lo <= z < hi).

(** [np.fft.rfft] and [np.fft.irfft] (default output length). *)
Class NumpyFFT : Type := {
  rfft : list float -> result (list complex);
  irfft : list complex -> result (list float)
}.

(** [rfft] of [n > 0] points has [n/2 + 1] bins; [irfft] of [m] bins has
    [2 (m - 1)] points; neither accepts or returns zero points. *)
Definition fft_contract (F : NumpyFFT) : Prop :=
  (forall x X, rfft x = Ok X -> x <> [] /\ length X = (length x / 2 + 1)%nat) /\
  (forall X x, irfft X = Ok x -> x <> [] /\ length x = (2 * (length X - 1))%nat).

(** ** [数据增强.py] *)

Section Augment.
Context {R : NumpyRandom} {F : NumpyFFT}.

(** [np.random.seed(seed)]: the seed must fit in 32 bits. *)
Definition np_random_seed (seed : Z) : result np_state :=
  if (0 <=? seed) && (seed <? 2 ^ 32) then Ok (np_seed seed)
  else Raise ValueError.

(** [int(len(y) * 0.001)] *)
Definition num_impulses (y : list float) : result Z :=
  n ← py_float (Z.of_nat (length y));
  py_int (mul n (ratio 1 1000)).

(** Step 2 of [add_noise_to_audio]: the value of [noise] before
    normalisation. *)
Definition noise (noise_type : string) (y : list float) (sr : Z)
    (st : np_state) : result (list float) :=
  if String.eqb noise_type "white" then
    Ok (np_normal zero one (length y) st).1
  else if String.eqb noise_type "pink" then
    let noise := (np_normal zero one (length y) st).1 in
    noise_fft ← rfft noise;
    d ← py_truediv 1 sr;
    freq ← rfftfreq (length y) d;
    let freq := map (fun f => if eqb f zero then ratio 1 100000000 else f) freq in
    noise_fft ← broadcast_to np_cdiv noise_fft (map (fun f => of_real (sqrt f)) freq);
    irfft noise_fft
  else if String.eqb noise_type "impulse" then
    let noise := repeat zero (length y) in
    k ← num_impulses y;
    let '(impulse_pos, st) := np_randint 0 (Z.of_nat (length y)) (Z.to_nat k) st in
    let '(amplitudes, _) := np_normal zero (of_Z 5) (Z.to_nat k) st in
    setitem noise impulse_pos amplitudes
  else Raise ValueError.

(** Step 3, first line: [noise / np.max(np.abs(noise))]. *)
Definition normalize (noise : list float) : result (list float) :=
  m ← np_max (map abs noise);
  Ok (map (fun x => div x m) noise).

(** Steps 3 and 4: normalise the noise, add it at [noise_level], clip. *)
Definition overlay (y : list float) (noise_level : float) (noise : list float)
  : result (list float) :=
  noise ← normalize noise;
  noisy_y ← broadcast add y (map (mul noise_level) noise);
  Ok (np_clip noisy_y minus_one one).

(** Steps 1-4 of [add_noise_to_audio] on a decoded waveform: the clipped
    [noisy_y], which is written out with the input's [sr]. *)
Definition noisy_y (y : list float) (sr : Z) (noise_type : string)
    (noise_level : float) (seed : Z) : result (list float * Z) :=
  st ← np_random_seed seed;
  noise ← noise noise_type y sr st;
  out ← overlay y noise_level noise;
  Ok (out, sr).

End Augment.

(** ** File names *)

Definition lower_ascii (c : ascii) : ascii :=
  let n := nat_of_ascii c in
  if ((65 <=? n) && (n <=? 90))%nat then ascii_of_nat (n + 32) else c.

(** [str.lower] on the ASCII letters. *)
Fixpoint lower (s : string) : string :=
  match s with
  | EmptyString => EmptyString
  | String c s' => String (lower_ascii c) (lower s')
  end.

Definition startswith (s pre : string) : bool := String.prefix pre s.

Fixpoint endswith (s suf : string) : bool :=
  String.eqb s suf ||
  match s with
  | EmptyString => false
  | String _ s' => endswith s' suf
  end.

(** [os.path.splitext] on a file name: split at the last dot, unless only
    dots stand before it. *)
Definition splitext (name : string) : string * string :=
  let cs := list_ascii_of_string name in
  match list_find (fun c => c = "."%char) (reverse cs) with
  | None => (name, EmptyString)
  | Some (j, _) =>
      let i := (length cs - 1 - j)%nat in
      if forallb (fun c => Ascii.eqb c ".") (take i cs) then (name, EmptyString)
      else (string_of_list_ascii (take i cs), string_of_list_ascii (drop i cs))
  end.

(** ** Paths and the file system *)

(** A path is the list of the components of a normalised absolute path;
    [[]] is the root. *)
Abbreviation path := (list string).

Definition join (a b : path) : path := a ++ b.
Definition dirname (p : path) : path := removelast p.

Fixpoint common_prefix (a b : path) : nat :=
  match a, b with
  | x :: a', y :: b' => if String.eqb x y then S (common_prefix a' b') else O
  | _, _ => O
  end.

(** [os.path.relpath(p, start)] *)
Definition relpath (p start : path) : path :=
  let i := common_prefix start p in
  match repeat ".."%string (length start - i) ++ drop i p with
  | [] => ["."%string]
  | rel => rel
  end.

(** [os.path.splitext] on a path: on its last component. *)
Definition splitext_path (p : path) : path * string :=
  match last p with
  | None => (p, EmptyString)
  | Some name => (removelast p ++ [(splitext name).1], (splitext name).2)
  end.

Record label : Type := Label {
  utt_id : string;
  speaker_id : string;
  keyword_id : Z
}.

(** What a file holds: a decoded waveform with its sample rate, a list of
    label records (the JSON files), or anything else. *)
Inductive content : Type :=
| Audio (y : list float) (sr : Z)
| Labels (records : list label)
| Other (bytes : string).

Record FS : Type := mkFS {
  dirs : gset path;
  files : gmap path content
}.

Definition is_dir (fs : FS) (p : path) : bool :=
  bool_decide (p = []) || bool_decide (p ∈ dirs fs).

Definition is_file (fs : FS) (p : path) : bool :=
  bool_decide (is_Some (files fs !! p)).

(** [os.path.exists] *)
Definition path_exists (fs : FS) (p : path) : bool := is_dir fs p || is_file fs p.

(** The directories [p[:1]], [p[:2]], ..., [p]. *)
Definition ancestors (p : path) : list path :=
  map (fun n => take n p) (seq 1 (length p)).

(** [os.makedirs(p, exist_ok=True)] *)
Definition makedirs (p : path) (fs : FS) : result FS :=
  if existsb (is_file fs) (ancestors p) then Raise OSError
  else Ok (mkFS (dirs fs ∪ list_to_set (ancestors p)) (files fs)).

(** [shutil.rmtree(p)] *)
Definition rmtree (p : path) (fs : FS) : result FS :=
  if is_dir fs p then
    Ok (mkFS (filter (fun q => ¬ p `prefix_of` q) (dirs fs))
             (filter (fun kv => ¬ p `prefix_of` kv.1) (files fs)))
  else Raise OSError.

(** Writing one file: its directory must exist, and the name must not be
    a directory's. *)
Definition write_file (p : path) (c : content) (fs : FS) : result FS :=
  if is_dir fs (dirname p) && negb (is_dir fs p) then
    Ok (mkFS (dirs fs) (<[p := c]> (files fs)))
  else Raise OSError.

(** [shutil.copy2(src, dst)]: into [dst] itself, or under the name of
    [src] when [dst] is a directory. *)
Definition copy2 (src dst : path) (fs : FS) : result FS :=
  match files fs !! src with
  | None => Raise OSError
  | Some c =>
      let target := if is_dir fs dst then dst ++ drop (length src - 1) src else dst in
      if bool_decide (src = target) then Raise OSError
      else write_file target c fs
  end.

(** [librosa.load(p, sr=None)] *)
Definition librosa_load (fs : FS) (p : path) : result (list float * Z) :=
  match files fs !! p with
  | Some (Audio y sr) => Ok (y, sr)
  | _ => Raise OSError
  end.

(** [sf.write(p, y, sr)] *)
Definition sf_write (p : path) (y : list float) (sr : Z) (fs : FS) : result FS :=
  write_file p (Audio y sr) fs.

(** What [os.walk] yields: each directory with the names of its files. *)
Abbreviation listing := (list (path * list string)).

Section AugmentFiles.
Context {R : NumpyRandom} {F : NumpyFFT}.
(** The text of a float inside an f-string. *)
Variable float_str : float -> string.

(** [add_noise_to_audio]: every exception is caught and turns into
    [False]; what was written before it stays. *)
Definition add_noise_to_audio (input_path output_path : path)
    (noise_type : string) (noise_level : float) (seed : Z) (fs : FS)
  : bool * FS :=
  match librosa_load fs input_path with
  | Raise _ => (false, fs)
  | Ok (y, sr) =>
      match noisy_y y sr noise_type noise_level seed with
      | Raise _ => (false, fs)
      | Ok (out, sr') =>
          match makedirs (dirname output_path) fs with
          | Raise _ => (false, fs)
          | Ok fs1 =>
              match sf_write output_path out sr' fs1 with
              | Raise _ => (false, fs1)
              | Ok fs2 => (true, fs2)
              end
          end
      end
  end.

Definition supported_formats : list string :=
  [".wav"; ".flac"; ".mp3"; ".m4a"]%string.

(** The filter of [batch_process_audio_folder]. *)
Definition selected (file : string) : bool :=
  existsb (endswith (lower file)) supported_formats
  && (startswith file "base" || startswith file "aug").

(** [f"{filename}_{noise_type}_noise{noise_level}{ext}"] *)
Definition output_name (input_folder output_folder root : path) (file : string)
    (noise_type : string) (noise_level : float) : path :=
  let input_path := join root [file] in
  let relative_path := relpath input_path input_folder in
  let output_path := join output_folder relative_path in
  let '(filename, ext) := splitext_path output_path in
  match last filename with
  | None => filename
  | Some stem =>
      removelast filename ++
      [(stem +:+ "_" +:+ noise_type +:+ "_noise" +:+ float_str noise_level +:+ ext)%string]
  end.

Record batch_state : Type := BatchState {
  processed_count : nat;
  skipped_count : nat;
  batch_fs : FS
}.

(** The body of the inner loop, for one file of one directory. *)
Definition batch_step (input_folder output_folder : path) (noise_type : string)
    (noise_level : float) (seed : Z) (root : path) (s : batch_state)
    (file : string) : batch_state :=
  if selected file then
    let input_path := join root [file] in
    let output_path :=
      output_name input_folder output_folder root file noise_type noise_level in
    let '(ok, fs') :=
      add_noise_to_audio input_path output_path noise_type noise_level seed
        (batch_fs s) in
    BatchState (if ok then S (processed_count s) else processed_count s)
               (skipped_count s) fs'
  else
    BatchState (processed_count s) (S (skipped_count s)) (batch_fs s).

(** [batch_process_audio_folder], over the sequence [walk] that
    [os.walk(input_folder)] yields. *)
Definition batch_process_audio_folder (walk : listing)
    (input_folder output_folder : path) (noise_type : string)
    (noise_level : float) (seed : Z) (fs : FS) : batch_state :=
  fold_left
    (fun s '(root, files) =>
       fold_left
         (batch_step input_folder output_folder noise_type noise_level seed root)
         files s)
    walk (BatchState 0 0 fs).

End AugmentFiles.

(** ** Python's [random] module *)

(** [random.seed], [random.shuffle] and [random.sample] never look at the
    elements: a shuffle of [n] items is the order in which the old
    positions are read, a sample of [k] out of [n] is the list of chosen
    positions. *)
Class PyRandom : Type := {
  py_state : Type;
  py_seed : Z -> py_state;
  shuffle_order : nat -> py_state -> list nat * py_state;
  sample_positions : nat -> nat -> py_state -> list nat * py_state
}.

(** A shuffle is a permutation of the positions; a sample is [k] distinct
    positions. *)
Definition py_random_contract (P : PyRandom) : Prop :=
  (forall n st, (shuffle_order n st).1 ≡ₚ seq 0 n) /\
  (forall n k st, (k <= n)%nat ->
     length (sample_positions n k st).1 = k /\
     NoDup (sample_positions n k st).1 /\
     Forall (fun i => (i < n)%nat) (sample_positions n k st).1).

(** The elements of [x] at the given positions. *)
Definition pick {A} (x : list A) (positions : list nat) : list A :=
  omap (fun i => x !! i) positions.

Section PythonRandom.
Context {P : PyRandom}.

(** [random.shuffle(x)]: the new value of [x], and the generator state. *)
Definition random_shuffle {A} (x : list A) (st : py_state) : list A * py_state :=
  let '(order, st') := shuffle_order (length x) st in (pick x order, st').

(** [random.sample(population, k)] *)
Definition random_sample {A} (population : list A) (k : nat) (st : py_state)
  : result (list A * py_state) :=
  if (k <=? length population)%nat then
    let '(positions, st') := sample_positions (length population) k st in
    Ok (pick population positions, st')
  else Raise ValueError.

End PythonRandom.

(** ** Scanning a corpus *)

(** [file.lower().endswith(audio_formats)] *)
Definition is_audio (audio_formats : list string) (file : string) : bool :=
  existsb (endswith (lower file)) audio_formats.

(** [any(file.startswith(prefix) for prefix in positive_prefixes)] *)
Definition is_positive (positive_prefixes : list string) (file : string) : bool :=
  existsb (startswith file) positive_prefixes.

(** The traversal loop shared by [balance_samples] and
    [split_and_generate_labels]: [entry root file] is what is appended. *)
Definition scan {A} (entry : path -> string -> A) (walk : listing)
    (positive_prefixes audio_formats : list string) : list A * list A :=
  fold_left
    (fun acc '(root, files) =>
       fold_left
         (fun '(pos, neg) file =>
            if is_audio audio_formats file then
              if is_positive positive_prefixes file
              then (pos ++ [entry root file], neg)
              else (pos, neg ++ [entry root file])
            else (pos, neg))
         files acc)
    walk ([], []).

(** ** [数据平衡.py] *)

Record selection : Type := Selection {
  positive_files : list path;
  negative_files : list path;
  sampled_negative_files : list path;
  selected_files : list path
}.

Section Balance.
Context {P : PyRandom}.

(** Steps 1-6 of [balance_samples]: seeding, scanning, the size check,
    the sample and the list of files to keep. *)
Definition select_samples (walk : listing)
    (positive_prefixes audio_formats : list string) (random_seed : Z)
  : result selection :=
  let st := py_seed random_seed in
  let '(positive_files, negative_files) :=
    scan (fun root file => join root [file]) walk positive_prefixes audio_formats in
  let pos_count := length positive_files in
  let neg_count := length negative_files in
  if (neg_count <? pos_count)%nat then Raise ValueError
  else
    '(sampled_negative_files, _) ← random_sample negative_files pos_count st;
    Ok (Selection positive_files negative_files sampled_negative_files
          (positive_files ++ sampled_negative_files)).

(** Step 8: one iteration of the copy loop; a failed copy is reported and
    skipped. *)
Definition copy_step (input_folder output_folder : path) (s : nat * FS)
    (file_path : path) : nat * FS :=
  let '(copied, fs) := s in
  let relative_path := relpath file_path input_folder in
  let output_path := join output_folder relative_path in
  match makedirs (dirname output_path) fs with
  | Raise _ => (copied, fs)
  | Ok fs1 =>
      match copy2 file_path output_path fs1 with
      | Raise _ => (copied, fs1)
      | Ok fs2 => (S copied, fs2)
      end
  end.

(** [balance_samples], over the sequence [walk] that
    [os.walk(input_folder)] yields: the selection and the number of
    files copied.  An exception leaves the function with the file system
    as it is at that point. *)
Definition balance_samples (walk : listing) (input_folder output_folder : path)
    (positive_prefixes audio_formats : list string) (random_seed : Z) (fs : FS)
  : result (selection * nat) * FS :=
  match select_samples walk positive_prefixes audio_formats random_seed with
  | Raise e => (Raise e, fs)
  | Ok sel =>
      match (if path_exists fs output_folder then rmtree output_folder fs
             else Ok fs) with
      | Raise e => (Raise e, fs)
      | Ok fs1 =>
          match makedirs output_folder fs1 with
          | Raise e => (Raise e, fs1)
          | Ok fs2 =>
              let '(copied_count, fs3) :=
                fold_left (copy_step input_folder output_folder)
                          (selected_files sel) (O, fs2) in
              (Ok (sel, copied_count), fs3)
          end
      end
  end.

End Balance.

(** ** [数据标签制作.py] *)

(** A slice bound: a negative one counts from the end, and both are
    clamped to the list. *)
Definition slice_bound (n : nat) (i : Z) : nat :=
  if i <? 0 then Z.to_nat (Z.max (i + Z.of_nat n) 0)
  else Z.to_nat (Z.min i (Z.of_nat n)).

(** [x[start:stop]], [x[:stop]] and [x[start:]] *)
Definition slice {A} (x : list A) (start stop : Z) : list A :=
  let a := slice_bound (length x) start in
  let b := slice_bound (length x) stop in
  take (b - a) (drop a x).

Definition slice_to {A} (x : list A) (stop : Z) : list A :=
  take (slice_bound (length x) stop) x.

Definition slice_from {A} (x : list A) (start : Z) : list A :=
  drop (slice_bound (length x) start) x.

(** [int(count * ratio / total_ratio)] *)
Definition split_num (count : nat) (ratio total_ratio : Z) : result Z :=
  q ← py_truediv (Z.of_nat count * ratio) total_ratio;
  py_int q.

Definition build_label_list (sample_list : list string) (keyword : Z) : list label :=
  map (fun utt => Label utt utt keyword) sample_list.

Record class_split (A : Type) : Type := ClassSplit {
  dev : A;
  test : A;
  train : A
}.

Arguments ClassSplit {A} dev test train.
Arguments dev {A} c.
Arguments test {A} c.
Arguments train {A} c.

Record split_report : Type := SplitReport {
  positive_samples : list string;   (* after [random.shuffle] *)
  negative_samples : list string;   (* after [random.shuffle] *)
  p_num : class_split Z;
  n_num : class_split Z;
  p_split : class_split (list string);
  n_split : class_split (list string);
  p_labels : class_split (list label);
  n_labels : class_split (list label)
}.

(** The three slices of one class. *)
Definition split3 {A} (x : list A) (dev_num test_num : Z) : class_split (list A) :=
  ClassSplit (slice_to x dev_num)
             (slice x dev_num (dev_num + test_num))
             (slice_from x (dev_num + test_num)).

(** Step 8: the six files, in the order of the dictionary. *)
Definition label_files (r : split_report) : list (string * list label) :=
  [("p_dev.json", dev (p_labels r)); ("p_test.json", test (p_labels r));
   ("p_train.json", train (p_labels r)); ("n_dev.json", dev (n_labels r));
   ("n_test.json", test (n_labels r)); ("n_train.json", train (n_labels r))]%string.

Fixpoint write_labels (folder : path) (fl : list (string * list label)) (fs : FS)
  : result unit * FS :=
  match fl with
  | [] => (Ok (), fs)
  | (name, data) :: rest =>
      match write_file (join folder [name]) (Labels data) fs with
      | Raise e => (Raise e, fs)
      | Ok fs' => write_labels folder rest fs'
      end
  end.

Section Split.
Context {P : PyRandom}.

(** Steps 1-6 of [split_and_generate_labels]: seeding, scanning, the
    split sizes, the two shuffles, the slices and the label records. *)
Definition assign_splits (walk : listing) (split_ratio : Z * Z * Z)
    (positive_prefixes audio_formats : list string) (random_seed : Z)
  : result split_report :=
  let st := py_seed random_seed in
  let '(positive_samples, negative_samples) :=
    scan (fun _ file => (splitext file).1) walk positive_prefixes audio_formats in
  let pos_count := length positive_samples in
  let neg_count := length negative_samples in
  let '(dev_ratio, test_ratio, train_ratio) := split_ratio in
  let total_ratio := dev_ratio + test_ratio + train_ratio in
  p_dev_num ← split_num pos_count dev_ratio total_ratio;
  p_test_num ← split_num pos_count test_ratio total_ratio;
  let p_train_num := Z.of_nat pos_count - p_dev_num - p_test_num in
  n_dev_num ← split_num neg_count dev_ratio total_ratio;
  n_test_num ← split_num neg_count test_ratio total_ratio;
  let n_train_num := Z.of_nat neg_count - n_dev_num - n_test_num in
  let '(positive_samples, st) := random_shuffle positive_samples st in
  let p := split3 positive_samples p_dev_num p_test_num in
  let '(negative_samples, st) := random_shuffle negative_samples st in
  let n := split3 negative_samples n_dev_num n_test_num in
  Ok (SplitReport positive_samples negative_samples
        (ClassSplit p_dev_num p_test_num p_train_num)
        (ClassSplit n_dev_num n_test_num n_train_num)
        p n
        (ClassSplit (build_label_list (dev p) 0) (build_label_list (test p) 0)
                    (build_label_list (train p) 0))
        (ClassSplit (build_label_list (dev n) (-1)) (build_label_list (test n) (-1))
                    (build_label_list (train n) (-1)))).

(** [split_and_generate_labels], over the sequence [walk] that
    [os.walk(balanced_folder)] yields. *)
Definition split_and_generate_labels (walk : listing)
    (output_label_folder : path) (split_ratio : Z * Z * Z)
    (positive_prefixes audio_formats : list string) (random_seed : Z) (fs : FS)
  : result split_report * FS :=
  match assign_splits walk split_ratio positive_prefixes audio_formats random_seed with
  | Raise e => (Raise e, fs)
  | Ok report =>
      match makedirs output_label_folder fs with
      | Raise e => (Raise e, fs)
      | Ok fs1 =>
          match write_labels output_label_folder (label_files report) fs1 with
          | (Raise e, fs2) => (Raise e, fs2)
          | (Ok _, fs2) => (Ok report, fs2)
          end
      end
  end.

End Split.

(** ** Executable instances of the library interfaces

    A linear congruential generator stands in for the Mersenne Twister,
    and a transform that handles one and two points (where the discrete
    Fourier transform needs additions only) for numpy's FFT.  They serve
    to run the model on concrete inputs. *)

Module Lcg.

Definition next (s : Z) : Z := (1103515245 * s + 12345) mod 2147483648.

(** [n] successive states, and the state after them. *)
Fixpoint draws (n : nat) (s : Z) : list Z * Z :=
  match n with
  | O => ([], s)
  | S n' => let s1 := next s in
            let '(l, s2) := draws n' s1 in (s1 :: l, s2)
  end.

Definition normal (loc scale : float) (n : nat) (s : Z) : list float * Z :=
  let '(zs, s') := draws n s in
  (map (fun z => add loc (mul scale (ratio (z mod 2001 - 1000) 400))) zs, s').

Definition randint (lo hi : Z) (n : nat) (s : Z) : list Z * Z :=
  let '(zs, s') := draws n s in
  (map (fun z => lo + z mod (hi - lo)) zs, s').

(** [k] positions drawn from [pool], each removed once drawn. *)
Fixpoint draw_from (k : nat) (pool : list nat) (s : Z) : list nat * Z :=
  match k with
  | O => ([], s)
  | S k' =>
      let s1 := next s in
      let j := Z.to_nat (s1 mod Z.of_nat (length pool)) in
      match pool !! j with
      | None => ([], s1)
      | Some i => let '(l, s2) := draw_from k' (delete j pool) s1 in (i :: l, s2)
      end
  end.

End Lcg.

Definition lcg_numpy : NumpyRandom := {|
  np_state := Z;
  np_seed := fun s => s;
  np_normal := Lcg.normal;
  np_randint := Lcg.randint
|}.

Definition lcg_python : PyRandom := {|
  py_state := Z;
  py_seed := fun s => s;
  shuffle_order := fun n s => Lcg.draw_from n (seq 0 n) s;
  sample_positions := fun n k s => Lcg.draw_from k (seq 0 n) s
|}.

Definition half : float := Eval vm_compute in ratio 1 2.

Definition dft2 : NumpyFFT := {|
  rfft := fun x =>
    match x with
    | [a] => Ok [of_real a]
    | [a; b] => Ok [of_real (add a b); of_real (sub a b)]
    | _ => Raise ValueError
    end;
  irfft := fun X =>
    match X with
    | [X0; X1] => Ok [mul (add (re X0) (re X1)) half; mul (sub (re X0) (re X1)) half]
    | _ => Raise ValueError
    end
|}.

(** ** Sample inputs *)

(** Three samples: [0.5], [0.25], [-0.1]. *)
Definition short_wave : list float := [ratio 1 2; ratio 1 4; ratio (-1) 10].

(** Two samples: [0.5], [0.25]. *)
Definition pair_wave : list float := [ratio 1 2; ratio 1 4].

(** A directory with four keyword files, four other recordings and a
    text file. *)
Definition small_corpus : listing :=
  [(["data"], ["base_a.wav"; "base_b.wav"; "aug_c.wav"; "aug_d.wav";
               "w.wav"; "x.wav"; "y.wav"; "z.wav"; "notes.txt"])]%string.

(** A directory with two keyword files and one other recording. *)
Definition lopsided_corpus : listing :=
  [(["data"], ["base_a.wav"; "aug_b.wav"; "x.wav"])]%string.

Definition default_prefixes : list string := ["base"; "aug"]%string.

Definition empty_fs : FS := mkFS ∅ ∅.

(** The corpus of the end-to-end example: two keyword files and three
    other recordings. *)
Definition example_corpus : listing :=
  [(["corpus"], ["base_1.wav"; "aug_1.wav"; "neg_1.wav"; "neg_2.wav"; "neg_3.wav"])]%string.

(** ** Sample file systems *)

(** The recordings of [small_corpus] on disk, beside an output folder
    that holds a file of an earlier run. *)
Definition small_corpus_fs : FS :=
  mkFS {[ ["data"]%string; ["out"]%string ]}
       (list_to_map
          (map (fun file => (["data"; file]%string, Audio short_wave 16000))
               ["base_a.wav"; "base_b.wav"; "aug_c.wav"; "aug_d.wav";
                "w.wav"; "x.wav"; "y.wav"; "z.wav"]%string
           ++ [(["data"; "notes.txt"]%string, Other "to do");
               (["out"; "old.wav"]%string, Audio pair_wave 8000)])).

(** A file system with one recording that has no sample. *)
Definition silent_fs : FS :=
  mkFS {[ ["data"]%string ]}
       {[ ["data"; "base_silent.wav"]%string := Audio [] 16000 ]}.

(** ** Vocabulary of the statements *)

(** The mantissa of the literal [0.001], which is [m * 2^-62]. *)
Definition thousandth_mantissa : positive := 4611686018427388.

(** The value position [j] holds after the assignments [ivs], made in
    order onto an entry that held [init]. *)
Definition written (ivs : list (Z * float)) (j : nat) (init : option float)
  : option float :=
  fold_left (fun acc iv => if bool_decide (Z.to_nat iv.1 = j) then Some iv.2 else acc)
            ivs init.

(** The value of the last assignment to position [j], if there is one. *)
Definition last_write (ivs : list (Z * float)) (j : nat) : option float :=
  written ivs j None.

Definition count_nonzero (a : list float) : nat :=
  length (List.filter (fun x => negb (is_zero x)) a).

(** A largest magnitude that is finite and above zero. *)
Definition is_positive_finite (x : float) : bool :=
  match x with S754_finite false _ _ => true | _ => false end.

(** A listing without the files the filter rejects. *)
Definition keep_selected (walk : listing) : listing :=
  map (fun d => (d.1, List.filter selected d.2)) walk.

(** The number of files of a listing that the filter rejects. *)
Definition rejected_count (walk : listing) : nat :=
  list_sum (map (fun d => length (List.filter (fun f => negb (selected f)) d.2)) walk).

(** The files of a listing, each with its directory, in traversal order. *)
Definition walk_files (walk : listing) : list (path * string) :=
  flat_map (fun d => map (pair d.1) d.2) walk.

Definition positive_audio (positive_prefixes audio_formats : list string)
    (rf : path * string) : bool :=
  is_audio audio_formats rf.2 && is_positive positive_prefixes rf.2.

Definition negative_audio (positive_prefixes audio_formats : list string)
    (rf : path * string) : bool :=
  is_audio audio_formats rf.2 && negb (is_positive positive_prefixes rf.2).

(** What a split of one class has to satisfy: the three sizes, the
    slices of the shuffled list, and the shuffled list against the class. *)
Definition split_correct (d t r : Z) (class shuffled : list string)
    (num : class_split Z) (parts : class_split (list string)) : Prop :=
  let n := Z.of_nat (length class) in
  let total := d + t + r in
  dev num = n * d / total /\
  test num = n * t / total /\
  train num = n - dev num - test num /\
  dev num + test num + train num = n /\
  shuffled ≡ₚ class /\
  dev parts ++ test parts ++ train parts = shuffled /\
  (NoDup class -> NoDup (dev parts ++ test parts ++ train parts)) /\
  (0 <= r ->
   Z.of_nat (length (dev parts)) = dev num /\
   Z.of_nat (length (test parts)) = test num /\
   Z.of_nat (length (train parts)) = train num).


(** ** Vocabulary of the file-system statements *)

(** Every file and directory of [fs] is one of [fs']. *)
Definition keeps (fs fs' : FS) : Prop :=
  (forall p, is_file fs p = true -> is_file fs' p = true) /\
  (forall d, is_dir fs d = true -> is_dir fs' d = true).

(** No dot among the characters. *)
Definition no_dot (s : string) : bool :=
  forallb (fun c => negb (Ascii.eqb c ".")) (list_ascii_of_string s).

(** [os.makedirs(p, exist_ok=True)] goes through: neither [p] nor a
    directory above it is a file. *)
Definition creatable (fs : FS) (p : path) : bool :=
  negb (existsb (is_file fs) (ancestors p)).

(** A file system as the operating system keeps it: every path above a
    file is a directory and not a file, and every path above a directory
    is a directory. *)
Definition well_formed (fs : FS) : bool :=
  forallb (fun p => forallb (fun a => is_dir fs a && negb (is_file fs a))
                            (ancestors (dirname p)))
          (map fst (map_to_list (files fs)))
  && forallb (fun d => forallb (is_dir fs) (ancestors d)) (elements (dirs fs)).

(** The listing is one of [input_folder] in [fs]: its directories are
    [input_folder] or lie below it, and its files exist. *)
Definition lists_files_of (fs : FS) (input_folder : path) (walk : listing) : bool :=
  forallb (fun rf => bool_decide (input_folder `prefix_of` rf.1)
                     && is_file fs (join rf.1 [rf.2]))
          (walk_files walk).

(** Where [balance_samples] copies [file_path]. *)
Definition copy_target (input_folder output_folder file_path : path) : path :=
  join output_folder (relpath file_path input_folder).

(** The transform handles a waveform of [n] points, as numpy's does:
    [rfft] takes any [n >= 1] points, and [irfft] the [n/2 + 1] bins of
    any [n >= 2] points. *)
Definition fft_accepts (F : NumpyFFT) (n : nat) : Prop :=
  (forall x, length x = n -> (1 <= n)%nat -> is_ok (rfft x) = true) /\
  (forall X, length X = (n / 2 + 1)%nat -> (2 <= n)%nat -> is_ok (irfft X) = true).

(** * Properties *)

(** ** Results *)

Lemma bind_Ok {A B} (m : result A) (k : A -> result B) (b : B) :
  (m ≫= k) = Ok b -> exists a, m = Ok a /\ k a = Ok b.
Proof. destruct m as [a|e]; simpl; [eauto | discriminate]. Qed.

Lemma bind_Ok_l {A B} (a : A) (k : A -> result B) : (Ok a ≫= k) = k a.
Proof. reflexivity. Qed.

(** ** Clipping *)

Lemma np_clip1_nan x : is_nan (np_clip1 minus_one one x) = is_nan x.
Proof.
  unfold np_clip1. destruct (is_nan x) eqn:Hx; [by rewrite Hx|].
  destruct (gtb x minus_one); [rewrite Hx|simpl]; first last.
  { reflexivity. }
  destruct (ltb x one); [done | reflexivity].
Qed.

Lemma np_clip1_within x :
  is_nan x = false -> within minus_one one (np_clip1 minus_one one x) = true.
Proof.
  intros Hx. unfold np_clip1. rewrite Hx.
  destruct (gtb x minus_one) eqn:Hlo; [rewrite Hx|reflexivity].
  destruct (ltb x one) eqn:Hhi; [|reflexivity].
  unfold within, leb, SFleb. unfold gtb, ltb, SFltb in Hlo, Hhi.
  destruct (SFcompare minus_one x) as [[]|]; try discriminate.
  destruct (SFcompare x one) as [[]|]; try discriminate. reflexivity.
Qed.

(** Every clipped sample is in [[-1, 1]] or is a NaN that was there before
    clipping. *)
Lemma np_clip_within a :
  Forall (fun x => is_nan x = true \/ within minus_one one x = true)
         (np_clip a minus_one one).
Proof.
  unfold np_clip. apply List.Forall_map, Forall_forall. intros x0 _.
  destruct (is_nan x0) eqn:E.
  - left. by rewrite np_clip1_nan.
  - right. by apply np_clip1_within.
Qed.

(** ** Shapes *)

Lemma broadcast_length {A B C} (f : A -> B -> C) a b c :
  broadcast f a b = Ok c ->
  length c = length a \/ (length a = 1%nat /\ length c = length b).
Proof.
  unfold broadcast. destruct (length a =? length b)%nat eqn:E.
  - apply Nat.eqb_eq in E. intros [= <-]. left.
    by rewrite length_zip_with_l_eq.
  - destruct a as [|x [|x' a]], b as [|y [|y' b]]; intros [= <-];
      simpl; rewrite ?length_map; auto.
Qed.

Lemma broadcast_to_length {A B C} (f : A -> B -> C) a b c :
  broadcast_to f a b = Ok c -> length c = length a.
Proof.
  unfold broadcast_to. destruct (length a =? length b)%nat eqn:E.
  - apply Nat.eqb_eq in E. intros [= <-]. by rewrite length_zip_with_l_eq.
  - destruct b as [|y [|y' b]]; intros [= <-]. by rewrite length_map.
Qed.

Lemma setitem1_length a i v a' : setitem1 a i v = Ok a' -> length a' = length a.
Proof.
  unfold setitem1. repeat case_match; intros [= <-]; by rewrite length_insert.
Qed.

Lemma setitem_pairs_length ivs : forall a a',
  setitem_pairs a ivs = Ok a' -> length a' = length a.
Proof.
  induction ivs as [|[i v] ivs IH]; simpl; intros a a' H.
  - by injection H as <-.
  - apply bind_Ok in H as (a1 & Ha & H). apply IH in H.
    apply setitem1_length in Ha. congruence.
Qed.

Lemma setitem_length a idx vals a' :
  setitem a idx vals = Ok a' -> length a' = length a.
Proof.
  unfold setitem. intros H. apply bind_Ok in H as (ivs & _ & H).
  by apply setitem_pairs_length in H.
Qed.

Lemma normalize_length n n' :
  normalize n = Ok n' -> length n' = length n /\ n <> [].
Proof.
  unfold normalize. intros H. apply bind_Ok in H as (m & Hm & H).
  injection H as <-.
  rewrite length_map. split; [done|]. by destruct n.
Qed.

Section AugmentFacts.
Context {R : NumpyRandom} {F : NumpyFFT}.
Hypothesis HR : random_contract R.
Hypothesis HF : fft_contract F.

(** White and impulse noise have the length of the waveform; pink noise
    has the even length [irfft] gives back. *)
Lemma noise_length noise_type y sr st n :
  noise noise_type y sr st = Ok n ->
  length n = length y \/ (n <> [] /\ length n = (2 * (length y / 2))%nat).
Proof.
  destruct HR as (Hnorm & Hint & _), HF as (Hr & Hi).
  unfold noise. intros Hn.
  destruct (String.eqb noise_type "white").
  { injection Hn as <-. left. apply Hnorm. }
  destruct (String.eqb noise_type "pink").
  { right.
    apply bind_Ok in Hn as (X & HX & Hn). apply bind_Ok in Hn as (d & Hd & Hn).
    apply bind_Ok in Hn as (fr & Hfr & Hn). apply bind_Ok in Hn as (X' & HX' & Hn).
    apply Hr in HX as [_ HX]. apply broadcast_to_length in HX'.
    apply Hi in Hn as [Hne Hn]. split; [done|].
    rewrite Hn, HX', HX, Hnorm. lia. }
  destruct (String.eqb noise_type "impulse"); [|discriminate].
  left. apply bind_Ok in Hn as (k & _ & Hn).
  destruct (np_randint _ _ _ _) as [pos st1].
  destruct (np_normal _ _ _ st1) as [amps st2].
  apply setitem_length in Hn. by rewrite Hn, repeat_length.
Qed.

Lemma noisy_y_shape y sr noise_type noise_level seed out sr' :
  noisy_y y sr noise_type noise_level seed = Ok (out, sr') ->
  length out = length y /\ sr' = sr.
Proof.
  unfold noisy_y, overlay. intros H.
  apply bind_Ok in H as (st & _ & H). apply bind_Ok in H as (n & Hn & H).
  apply bind_Ok in H as (o & Ho & H). injection H as <- <-. split; [|done].
  apply bind_Ok in Ho as (n' & Hn' & H). apply bind_Ok in H as (s & Hs & H).
  injection H as <-.
  unfold np_clip. rewrite length_map.
  apply normalize_length in Hn' as [Hlen Hne].
  apply broadcast_length in Hs as [Hs | [Hy Hs]]; [done|].
  rewrite length_map in Hs. rewrite Hs, Hlen.
  apply noise_length in Hn as [Hn | [_ Hn]]; [done|].
  rewrite Hy in Hn. simpl in Hn. destruct n; [done|discriminate].
Qed.

End AugmentFacts.

(** ** The instances meet the contracts *)

Lemma lcg_draws_length n : forall s, length (Lcg.draws n s).1 = n.
Proof.
  induction n as [|n IH]; intros s; simpl; [done|].
  specialize (IH (Lcg.next s)). destruct (Lcg.draws n (Lcg.next s)). simpl in *.
  by rewrite IH.
Qed.

Lemma lcg_numpy_contract : random_contract lcg_numpy.
Proof.
  split; [|split]; simpl.
  - intros loc scale n st. unfold Lcg.normal.
    pose proof (lcg_draws_length n st) as H.
    destruct (Lcg.draws n st). simpl in *. by rewrite length_map.
  - intros lo hi n st. unfold Lcg.randint.
    pose proof (lcg_draws_length n st) as H.
    destruct (Lcg.draws n st). simpl in *. by rewrite length_map.
  - intros lo hi n st z Hlt Hz. revert Hz. unfold Lcg.randint.
    destruct (Lcg.draws n st) as [zs s']. simpl. intros Hz.
    apply list_elem_of_In, in_map_iff in Hz as (w & <- & _).
    pose proof (Z.mod_pos_bound w (hi - lo)). lia.
Qed.

Lemma dft2_contract : fft_contract dft2.
Proof.
  split; simpl.
  - intros [|a [|b [|c x]]] X; intros [= <-]; done.
  - intros [|a [|b [|c X]]] x; intros [= <-]; done.
Qed.

Lemma lcg_draw_from k : forall pool s, (k <= length pool)%nat ->
  length (Lcg.draw_from k pool s).1 = k /\
  exists rest, (Lcg.draw_from k pool s).1 ++ rest ≡ₚ pool.
Proof.
  induction k as [|k IH]; intros pool s Hk; simpl.
  - split; [done|]. by exists pool.
  - set (s1 := Lcg.next s).
    set (j := Z.to_nat (s1 mod Z.of_nat (length pool))).
    assert (j < length pool)%nat as Hj.
    { subst j. pose proof (Z.mod_pos_bound s1 (Z.of_nat (length pool))). lia. }
    destruct (lookup_lt_is_Some_2 pool j Hj) as [i Hi]. rewrite Hi.
    destruct (IH (delete j pool) s1) as [Hlen [rest Hrest]].
    { rewrite length_delete by eauto. lia. }
    destruct (Lcg.draw_from k (delete j pool) s1) as [l s2]. simpl in *.
    split; [by rewrite Hlen|]. exists rest.
    rewrite Hrest. symmetry. by apply delete_Permutation.
Qed.

Lemma lcg_python_contract : py_random_contract lcg_python.
Proof.
  split; simpl.
  - intros n st.
    destruct (lcg_draw_from n (seq 0 n) st) as [Hlen [rest Hrest]].
    { by rewrite length_seq. }
    assert (rest = []) as ->.
    { apply Permutation_length in Hrest.
      rewrite length_app, Hlen, length_seq in Hrest.
      destruct rest; [done | simpl in Hrest; lia]. }
    by rewrite app_nil_r in Hrest.
  - intros n k st Hk.
    destruct (lcg_draw_from k (seq 0 n) st) as [Hlen [rest Hrest]].
    { by rewrite length_seq. }
    split; [done|].
    assert (NoDup ((Lcg.draw_from k (seq 0 n) st).1 ++ rest)) as Hnd.
    { rewrite Hrest. apply NoDup_seq. }
    split; [by apply NoDup_app in Hnd as [? _]|].
    apply Forall_forall. intros i Hi.
    assert (i ∈ seq 0 n) as Hin.
    { rewrite <- Hrest. apply elem_of_app. by left. }
    apply elem_of_seq in Hin. lia.
Qed.

(** ** Integer true division and truncation

    [int(a / b)] for integers below [2^53]: rounding the quotient to
    binary64 never reaches the next integer, so truncating it gives the
    integer quotient. *)

Lemma digits2_pos_bounds p :
  2 ^ (Zpos (digits2_pos p) - 1) <= Zpos p < 2 ^ Zpos (digits2_pos p).
Proof.
  induction p as [p IH|p IH|]; simpl digits2_pos.
  - rewrite Pos2Z.inj_succ.
    replace (Z.succ (Zpos (digits2_pos p)) - 1) with (Z.succ (Zpos (digits2_pos p) - 1)) by lia.
    rewrite !Z.pow_succ_r by lia. lia.
  - rewrite Pos2Z.inj_succ.
    replace (Z.succ (Zpos (digits2_pos p)) - 1) with (Z.succ (Zpos (digits2_pos p) - 1)) by lia.
    rewrite !Z.pow_succ_r by lia. lia.
  - simpl. lia.
Qed.

Lemma Zdigits2_unique x n :
  0 < x -> 2 ^ (n - 1) <= x < 2 ^ n -> Zdigits2 x = n.
Proof.
  intros Hx [Hlo Hhi]. destruct x as [|p|p]; try lia. simpl.
  pose proof (digits2_pos_bounds p) as [Hl Hh].
  destruct (Z.lt_trichotomy (Zpos (digits2_pos p)) n) as [Hlt|[Heq|Hgt]]; [|done|].
  - assert (2 ^ Zpos (digits2_pos p) <= 2 ^ (n - 1)) by (apply Z.pow_le_mono_r; lia). lia.
  - assert (2 ^ n <= 2 ^ (Zpos (digits2_pos p) - 1)) by (apply Z.pow_le_mono_r; lia). lia.
Qed.

Lemma Zdigits2_bounds x :
  0 < x -> 2 ^ (Zdigits2 x - 1) <= x < 2 ^ Zdigits2 x /\ 1 <= Zdigits2 x.
Proof.
  intros Hx. destruct x as [|p|p]; try lia. simpl.
  split; [apply digits2_pos_bounds | lia].
Qed.

Lemma shr_fexp_keep m e l :
  Zdigits2 m = 53 -> -1074 <= e ->
  shr_fexp prec emax m e l = (shr_record_of_loc m l, e).
Proof.
  intros Hd He. unfold shr_fexp, fexp, emin. rewrite Hd.
  replace (Z.max (53 + e - prec) (3 - emax - prec) - e) with 0
    by (unfold prec, emax; lia).
  reflexivity.
Qed.

Lemma shr_fexp_once m e l :
  Zdigits2 m = 54 -> -1074 <= e ->
  shr_fexp prec emax m e l = (shr_1 (shr_record_of_loc m l), e + 1).
Proof.
  intros Hd He. unfold shr_fexp, fexp, emin. rewrite Hd.
  replace (Z.max (54 + e - prec) (3 - emax - prec) - e) with 1
    by (unfold prec, emax; lia).
  reflexivity.
Qed.

Lemma shr_m_of_loc m l : shr_m (shr_record_of_loc m l) = m.
Proof. by destruct l as [|[]]. Qed.

Lemma loc_of_shr_of_loc m l : loc_of_shr_record (shr_record_of_loc m l) = l.
Proof. by destruct l as [|[]]. Qed.

(** The last step of rounding: a mantissa that reached [2^53] is
    renormalised; the value is unchanged. *)
Lemma round_finish m1 e1 :
  2 ^ 52 <= m1 <= 2 ^ 53 -> -1000 <= e1 <= 0 ->
  exists m e2,
    (let '(mrs, e) := shr_fexp prec emax m1 e1 loc_Exact in
     match shr_m mrs with
     | Z0 => S754_zero false
     | Zpos m => if e <=? emax - prec then S754_finite false m e
                 else S754_infinity false
     | Zneg _ => S754_nan
     end) = S754_finite false m e2 /\
    Z.shiftl (Zpos m) e2 = m1 / 2 ^ (- e1).
Proof.
  intros Hm He. destruct (Z.eq_dec m1 (2 ^ 53)) as [->|Hne].
  - rewrite shr_fexp_once by (reflexivity || lia).
    change (shr_m (shr_1 (shr_record_of_loc (2 ^ 53) loc_Exact))) with (2 ^ 52).
    change (2 ^ 52) with (Zpos (Z.to_pos (2 ^ 52))) at 1.
    cbv iota beta.
    replace (e1 + 1 <=? emax - prec) with true by (unfold emax, prec; lia).
    eexists _, _. split; [reflexivity|].
    change (Zpos (Z.to_pos (2 ^ 52))) with (2 ^ 52).
    destruct (Z.eq_dec e1 0) as [->|He0]; [reflexivity|].
    rewrite Z.shiftl_div_pow2 by lia.
    replace (- e1) with (Z.succ (- (e1 + 1))) by lia.
    rewrite Z.pow_succ_r by lia.
    change (2 ^ 53) with (2 ^ 52 * 2).
    rewrite (Z.mul_comm 2), Z.div_mul_cancel_r; [done| |lia].
    apply Z.pow_nonzero; lia.
  - assert (Zdigits2 m1 = 53) as Hd by (apply Zdigits2_unique; change (53 - 1) with 52; lia).
    rewrite shr_fexp_keep by (done || lia). simpl shr_m.
    destruct m1 as [|p|p]; try lia.
    replace (e1 <=? emax - prec) with true by (unfold emax, prec; lia).
    eexists _, _. split; [reflexivity|].
    apply Z.shiftl_div_pow2. lia.
Qed.

Lemma round_choice m l :
  round_nearest_even m l = m \/
  (round_nearest_even m l = m + 1 /\ (l = loc_Inexact Eq \/ l = loc_Inexact Gt)).
Proof.
  destruct l as [|[]]; simpl; auto. destruct (Z.even m); auto.
Qed.

Lemma shr_1_halves q l :
  0 < q ->
  q = 2 * shr_m (shr_1 (shr_record_of_loc q l))
      + (if shr_r (shr_1 (shr_record_of_loc q l)) then 1 else 0).
Proof.
  intros Hq. destruct q as [|[p|p|]|p]; try lia; by destruct l as [|[]].
Qed.

Lemma loc_round_bit mrs :
  loc_of_shr_record mrs = loc_Inexact Eq \/ loc_of_shr_record mrs = loc_Inexact Gt ->
  shr_r mrs = true.
Proof. destruct mrs as [m [] []]; simpl; intros [H|H]; done. Qed.

(** Rounding a quotient mantissa of 53 or 54 bits.  The result is the
    mantissa [M0] cut to 53 bits, or [M0 + 1]; it is read at scale
    [2^-k].  Rounding up needs a remainder of a half or more: a location
    [Eq] or [Gt] when nothing was cut, an odd mantissa when one bit
    was. *)
Lemma round_aux_spec q e loc :
  2 ^ 52 <= q < 2 ^ 54 -> -1000 <= e <= -1 ->
  exists m e2 M0 k (up : bool),
    binary_round_aux prec emax false q e loc = S754_finite false m e2 /\
    Z.shiftl (Zpos m) e2 = (M0 + (if up then 1 else 0)) / 2 ^ k /\
    0 <= k /\ 2 ^ 52 <= M0 < 2 ^ 53 /\
    ((k = - e /\ M0 = q /\
      (up = true -> loc = loc_Inexact Eq \/ loc = loc_Inexact Gt)) \/
     (k = - e - 1 /\ exists c, q = 2 * M0 + c /\ 0 <= c <= 1 /\ (up = true -> c = 1))).
Proof.
  intros Hq He. unfold binary_round_aux.
  destruct (Z_lt_le_dec q (2 ^ 53)) as [Hlt|Hge].
  - assert (Zdigits2 q = 53) as Hd by (apply Zdigits2_unique; change (53 - 1) with 52; lia).
    rewrite shr_fexp_keep by (done || lia).
    rewrite shr_m_of_loc, loc_of_shr_of_loc.
    destruct (round_choice q loc) as [Hr|[Hr Hl]]; rewrite Hr.
    + destruct (round_finish q e) as (m & e2 & Hfin & Hv); [lia|lia|].
      exists m, e2, q, (- e), false. rewrite Hfin, Z.add_0_r.
      split; [done|]. split; [done|]. split; [lia|]. split; [lia|].
      left. done.
    + destruct (round_finish (q + 1) e) as (m & e2 & Hfin & Hv); [lia|lia|].
      exists m, e2, q, (- e), true. rewrite Hfin.
      split; [done|]. split; [done|]. split; [lia|]. split; [lia|].
      left. done.
  - assert (Zdigits2 q = 54) as Hd by (apply Zdigits2_unique; change (54 - 1) with 53; lia).
    rewrite shr_fexp_once by (done || lia).
    pose proof (shr_1_halves q loc ltac:(lia)) as Hhalf.
    pose proof (loc_round_bit (shr_1 (shr_record_of_loc q loc))) as Hbit.
    set (mrs := shr_1 (shr_record_of_loc q loc)) in *.
    set (M0 := shr_m mrs) in *.
    set (c := if shr_r mrs then 1 else 0) in *.
    assert (0 <= c <= 1) as Hc by (subst c; destruct (shr_r mrs); lia).
    change (2 ^ 54) with (2 * 2 ^ 53) in Hq. change (2 ^ 53) with (2 * 2 ^ 52) in Hge.
    destruct (round_choice M0 (loc_of_shr_record mrs)) as [Hr|[Hr Hl]]; rewrite Hr.
    + destruct (round_finish M0 (e + 1)) as (m & e2 & Hfin & Hv); [lia|lia|].
      exists m, e2, M0, (- e - 1), false. rewrite Hfin, Z.add_0_r.
      split; [done|]. split; [by replace (- e - 1) with (- (e + 1)) by lia|].
      split; [lia|]. split; [lia|].
      right. split; [done|]. exists c. done.
    + destruct (round_finish (M0 + 1) (e + 1)) as (m & e2 & Hfin & Hv); [lia|lia|].
      exists m, e2, M0, (- e - 1), true. rewrite Hfin.
      split; [done|]. split; [by replace (- e - 1) with (- (e + 1)) by lia|].
      split; [lia|]. split; [lia|].
      right. split; [done|]. exists c. split; [done|]. split; [done|].
      intros _. subst c. by rewrite (Hbit Hl).
Qed.

Lemma new_location_half b r :
  0 < b -> 0 <= r < b ->
  new_location b r = loc_Inexact Eq \/ new_location b r = loc_Inexact Gt ->
  b <= 2 * r.
Proof.
  intros Hb Hr. unfold new_location, new_location_even, new_location_odd.
  destruct (Z.even b); destruct (r =? 0) eqn:E0.
  - intros [Hl|Hl]; discriminate.
  - destruct (Z.compare_spec (2 * r) b) as [Hc|Hc|Hc];
      intros [Hl|Hl]; try discriminate; lia.
  - intros [Hl|Hl]; discriminate.
  - destruct (Z.compare_spec (2 * r + 1) b) as [Hc|Hc|Hc];
      intros [Hl|Hl]; try discriminate; lia.
Qed.

Lemma floor_of_scaled a b k :
  0 <= k -> 0 < b -> (a * 2 ^ k / b) / 2 ^ k = a / b.
Proof.
  intros Hk Hb. assert (0 < 2 ^ k) by (apply Z.pow_pos_nonneg; lia).
  rewrite Z.div_div by lia. rewrite Z.div_mul_cancel_r by lia. done.
Qed.

(** Rounding up a 53-bit quotient of an integer below [2^53] does not
    change its integer part. *)
Lemma round_up_same_floor a b M0 k :
  0 <= k -> 0 < b -> 0 <= a < 2 ^ 53 ->
  M0 = a * 2 ^ k / b -> 2 ^ 52 <= M0 ->
  2 * M0 * b + b <= a * 2 ^ (k + 1) ->
  (M0 + 1) / 2 ^ k = a / b.
Proof.
  intros Hk Hb Ha HM Hlo Hup.
  assert (0 < 2 ^ k) as HK by (apply Z.pow_pos_nonneg; lia).
  rewrite Z.pow_add_r, Z.pow_1_r in Hup by lia.
  pose proof (floor_of_scaled a b k Hk Hb) as Hfl. rewrite <- HM in Hfl.
  set (K := 2 ^ k) in *. set (Q := a / b) in *.
  pose proof (Z.div_mod a b ltac:(lia)) as Ea. fold Q in Ea.
  pose proof (Z.mod_pos_bound a b Hb) as Ra.
  pose proof (Z.div_mod (a * K) b ltac:(lia)) as EM. rewrite <- HM in EM.
  pose proof (Z.mod_pos_bound (a * K) b Hb) as RM.
  pose proof (Z.div_mod M0 K ltac:(lia)) as EK. rewrite Hfl in EK.
  pose proof (Z.mod_pos_bound M0 K HK) as RK.
  symmetry. apply Z.div_unique with (r := M0 mod K + 1); [|lia].
  left. split; [lia|].
  destruct (Z.eq_dec (M0 mod K + 1) K) as [Heq|]; [exfalso|lia].
  assert (M0 + 1 = (Q + 1) * K) as HM1 by lia.
  assert (a * K <= b * (M0 + 1) - K) as H1.
  { rewrite HM1. assert (a + 1 <= b * (Q + 1)) by lia. nia. }
  assert (2 * K <= b) as H2 by nia.
  assert (2 ^ 52 * (2 * K) <= a * K) as H3 by nia.
  change (2 ^ 53) with (2 ^ 52 * 2) in Ha. nia.
Qed.

(** The quotient of two positive integers below [2^53], rounded to
    binary64, truncates to their integer quotient. *)
Lemma div_int_float pa pb :
  Zpos pa < 2 ^ 53 -> Zpos pb < 2 ^ 53 ->
  exists m e,
    div (S754_finite false pa 0) (S754_finite false pb 0) = S754_finite false m e /\
    Z.shiftl (Zpos m) e = Zpos pa / Zpos pb.
Proof.
  intros Ha Hb. set (a := Zpos pa) in *. set (b := Zpos pb) in *.
  destruct (Zdigits2_bounds a ltac:(done)) as [Ba Da].
  destruct (Zdigits2_bounds b ltac:(done)) as [Bb Db].
  set (d1 := Zdigits2 a) in *. set (d2 := Zdigits2 b) in *.
  assert (d1 <= 53) as Da'.
  { destruct (Z_le_gt_dec d1 53); [done|].
    assert (2 ^ 53 <= 2 ^ (d1 - 1)) by (apply Z.pow_le_mono_r; lia). lia. }
  assert (d2 <= 53) as Db'.
  { destruct (Z_le_gt_dec d2 53); [done|].
    assert (2 ^ 53 <= 2 ^ (d2 - 1)) by (apply Z.pow_le_mono_r; lia). lia. }
  unfold div, SFdiv, SFdiv_core_binary. fold a b d1 d2. cbv zeta.
  assert (Z.min (fexp prec emax (d1 + 0 - (d2 + 0))) (0 - 0) = d1 - d2 - 53) as ->.
  { unfold fexp, emin, prec, emax. lia. }
  set (s := 53 + d2 - d1).
  replace (0 - 0 - (d1 - d2 - 53)) with s by (subst s; lia).
  assert (0 < s) as Hs by (subst s; lia).
  destruct s as [|ps|ps] eqn:Es; try lia.
  rewrite <- Es. rewrite Z.shiftl_mul_pow2 by lia.
  pose proof (Z_div_mod (a * 2 ^ s) b ltac:(lia)) as Hdm.
  assert (Z.div_eucl (a * 2 ^ s) b = ((a * 2 ^ s) / b, (a * 2 ^ s) mod b)) as Hde.
  { unfold Z.div, Z.modulo. by destruct (Z.div_eucl (a * 2 ^ s) b). }
  rewrite Hde in Hdm |- *. destruct Hdm as [Hdm Hr].
  set (q := a * 2 ^ s / b) in *. set (r := (a * 2 ^ s) mod b) in *.
  assert (0 < 2 ^ s) as HS by (apply Z.pow_pos_nonneg; lia).
  assert (2 ^ 52 <= q < 2 ^ 54) as Hq.
  { assert (2 ^ s * 2 ^ (d1 - 1) = 2 ^ 52 * 2 ^ d2) as E1.
    { rewrite <- !Z.pow_add_r by lia. f_equal. subst s. lia. }
    assert (2 ^ s * 2 ^ d1 = 2 ^ 54 * 2 ^ (d2 - 1)) as E2.
    { rewrite <- !Z.pow_add_r by lia. f_equal. subst s. lia. }
    split.
    - apply Z.div_le_lower_bound; [lia|]. nia.
    - apply Z.div_lt_upper_bound; [lia|]. nia. }
  destruct (round_aux_spec q (d1 - d2 - 53) (new_location b r) Hq ltac:(lia))
    as (m & e2 & M0 & k & up & Hround & Hval & Hk & HM0 & Hcase).
  exists m, e2. split; [exact Hround|]. rewrite Hval.
  replace (- (d1 - d2 - 53)) with s in Hcase by (subst s; lia).
  destruct Hcase as [(-> & -> & Hup) | (-> & c & Hc & Hc01 & Hup)].
  - destruct up.
    + apply round_up_same_floor; [lia|lia|lia|reflexivity|lia|].
      pose proof (new_location_half b r ltac:(lia) Hr (Hup eq_refl)).
      rewrite Z.pow_add_r, Z.pow_1_r by lia. nia.
    + rewrite Z.add_0_r. apply floor_of_scaled; lia.
  - assert (s = Z.succ (s - 1)) as Hs1 by lia.
    assert (0 < 2 ^ (s - 1)) as HS1 by (apply Z.pow_pos_nonneg; lia).
    assert (2 ^ s = 2 * 2 ^ (s - 1)) as Hpow.
    { rewrite Hs1 at 1. rewrite Z.pow_succ_r by lia. done. }
    assert (M0 = a * 2 ^ (s - 1) / b) as HM.
    { assert (2 * (a * 2 ^ (s - 1)) = 2 * (b * M0) + (c * b + r)) as E by nia.
      assert ((c * b + r) mod 2 = 0) as Hev.
      { replace (c * b + r) with ((a * 2 ^ (s - 1) - b * M0) * 2) by lia.
        apply Z.mod_mul. lia. }
      pose proof (Z.div_mod (c * b + r) 2 ltac:(lia)) as Hhalf.
      apply Z.div_unique with (r := (c * b + r) / 2); [|lia].
      left. split; [apply Z.div_pos; nia|].
      apply Z.div_lt_upper_bound; nia. }
    destruct up.
    + apply round_up_same_floor; [lia|lia|lia|exact HM|lia|].
      replace (s - 1 + 1) with s by lia.
      assert (c = 1) by auto. nia.
    + rewrite Z.add_0_r, HM. apply floor_of_scaled; lia.
Qed.

Lemma truediv_floor a b :
  0 <= a < 2 ^ 53 -> 0 < b < 2 ^ 53 ->
  (py_truediv a b ≫= py_int) = Ok (a / b).
Proof.
  intros Ha Hb. unfold py_truediv.
  replace (b =? 0) with false by lia.
  destruct b as [|pb|pb]; try lia. destruct a as [|pa|pa]; try lia.
  - reflexivity.
  - destruct (div_int_float pa pb) as (m & e & Hd & Hv); [lia|lia|].
    unfold int_float. rewrite Hd. simpl. by rewrite Hv.
Qed.

Lemma split_num_floor count ratio total_ratio :
  0 <= ratio -> 0 < total_ratio < 2 ^ 53 -> Z.of_nat count * ratio < 2 ^ 53 ->
  split_num count ratio total_ratio = Ok (Z.of_nat count * ratio / total_ratio).
Proof.
  intros Hr Ht Hc. unfold split_num. apply truediv_floor; [|done]. lia.
Qed.

(** ** The number of impulses

    [int(len(y) * 0.001)] is the integer quotient [len(y) / 1000] for
    every length below [2^50]: the literal [0.001] lies above one
    thousandth by less than [2^-55], and neither this excess nor the
    rounding of the product carries the product over the next integer. *)

Lemma shr_1_m mrs : 0 <= shr_m mrs -> shr_m (shr_1 mrs) = shr_m mrs / 2.
Proof.
  destruct mrs as [m r s]. simpl. intros Hm. rewrite <- Z.div2_div.
  destruct m as [|[p|p|]|p]; try lia; reflexivity.
Qed.

Lemma iter_shr_1_m p : forall mrs,
  0 <= shr_m mrs ->
  0 <= shr_m (SpecFloat.iter_pos shr_1 p mrs) /\
  shr_m (SpecFloat.iter_pos shr_1 p mrs) = shr_m mrs / 2 ^ Zpos p.
Proof.
  induction p as [p IH|p IH|]; intros mrs Hm; simpl SpecFloat.iter_pos.
  - assert (0 <= shr_m (shr_1 mrs)) as H1.
    { rewrite shr_1_m by done. apply Z.div_pos; lia. }
    destruct (IH _ H1) as [H2 E2]. destruct (IH _ H2) as [H3 E3].
    split; [done|]. rewrite E3, E2, shr_1_m by done.
    assert (0 < 2 ^ Zpos p) by (apply Z.pow_pos_nonneg; lia).
    rewrite !Z.div_div by lia. f_equal.
    change (Zpos p~1) with (2 * Zpos p + 1). replace (2 * Zpos p + 1) with (Zpos p + Zpos p + 1) by lia.
    rewrite !Z.pow_add_r, Z.pow_1_r by lia. lia.
  - destruct (IH _ Hm) as [H2 E2]. destruct (IH _ H2) as [H3 E3].
    split; [done|]. rewrite E3, E2.
    assert (0 < 2 ^ Zpos p) by (apply Z.pow_pos_nonneg; lia).
    rewrite Z.div_div by lia. f_equal.
    change (Zpos p~0) with (2 * Zpos p). replace (2 * Zpos p) with (Zpos p + Zpos p) by lia.
    rewrite Z.pow_add_r by lia. lia.
  - rewrite shr_1_m by done. split; [apply Z.div_pos; lia | done].
Qed.

Lemma shr_fexp_cut m e l n :
  0 <= m -> Zdigits2 m = 53 + Zpos n -> -1074 <= e ->
  (shr_fexp prec emax m e l).2 = e + Zpos n /\
  shr_m (shr_fexp prec emax m e l).1 = m / 2 ^ Zpos n.
Proof.
  intros Hm Hd He. unfold shr_fexp, fexp, emin. rewrite Hd.
  replace (Z.max (53 + Zpos n + e - prec) (3 - emax - prec) - e) with (Zpos n)
    by (unfold prec, emax; lia).
  simpl. split; [done|].
  destruct (iter_shr_1_m n (shr_record_of_loc m l)) as [_ E].
  { by rewrite shr_m_of_loc. }
  by rewrite E, shr_m_of_loc.
Qed.

Lemma round_between m l :
  m <= round_nearest_even m l <= m + 1.
Proof. destruct (round_choice m l) as [->|[-> _]]; lia. Qed.

(** Rounding a mantissa of more than 53 bits: the result, read as an
    integer, lies between the integer parts of the two neighbours. *)
Lemma round_aux_cut M e n :
  0 < M -> Zdigits2 M = 53 + Zpos n -> -1000 <= e -> e + Zpos n <= 0 ->
  exists m e2 m1,
    binary_round_aux prec emax false M e loc_Exact = S754_finite false m e2 /\
    Z.shiftl (Zpos m) e2 = m1 / 2 ^ (- (e + Zpos n)) /\
    M / 2 ^ Zpos n <= m1 <= M / 2 ^ Zpos n + 1.
Proof.
  intros HM Hd He Hen. unfold binary_round_aux.
  destruct (shr_fexp_cut M e loc_Exact n ltac:(lia) Hd ltac:(lia)) as [E2 Em].
  destruct (shr_fexp prec emax M e loc_Exact) as [mrs e'] eqn:Es. simpl in E2, Em.
  subst e'.
  pose proof (round_between (shr_m mrs) (loc_of_shr_record mrs)) as Hb.
  set (m1 := round_nearest_even (shr_m mrs) (loc_of_shr_record mrs)) in *.
  assert (2 ^ 52 <= M / 2 ^ Zpos n < 2 ^ 53) as HM0.
  { destruct (Zdigits2_bounds M HM) as [[Hlo Hhi] _]. rewrite Hd in Hlo, Hhi.
    assert (0 < 2 ^ Zpos n) by (apply Z.pow_pos_nonneg; lia).
    replace (53 + Zpos n - 1) with (52 + Zpos n) in Hlo by lia.
    rewrite Z.pow_add_r in Hlo, Hhi by lia.
    split; [apply Z.div_le_lower_bound; lia | apply Z.div_lt_upper_bound; lia]. }
  destruct (round_finish m1 (e + Zpos n)) as (m & e2 & Hfin & Hv); [lia|lia|].
  exists m, e2, m1. rewrite Hfin. split; [done|]. split; [done|]. lia.
Qed.

Lemma round_finish_exact m e :
  2 ^ 52 <= Zpos m < 2 ^ 53 -> -1000 <= e <= 0 ->
  binary_round_aux prec emax false (Zpos m) e loc_Exact = S754_finite false m e.
Proof.
  intros Hm He. unfold binary_round_aux.
  assert (Zdigits2 (Zpos m) = 53) as Hd by (apply Zdigits2_unique; change (53 - 1) with 52; lia).
  rewrite shr_fexp_keep by (done || lia). simpl shr_m. simpl loc_of_shr_record.
  simpl round_nearest_even. rewrite shr_fexp_keep by (done || lia). simpl shr_m.
  by replace (e <=? emax - prec) with true by (unfold emax, prec; lia).
Qed.

(** [float(n)] for a positive integer below [2^53] is exact: its
    mantissa is [n] shifted to 53 bits. *)
Lemma of_Z_exact n :
  0 < n < 2 ^ 53 ->
  exists m, of_Z n = S754_finite false m (Zdigits2 n - 53) /\
            Zpos m = n * 2 ^ (53 - Zdigits2 n) /\
            2 ^ 52 <= Zpos m < 2 ^ 53.
Proof.
  intros Hn. destruct n as [|p|p]; try lia.
  destruct (Zdigits2_bounds (Zpos p) ltac:(lia)) as [[Hlo Hhi] Hd1].
  set (d := Zdigits2 (Zpos p)) in *.
  assert (d <= 53) as Hd.
  { destruct (Z_le_gt_dec d 53); [done|].
    assert (2 ^ 53 <= 2 ^ (d - 1)) by (apply Z.pow_le_mono_r; lia). lia. }
  unfold of_Z, binary_normalize, binary_round, shl_align.
  change (Zpos (digits2_pos p)) with d.
  replace (fexp prec emax (d + 0)) with (d - 53) by (unfold fexp, emin, prec, emax; lia).
  assert (2 ^ 52 <= Zpos p * 2 ^ (53 - d) < 2 ^ 53) as Hb.
  { assert (2 ^ (d - 1) * 2 ^ (53 - d) = 2 ^ 52) as E1.
    { rewrite <- Z.pow_add_r by lia. f_equal. lia. }
    assert (2 ^ d * 2 ^ (53 - d) = 2 ^ 53) as E2.
    { rewrite <- Z.pow_add_r by lia. f_equal. lia. }
    assert (0 < 2 ^ (53 - d)) by (apply Z.pow_pos_nonneg; lia). nia. }
  destruct (d - 53 - 0) as [|q|q] eqn:Eq; try lia.
  - assert (d = 53) as Hd53 by lia. rewrite Hd53 in *.
    change (2 ^ (53 - 53)) with 1 in Hb. rewrite Z.mul_1_r in Hb.
    exists p. rewrite round_finish_exact by lia.
    split; [done|]. split; [|done]. change (2 ^ (53 - 53)) with 1. lia.
  - assert (Zpos (Pos.iter xO p q) = Zpos p * 2 ^ (53 - d)) as Em.
    { change (Pos.iter xO p q) with (shift_pos q p). rewrite shift_pos_correct.
      change (Z.pow_pos 2 q) with (2 ^ Zpos q). replace (53 - d) with (Zpos q) by lia. lia. }
    exists (Pos.iter xO p q). rewrite round_finish_exact by lia.
    split; [reflexivity|]. split; [exact Em | rewrite Em; exact Hb].
Qed.

Lemma thousandth : ratio 1 1000 = S754_finite false thousandth_mantissa (-62).
Proof. vm_compute. reflexivity. Qed.

Lemma num_impulses_floor y :
  Z.of_nat (length y) < 2 ^ 50 ->
  num_impulses y = Ok (Z.of_nat (length y) / 1000).
Proof.
  unfold num_impulses. set (L := Z.of_nat (length y)). intros HL.
  assert (0 <= L) as HL0 by (subst L; lia).
  destruct (Z.eq_dec L 0) as [->|HLne]; [reflexivity|].
  destruct (of_Z_exact L) as (mL & EL & EmL & HmL).
  { change (2 ^ 53) with (2 ^ 50 * 8). lia. }
  destruct (Zdigits2_bounds L ltac:(lia)) as [[Hlo Hhi] Hd1].
  set (d := Zdigits2 L) in *.
  assert (d <= 50) as Hd.
  { destruct (Z_le_gt_dec d 50); [done|].
    assert (2 ^ 50 <= 2 ^ (d - 1)) by (apply Z.pow_le_mono_r; lia). lia. }
  unfold py_float. rewrite EL, bind_Ok_l, thousandth.
  unfold mul, SFmul. simpl xorb.
  set (c := Zpos thousandth_mantissa) in *.
  assert (Zpos (mL * thousandth_mantissa) = Zpos mL * c) as EM by apply Pos2Z.inj_mul.
  set (M := Zpos (mL * thousandth_mantissa)) in *.
  assert (2 ^ 104 <= M < 2 ^ 106) as HM.
  { rewrite EM. subst c. change (2 ^ 104) with (2 ^ 52 * 2 ^ 52).
    change (2 ^ 106) with (2 ^ 53 * 2 ^ 53). unfold thousandth_mantissa.
    change (2 ^ 52) with 4503599627370496 in *.
    change (2 ^ 53) with 9007199254740992 in *. nia. }
  assert (exists n, Zdigits2 M = 53 + Zpos n /\ 52 <= Zpos n <= 53) as (n & Hn & Hn').
  { destruct (Z_lt_le_dec M (2 ^ 105)).
    - exists 52%positive. split; [|lia]. apply Zdigits2_unique; [lia|].
      change (53 + 52 - 1) with 104. change (53 + 52) with 105. lia.
    - exists 53%positive. split; [|lia]. apply Zdigits2_unique; [lia|].
      change (53 + 53 - 1) with 105. change (53 + 53) with 106. lia. }
  destruct (round_aux_cut M (d - 53 + -62) n) as (m & e2 & m1 & Hr & Hv & Hm1);
    [lia|done|lia|lia|].
  rewrite Hr. simpl. rewrite Hv. f_equal.
  set (k := - (d - 53 + -62 + Zpos n)) in *.
  assert (0 < k) as Hk by (subst k; lia).
  assert (0 < 2 ^ k) as HK by (apply Z.pow_pos_nonneg; lia).
  assert (0 < 2 ^ Zpos n) as HN by (apply Z.pow_pos_nonneg; lia).
  assert (0 < 2 ^ (53 - d)) as HD by (apply Z.pow_pos_nonneg; lia).
  assert (2 ^ Zpos n * 2 ^ k = 2 ^ (53 - d) * 2 ^ 62) as Epow.
  { rewrite <- !Z.pow_add_r by lia. f_equal. subst k. lia. }
  assert (M = L * c * 2 ^ (53 - d)) as EM' by lia.
  assert (1000 * c = 2 ^ 62 + 96) as Ec by reflexivity.
  set (Q := L / 1000).
  pose proof (Z.div_mod L 1000 ltac:(lia)) as EQ. fold Q in EQ.
  pose proof (Z.mod_pos_bound L 1000 ltac:(lia)) as RQ.
  set (M0 := M / 2 ^ Zpos n) in *.
  pose proof (Z.div_mod M (2 ^ Zpos n) ltac:(lia)) as EM0. fold M0 in EM0.
  pose proof (Z.mod_pos_bound M (2 ^ Zpos n) HN) as RM0.
  assert (2 ^ Zpos n <= 2 ^ 53) as HN53 by (apply Z.pow_le_mono_r; lia).
  assert (2 ^ 53 = 2 ^ (53 - d) * 2 ^ d) as E53.
  { rewrite <- Z.pow_add_r by lia. f_equal. lia. }
  assert (2 ^ d <= 2 * L) as HdL.
  { replace d with (Z.succ (d - 1)) by lia. rewrite Z.pow_succ_r by lia. lia. }
  symmetry. apply Z.div_unique with (r := m1 - 2 ^ k * Q); [|lia].
  left.
  assert (Q * 2 ^ k <= M0) as Hlow.
  { apply Z.div_le_lower_bound; [lia|].
    assert (Q * (2 ^ Zpos n * 2 ^ k) <= M); [|nia].
    rewrite Epow, EM'.
    assert (Q * 2 ^ 62 <= L * c); [|nia]. nia. }
  assert (M0 + 1 < (Q + 1) * 2 ^ k) as Hhigh.
  { assert (2 ^ Zpos n * (M0 + 1) < 2 ^ Zpos n * ((Q + 1) * 2 ^ k)); [|nia].
    assert (M + 2 ^ Zpos n < (Q + 1) * (2 ^ Zpos n * 2 ^ k)); [|nia].
    rewrite Epow, EM'.
    assert (L * c + 2 * L < (Q + 1) * 2 ^ 62) as Hcore.
    { assert (1000 * (L * c + 2 * L) < 1000 * ((Q + 1) * 2 ^ 62)); [|lia].
      replace (1000 * (L * c + 2 * L)) with (L * (1000 * c) + 2000 * L) by lia.
      rewrite Ec. change (2 ^ 62) with 4611686018427387904.
      change (2 ^ 50) with 1125899906842624 in HL. nia. }
    assert (2 ^ Zpos n <= 2 ^ (53 - d) * (2 * L)) by nia. nia. }
  lia.
Qed.

(** ** All-zero noise *)

Lemma fold_maximum_zeros l :
  Forall (fun x => is_zero x = true) l ->
  fold_left np_maximum (map abs l) zero = zero.
Proof.
  induction 1 as [|x l Hx _ IH]; simpl; [done|].
  destruct x; try discriminate. exact IH.
Qed.

Lemma np_max_zeros n :
  n <> [] -> Forall (fun x => is_zero x = true) n -> np_max (map abs n) = Ok zero.
Proof.
  intros Hne Hz. destruct Hz as [|x l Hx Hl]; [done|]. simpl.
  destruct x; try discriminate. simpl. f_equal. by apply fold_maximum_zeros.
Qed.

Lemma normalize_zeros n :
  n <> [] -> Forall (fun x => is_zero x = true) n ->
  normalize n = Ok (replicate (length n) nan).
Proof.
  intros Hne Hz. unfold normalize. rewrite (np_max_zeros n Hne Hz). simpl.
  f_equal. clear Hne. induction Hz as [|x l Hx _ IH]; simpl; [done|].
  rewrite IH. by destruct x.
Qed.

Lemma scale_nans noise_level k :
  map (mul noise_level) (replicate k nan) = replicate k nan.
Proof. induction k as [|k IH]; simpl; [done|]. rewrite IH. by destruct noise_level. Qed.

Lemma add_nans y : zip_with add y (replicate (length y) nan) = replicate (length y) nan.
Proof. induction y as [|x y IH]; simpl; [done|]. rewrite IH. by destruct x. Qed.

Lemma clip_nans k : np_clip (replicate k nan) minus_one one = replicate k nan.
Proof. unfold np_clip. induction k as [|k IH]; simpl; [done|]. by rewrite IH. Qed.

(** Normalising an all-zero noise raises nothing: it divides zero by
    zero, and every sample of the result is NaN. *)
Lemma overlay_zeros y noise_level n :
  n <> [] -> Forall (fun x => is_zero x = true) n -> length n = length y ->
  overlay y noise_level n = Ok (replicate (length y) nan).
Proof.
  intros Hne Hz Hlen. unfold overlay. rewrite (normalize_zeros n Hne Hz). simpl.
  rewrite scale_nans, Hlen. unfold broadcast.
  rewrite length_replicate, Nat.eqb_refl. simpl.
  by rewrite add_nans, clip_nans.
Qed.

(** [int(len(y) * 0.001)] is 0 below a thousand samples. *)
Lemma num_impulses_short y : (length y < 1000)%nat -> num_impulses y = Ok 0.
Proof.
  intros Hn. rewrite num_impulses_floor.
  - f_equal. apply Z.div_small. lia.
  - change (2 ^ 50) with 1125899906842624. lia.
Qed.

Section ImpulseFacts.
Context {R : NumpyRandom} {F : NumpyFFT}.
Hypothesis HR : random_contract R.

(** With no impulse to place, the impulse noise stays all-zero. *)
Lemma impulse_noise_short y sr st :
  (length y < 1000)%nat -> noise "impulse" y sr st = Ok (repeat zero (length y)).
Proof.
  destruct HR as (Hnorm & Hint & _). intros Hlen. unfold noise. set (five := of_Z 5). simpl.
  rewrite (num_impulses_short y Hlen). unfold mbind, result_bind.
  change (Z.to_nat 0) with O.
  pose proof (Hint 0 (Z.of_nat (length y)) O st) as Hp.
  destruct (np_randint 0 (Z.of_nat (length y)) 0 st) as [pos st1]. simpl in Hp.
  pose proof (Hnorm zero five O st1) as Ha.
  destruct (np_normal zero five 0 st1) as [amps st2]. simpl in Ha.
  destruct pos; [|discriminate]. destruct amps; [|discriminate]. reflexivity.
Qed.

Lemma noisy_y_short_impulse y sr noise_level seed :
  y <> [] -> (length y < 1000)%nat -> 0 <= seed < 2 ^ 32 ->
  noisy_y y sr "impulse" noise_level seed = Ok (replicate (length y) nan, sr).
Proof.
  intros Hne Hlen Hseed. unfold noisy_y, np_random_seed.
  replace ((0 <=? seed) && (seed <? 2 ^ 32)) with true by lia.
  rewrite bind_Ok_l, impulse_noise_short, bind_Ok_l by done.
  rewrite overlay_zeros; [done| | |].
  - by destruct y.
  - apply Forall_forall. intros x Hx. apply list_elem_of_In, repeat_spec in Hx. by subst.
  - apply repeat_length.
Qed.

End ImpulseFacts.

(** ** Indexed assignment *)

Lemma written_default ivs j : forall v,
  written ivs j (Some v) = Some (default v (last_write ivs j)).
Proof.
  unfold last_write, written.
  induction ivs as [|iv ivs IH] using rev_ind; intros v; [done|].
  rewrite !fold_left_app. simpl. case_bool_decide; [done|]. apply IH.
Qed.

Lemma setitem_pairs_written ivs : forall a,
  Forall (fun iv => 0 <= iv.1 < Z.of_nat (length a)) ivs ->
  exists a', setitem_pairs a ivs = Ok a' /\
             forall j, a' !! j = written ivs j (a !! j).
Proof.
  induction ivs as [|[i v] ivs IH]; intros a Hr; simpl.
  - by exists a.
  - apply Forall_cons in Hr as [Hi Hr]. simpl in Hi.
    unfold setitem1. replace ((0 <=? i) && (i <? Z.of_nat (length a))) with true by lia.
    rewrite bind_Ok_l.
    destruct (IH (<[Z.to_nat i := v]> a)) as (a' & Ha' & Hw).
    { by rewrite length_insert. }
    exists a'. split; [done|]. intros j. rewrite Hw. f_equal.
    case_bool_decide as E.
    + subst j. apply list_lookup_insert_eq. lia.
    + by apply list_lookup_insert_ne.
Qed.

Lemma count_nonzero_insert a : forall i v,
  (count_nonzero (<[i := v]> a) <= S (count_nonzero a))%nat.
Proof.
  unfold count_nonzero.
  induction a as [|x a IH]; intros [|i] v; simpl; try lia.
  - destruct (negb (is_zero v)), (negb (is_zero x)); simpl; lia.
  - specialize (IH i v). destruct (negb (is_zero x)); simpl; lia.
Qed.

Lemma setitem_pairs_count ivs : forall a a',
  setitem_pairs a ivs = Ok a' ->
  (count_nonzero a' <= length ivs + count_nonzero a)%nat.
Proof.
  induction ivs as [|[i v] ivs IH]; simpl; intros a a' H.
  - injection H as <-. lia.
  - apply bind_Ok in H as (a1 & Ha1 & H). apply IH in H.
    assert (count_nonzero a1 <= S (count_nonzero a))%nat; [|lia].
    unfold setitem1 in Ha1.
    repeat case_match; try discriminate; injection Ha1 as <-;
      apply count_nonzero_insert.
Qed.

Lemma count_nonzero_zeros k : count_nonzero (repeat zero k) = O.
Proof. induction k; [done|]. exact IHk. Qed.

Lemma lookup_repeat {A} (x : A) k : forall j, (j < k)%nat -> repeat x k !! j = Some x.
Proof.
  induction k as [|k IH]; intros [|j] Hj; simpl; try lia; [done|].
  apply IH. lia.
Qed.

Lemma num_impulses_nil : num_impulses [] = Ok 0.
Proof. reflexivity. Qed.

Section ImpulseShape.
Context {R : NumpyRandom} {F : NumpyFFT}.
Hypothesis HR : random_contract R.

Lemma impulse_noise_written y sr st k :
  num_impulses y = Ok k ->
  let L := length y in
  let positions := (np_randint 0 (Z.of_nat L) (Z.to_nat k) st).1 in
  let st1 := (np_randint 0 (Z.of_nat L) (Z.to_nat k) st).2 in
  let amplitudes := (np_normal zero (of_Z 5) (Z.to_nat k) st1).1 in
  length positions = Z.to_nat k /\
  length amplitudes = Z.to_nat k /\
  Forall (fun p => 0 <= p < Z.of_nat L) positions /\
  exists n, noise "impulse" y sr st = Ok n /\
            length n = L /\
            (forall j, (j < L)%nat ->
               n !! j = Some (default zero (last_write (zip positions amplitudes) j))) /\
            (count_nonzero n <= Z.to_nat k)%nat.
Proof.
  destruct HR as (Hnorm & Hint & Hrange). intros Hk L positions st1 amplitudes.
  assert (length positions = Z.to_nat k) as Hp by apply Hint.
  assert (length amplitudes = Z.to_nat k) as Ha by apply Hnorm.
  assert (Forall (fun p => 0 <= p < Z.of_nat L) positions) as Hin.
  { destruct (decide (L = O)) as [HL|HL].
    - assert (y = []) as -> by (by apply nil_length_inv).
      rewrite num_impulses_nil in Hk. injection Hk as <-.
      destruct positions; [constructor | discriminate].
    - apply Forall_forall. intros p Hpin. apply (Hrange 0 (Z.of_nat L) (Z.to_nat k) st); [lia|done]. }
  do 3 (split; [done|]).
  unfold noise. set (five := of_Z 5) in *. simpl. rewrite Hk, bind_Ok_l.
  fold L. fold positions st1.
  destruct (np_randint 0 (Z.of_nat L) (Z.to_nat k) st) as [pos s1] eqn:E1.
  simpl in positions, st1. subst positions st1.
  change (np_normal zero five (Z.to_nat k) s1).1 with amplitudes.
  destruct (np_normal zero five (Z.to_nat k) s1) as [amps s2] eqn:E2.
  simpl in amplitudes. subst amplitudes.
  unfold setitem, broadcast_to. rewrite Hp, Ha, Nat.eqb_refl, bind_Ok_l.
  destruct (setitem_pairs_written (zip_with pair pos amps) (repeat zero L))
    as (n & Hn & Hw).
  { rewrite repeat_length. apply Forall_forall. intros [i v] Hiv. simpl.
    apply elem_of_zip_l in Hiv. revert i Hiv. by apply Forall_forall. }
  exists n. split; [done|].
  split; [apply setitem_pairs_length in Hn; by rewrite Hn, repeat_length|].
  split.
  - intros j Hj. rewrite Hw.
    replace (repeat zero L !! j) with (Some zero); [apply written_default|].
    symmetry. by apply lookup_repeat.
  - apply setitem_pairs_count in Hn. rewrite count_nonzero_zeros in Hn.
    rewrite length_zip_with in Hn. lia.
Qed.

End ImpulseShape.

(** ** Finite noise

    Rounding never makes a NaN: a quotient by a non-zero finite number,
    a product with a finite number and a sum with a finite number are
    NaN only if an operand is.  So the clipped result has no NaN when
    the waveform, the level and the noise are finite and the noise has a
    non-zero element. *)

Lemma shr_nonneg mrs e n : 0 <= shr_m mrs -> 0 <= shr_m (shr mrs e n).1.
Proof.
  intros Hm. destruct n as [|p|p]; simpl; try done.
  by destruct (iter_shr_1_m p mrs Hm).
Qed.

Lemma round_aux_not_nan sx mx ex lx :
  0 <= mx -> is_nan (binary_round_aux prec emax sx mx ex lx) = false.
Proof.
  intros Hm. unfold binary_round_aux, shr_fexp.
  pose proof (shr_nonneg (shr_record_of_loc mx lx) ex
                (fexp prec emax (Zdigits2 mx + ex) - ex)) as H1.
  rewrite shr_m_of_loc in H1. specialize (H1 Hm).
  destruct (shr (shr_record_of_loc mx lx) ex _) as [mrs e1]. simpl in H1.
  pose proof (round_between (shr_m mrs) (loc_of_shr_record mrs)) as Hb.
  set (m1 := round_nearest_even (shr_m mrs) (loc_of_shr_record mrs)) in *.
  pose proof (shr_nonneg (shr_record_of_loc m1 loc_Exact) e1
                (fexp prec emax (Zdigits2 m1 + e1) - e1)) as H2.
  rewrite shr_m_of_loc in H2. specialize (H2 ltac:(lia)).
  destruct (shr (shr_record_of_loc m1 loc_Exact) e1 _) as [mrs2 e2]. simpl in H2.
  destruct (shr_m mrs2) as [|p|p]; [done| |lia].
  by destruct (e2 <=? emax - prec).
Qed.

Lemma div_not_nan x s m e :
  is_finite x = true -> is_nan (div x (S754_finite s m e)) = false.
Proof.
  destruct x as [sx| | |sx mx ex]; try discriminate; intros _; [done|].
  unfold div, SFdiv, SFdiv_core_binary. cbv zeta.
  set (m' := match _ with Zpos _ => _ | _ => _ end).
  assert (0 <= m') as Hm'.
  { subst m'. destruct (ex - e - _) eqn:E; try lia. apply Z.shiftl_nonneg. lia. }
  pose proof (Z_div_mod m' (Zpos m) ltac:(lia)) as Hd.
  destruct (Z.div_eucl m' (Zpos m)) as [q r]. destruct Hd as [Hd Hr].
  apply round_aux_not_nan. nia.
Qed.

Lemma mul_not_nan s m e z :
  is_nan z = false -> is_nan (mul (S754_finite s m e) z) = false.
Proof.
  destruct z as [sz|sz| |sz mz ez]; try discriminate; intros _; try done.
  unfold mul, SFmul. apply round_aux_not_nan. lia.
Qed.

Lemma binary_normalize_not_nan m e : is_nan (binary_normalize prec emax m e false) = false.
Proof.
  destruct m as [|p|p]; [done| |];
    unfold binary_normalize, binary_round;
    destruct (shl_align _ _ _) as [mz ez]; apply round_aux_not_nan; lia.
Qed.

Lemma add_not_nan x w :
  is_finite x = true -> is_nan w = false -> is_nan (add x w) = false.
Proof.
  destruct x as [sx| | |sx mx ex]; try discriminate; intros _;
    destruct w as [sw|sw| |sw mw ew]; try discriminate; intros _; try done.
  - by destruct sx, sw.
  - unfold add, SFadd. apply binary_normalize_not_nan.
Qed.

Lemma fold_maximum_positive l : forall acc,
  Forall (fun x => is_finite x = true) l ->
  is_positive_finite acc = true ->
  is_positive_finite (fold_left np_maximum (map abs l) acc) = true.
Proof.
  induction l as [|x l IH]; intros acc Hl Hacc; simpl; [done|].
  apply Forall_cons in Hl as [Hx Hl]. apply IH; [done|].
  destruct acc as [| | |[] ma ea]; try discriminate.
  destruct x as [sx| | |sx mx ex]; try discriminate; unfold np_maximum; simpl.
  - done.
  - by destruct (geb _ _).
Qed.

Lemma fold_maximum_finite l : forall acc,
  Forall (fun x => is_finite x = true) l ->
  acc = zero ->
  Exists (fun x => is_zero x = false) l ->
  is_positive_finite (fold_left np_maximum (map abs l) acc) = true.
Proof.
  induction l as [|x l IH]; intros acc Hl -> Hex; simpl.
  - by apply Exists_nil in Hex.
  - apply Forall_cons in Hl as [Hx Hl].
    destruct x as [sx| | |sx mx ex]; try discriminate.
    + apply IH; [done|done|]. apply Exists_cons in Hex as [Hex|Hex]; done.
    + apply fold_maximum_positive; done.
Qed.

Lemma np_max_finite n m :
  Forall (fun x => is_finite x = true) n ->
  Exists (fun x => is_zero x = false) n ->
  np_max (map abs n) = Ok m -> is_positive_finite m = true.
Proof.
  intros Hl Hex. destruct n as [|x n]; [discriminate|]. simpl. intros [= <-].
  apply Forall_cons in Hl as [Hx Hl].
  destruct x as [sx| | |sx mx ex]; try discriminate.
  - apply fold_maximum_finite; [done|done|].
    apply Exists_cons in Hex as [Hex|Hex]; done.
  - apply fold_maximum_positive; done.
Qed.

Lemma broadcast_elements {A B C} (f : A -> B -> C) a b c :
  broadcast f a b = Ok c ->
  Forall (fun z => exists x w, x ∈ a /\ w ∈ b /\ z = f x w) c.
Proof.
  unfold broadcast. intros H.
  assert (forall a' b', Forall (fun z => exists x w, x ∈ a' /\ w ∈ b' /\ z = f x w)
                               (zip_with f a' b')) as Hzip.
  { induction a' as [|x a' IH]; intros [|w b']; simpl; try constructor.
    - exists x, w. split; [left|]. split; [left|done].
    - eapply Forall_impl; [apply IH|]. intros z (x' & w' & Hx' & Hw' & ->).
      exists x', w'. split; [by right|]. split; [by right|done]. }
  destruct (length a =? length b)%nat.
  { injection H as <-. apply Hzip. }
  assert (forall y, Forall (fun z => exists x w, x ∈ a /\ w ∈ [y] /\ z = f x w)
                           (map (fun x => f x y) a)) as Hr.
  { intros y. apply List.Forall_map, Forall_forall. intros x Hx.
    exists x, y. split; [done|]. split; [left|done]. }
  assert (forall x, Forall (fun z => exists x' w, x' ∈ [x] /\ w ∈ b /\ z = f x' w)
                           (map (f x) b)) as Hl.
  { intros x. apply List.Forall_map, Forall_forall. intros w Hw.
    exists x, w. split; [left|]. split; done. }
  destruct a as [|x [|x' a]], b as [|y [|y' b]]; try discriminate;
    injection H as <-; first [apply Hr | apply Hl].
Qed.

Lemma overlay_finite_within y noise_level n out :
  Forall (fun x => is_finite x = true) y ->
  is_finite noise_level = true -> is_zero noise_level = false ->
  Forall (fun x => is_finite x = true) n ->
  Exists (fun x => is_zero x = false) n ->
  overlay y noise_level n = Ok out ->
  Forall (fun x => within minus_one one x = true) out.
Proof.
  intros Hy Hl Hl0 Hn Hex. unfold overlay, normalize. intros H.
  apply bind_Ok in H as (n' & Hn' & H). apply bind_Ok in H as (s & Hs & H).
  injection H as <-.
  apply bind_Ok in Hn' as (m & Hm & Hn'). injection Hn' as <-.
  apply (np_max_finite n m Hn Hex) in Hm.
  destruct m as [| | |[] mm me]; try discriminate.
  destruct noise_level as [| | |sl ml el]; try discriminate.
  apply broadcast_elements in Hs.
  unfold np_clip. apply List.Forall_map.
  eapply Forall_impl; [exact Hs|]. intros z (x & w & Hx & Hw & ->). simpl.
  apply np_clip1_within, add_not_nan.
  - revert x Hx. by apply Forall_forall.
  - apply list_elem_of_In, in_map_iff in Hw as (v & <- & Hv).
    apply mul_not_nan.
    apply in_map_iff in Hv as (u & <- & Hu).
    apply div_not_nan. apply list_elem_of_In in Hu. revert u Hu. by apply Forall_forall.
Qed.

(** ** When a waveform is returned *)

Section ReturnFacts.
Context {R : NumpyRandom} {F : NumpyFFT}.
Hypothesis HR : random_contract R.
Hypothesis HF : fft_contract F.

Lemma overlay_same_length y noise_level n :
  n <> [] -> length n = length y ->
  exists out, overlay y noise_level n = Ok out.
Proof.
  intros Hne Hlen. unfold overlay, normalize.
  destruct (np_max (map abs n)) as [m|e] eqn:Em; [|by destruct n].
  rewrite !bind_Ok_l.
  unfold broadcast. rewrite !length_map, Hlen, Nat.eqb_refl.
  eexists. reflexivity.
Qed.

Lemma noisy_y_white_returns y sr noise_level seed :
  y <> [] -> 0 <= seed < 2 ^ 32 ->
  exists out, noisy_y y sr "white" noise_level seed = Ok (out, sr).
Proof.
  destruct HR as (Hnorm & _). intros Hy Hseed.
  destruct (overlay_same_length y noise_level
              (np_normal zero one (length y) (np_seed seed)).1) as [out Hout].
  { intros E. apply (f_equal length) in E. rewrite Hnorm in E. by destruct y. }
  { apply Hnorm. }
  exists out. unfold noisy_y, np_random_seed.
  replace ((0 <=? seed) && (seed <? 2 ^ 32)) with true by lia.
  rewrite bind_Ok_l. unfold noise. simpl String.eqb. cbv iota.
  by rewrite bind_Ok_l, Hout.
Qed.

Lemma pink_noise_length y sr st n :
  noise "pink" y sr st = Ok n -> n <> [] /\ length n = (2 * (length y / 2))%nat.
Proof.
  destruct HR as (Hnorm & _), HF as (Hr & Hi).
  unfold noise. simpl String.eqb. intros Hn.
  apply bind_Ok in Hn as (X & HX & Hn). apply bind_Ok in Hn as (d & Hd & Hn).
  apply bind_Ok in Hn as (fr & Hfr & Hn). apply bind_Ok in Hn as (X' & HX' & Hn).
  apply Hr in HX as [_ HX]. apply broadcast_to_length in HX'.
  apply Hi in Hn as [Hne Hn]. split; [done|].
  rewrite Hn, HX', HX, Hnorm. lia.
Qed.

Lemma noisy_y_pink_odd y sr noise_level seed :
  Nat.odd (length y) = true ->
  is_ok (noisy_y y sr "pink" noise_level seed) = false.
Proof.
  intros Hodd. destruct (noisy_y y sr "pink" noise_level seed) as [[out sr']|e] eqn:E;
    [exfalso|done].
  unfold noisy_y, overlay in E.
  apply bind_Ok in E as (st & _ & E). apply bind_Ok in E as (n & Hn & E).
  apply bind_Ok in E as (o & Ho & _).
  apply bind_Ok in Ho as (n' & Hn' & Ho). apply bind_Ok in Ho as (s & Hs & _).
  apply pink_noise_length in Hn as [Hne Hlen].
  apply normalize_length in Hn' as [Hlen' _].
  assert (length y = S (length n)) as Hy.
  { rewrite Hlen. destruct (Nat.odd_spec (length y)) as [Hsp _].
    destruct (Hsp Hodd) as [q Hq]. rewrite Hq.
    replace ((2 * q + 1) / 2)%nat with q; [lia|].
    apply Nat.div_unique with (r := 1%nat); lia. }
  unfold broadcast in Hs. rewrite length_map, Hlen', Hy in Hs.
  replace (S (length n) =? length n)%nat with false in Hs
    by (symmetry; apply Nat.eqb_neq; lia).
  destruct y as [|y0 [|y1 y]]; [discriminate| |].
  - simpl in Hy. destruct n; [done|discriminate].
  - destruct n' as [|a [|b n']]; simpl in Hs; try discriminate.
    simpl in Hy, Hlen'. destruct n as [|? [|? ?]]; simpl in *; lia.
Qed.

End ReturnFacts.

(** ** The batch filter *)

Section BatchFacts.
Context {R : NumpyRandom} {F : NumpyFFT}.
Variable float_str : float -> string.
Variables (input_folder output_folder : path) (noise_type : string)
          (noise_level : float) (seed : Z).

Let step := batch_step float_str input_folder output_folder noise_type noise_level seed.

(** Two loop states that differ in the skip counter only. *)
Let same_work (s1 s2 : batch_state) : Prop :=
  processed_count s1 = processed_count s2 /\ batch_fs s1 = batch_fs s2.

Lemma batch_files_filter root files : forall s1 s2,
  same_work s1 s2 ->
  same_work (fold_left (step root) files s1)
            (fold_left (step root) (List.filter selected files) s2) /\
  skipped_count (fold_left (step root) files s1) =
    (skipped_count s1 + length (List.filter (fun f => negb (selected f)) files))%nat /\
  skipped_count (fold_left (step root) (List.filter selected files) s2) =
    skipped_count s2.
Proof.
  induction files as [|f files IH]; intros s1 s2 [Hp Hfs]; simpl.
  - repeat split; [done|done|lia].
  - destruct (selected f) eqn:Hf; simpl.
    + destruct (IH (step root s1 f) (step root s2 f)) as (Hw & Hs1 & Hs2).
      { subst step. unfold batch_step. rewrite Hf, Hfs.
        destruct (add_noise_to_audio _ _ _ _ _ _) as [ok fs']. simpl.
        split; [by rewrite Hp | done]. }
      split; [done|]. rewrite Hs1, Hs2.
      subst step. unfold batch_step. rewrite Hf.
      destruct (add_noise_to_audio _ _ _ _ _ (batch_fs s1)).
      destruct (add_noise_to_audio _ _ _ _ _ (batch_fs s2)). done.
    + destruct (IH (step root s1 f) s2) as (Hw & Hs1 & Hs2).
      { subst step. unfold batch_step. by rewrite Hf. }
      split; [done|]. split; [|done]. rewrite Hs1.
      subst step. unfold batch_step. rewrite Hf. simpl. lia.
Qed.

Lemma batch_walk_filter walk : forall s1 s2,
  same_work s1 s2 ->
  let run w s := fold_left (fun s (d : path * list string) =>
                              let '(root, files) := d in fold_left (step root) files s) w s in
  same_work (run walk s1) (run (keep_selected walk) s2) /\
  skipped_count (run walk s1) = (skipped_count s1 + rejected_count walk)%nat /\
  skipped_count (run (keep_selected walk) s2) = skipped_count s2.
Proof.
  induction walk as [|[root files] walk IH]; intros s1 s2 Hw; simpl.
  - unfold rejected_count. simpl. repeat split; try apply Hw. lia.
  - destruct (batch_files_filter root files s1 s2 Hw) as (Hw' & Hs1 & Hs2).
    destruct (IH _ _ Hw') as (Hw'' & Hs1' & Hs2'). simpl in *.
    split; [done|]. split.
    + rewrite Hs1', Hs1. unfold rejected_count. simpl. lia.
    + by rewrite Hs2', Hs2.
Qed.

Lemma batch_filter walk fs :
  let full := batch_process_audio_folder float_str walk input_folder output_folder
                noise_type noise_level seed fs in
  let kept := batch_process_audio_folder float_str (keep_selected walk) input_folder
                output_folder noise_type noise_level seed fs in
  skipped_count full = rejected_count walk /\
  skipped_count kept = O /\
  processed_count full = processed_count kept /\
  batch_fs full = batch_fs kept.
Proof.
  intros full kept.
  destruct (batch_walk_filter walk (BatchState 0 0 fs) (BatchState 0 0 fs))
    as ((Hp & Hfs) & Hs1 & Hs2); [done|].
  simpl in Hs1, Hs2.
  split; [exact Hs1|]. split; [exact Hs2|]. split; [exact Hp | exact Hfs].
Qed.

End BatchFacts.

Lemma selected_prefix file :
  selected file = true ->
  (startswith file "base" = true \/ startswith file "aug" = true) /\
  existsb (endswith (lower file)) supported_formats = true.
Proof.
  unfold selected. intros H. apply andb_true_iff in H as [Ha Hp].
  apply orb_true_iff in Hp. done.
Qed.

Lemma not_selected_other file :
  startswith file "base" = false -> startswith file "aug" = false ->
  selected file = false.
Proof. unfold selected. intros -> ->. apply andb_false_r. Qed.

(** ** Scanning *)

Section ScanFacts.
Context {A : Type} (entry : path -> string -> A).
Variables positive_prefixes audio_formats : list string.

Let visit (root : path) : list A * list A -> string -> list A * list A :=
  fun '(pos, neg) file =>
  if is_audio audio_formats file then
    if is_positive positive_prefixes file
    then (pos ++ [entry root file], neg)
    else (pos, neg ++ [entry root file])
  else (pos, neg).

Let of_files (keep : path * string -> bool) (l : list (path * string)) : list A :=
  map (fun rf => entry rf.1 rf.2) (List.filter keep l).

Lemma scan_files root files : forall pos neg,
  fold_left (visit root) files (pos, neg) =
  (pos ++ of_files (positive_audio positive_prefixes audio_formats) (map (pair root) files),
   neg ++ of_files (negative_audio positive_prefixes audio_formats) (map (pair root) files)).
Proof.
  unfold of_files, positive_audio, negative_audio.
  induction files as [|f files IH]; intros pos neg; simpl.
  - by rewrite !app_nil_r.
  - destruct (is_audio audio_formats f); simpl; [|apply IH].
    destruct (is_positive positive_prefixes f); simpl; rewrite IH;
      by rewrite <- ?app_assoc.
Qed.

Lemma scan_walk walk : forall pos neg,
  fold_left (fun acc (d : path * list string) =>
               let '(root, files) := d in fold_left (visit root) files acc)
            walk (pos, neg) =
  (pos ++ of_files (positive_audio positive_prefixes audio_formats) (walk_files walk),
   neg ++ of_files (negative_audio positive_prefixes audio_formats) (walk_files walk)).
Proof.
  unfold of_files.
  induction walk as [|[root files] walk IH]; intros pos neg; simpl.
  - by rewrite !app_nil_r.
  - rewrite scan_files, IH. unfold of_files. simpl.
    by rewrite !List.filter_app, !map_app, <- !app_assoc.
Qed.

Lemma scan_spec walk :
  scan entry walk positive_prefixes audio_formats =
  (of_files (positive_audio positive_prefixes audio_formats) (walk_files walk),
   of_files (negative_audio positive_prefixes audio_formats) (walk_files walk)).
Proof. unfold scan. exact (scan_walk walk [] []). Qed.

End ScanFacts.

(** The file name a scanned path ends in. *)
Lemma scan_paths_positive walk pp af p :
  p ∈ (scan (fun root file => join root [file]) walk pp af).1 ->
  exists file, last p = Some file /\ is_audio af file = true /\ is_positive pp file = true.
Proof.
  rewrite scan_spec. simpl. intros Hp.
  apply list_elem_of_In, in_map_iff in Hp as ([root file] & <- & Hin).
  apply filter_In in Hin as [_ Hk]. unfold positive_audio in Hk.
  apply andb_true_iff in Hk as [Ha Hpos]. exists file.
  split; [|done]. unfold join. simpl. apply last_snoc.
Qed.

Lemma scan_paths_negative walk pp af p :
  p ∈ (scan (fun root file => join root [file]) walk pp af).2 ->
  exists file, last p = Some file /\ is_audio af file = true /\ is_positive pp file = false.
Proof.
  rewrite scan_spec. simpl. intros Hp.
  apply list_elem_of_In, in_map_iff in Hp as ([root file] & <- & Hin).
  apply filter_In in Hin as [_ Hk]. unfold negative_audio in Hk.
  apply andb_true_iff in Hk as [Ha Hpos]. apply negb_true_iff in Hpos. exists file.
  split; [|done]. unfold join. simpl. apply last_snoc.
Qed.

(** ** Picking positions *)

Lemma pick_length {A} (x : list A) positions :
  Forall (fun i => (i < length x)%nat) positions ->
  length (pick x positions) = length positions.
Proof.
  unfold pick. induction 1 as [|i ps Hi _ IH]; simpl; [done|].
  destruct (lookup_lt_is_Some_2 x i Hi) as [a ->]. simpl. f_equal. exact IH.
Qed.

Lemma pick_elem_of {A} (x : list A) positions a :
  a ∈ pick x positions -> exists i, i ∈ positions /\ x !! i = Some a.
Proof. unfold pick. intros H. by apply list_elem_of_omap in H. Qed.

Lemma pick_subseteq {A} (x : list A) positions : pick x positions ⊆ x.
Proof.
  intros a Ha. apply pick_elem_of in Ha as (i & _ & Hi).
  by apply list_elem_of_lookup_2 in Hi.
Qed.

Lemma pick_NoDup {A} (x : list A) positions :
  NoDup x -> NoDup positions -> NoDup (pick x positions).
Proof.
  intros Hx. unfold pick. induction 1 as [|i ps Hi _ IH]; simpl; [constructor|].
  destruct (x !! i) as [a|] eqn:E; simpl; [|done].
  constructor; [|done]. intros Ha.
  apply pick_elem_of in Ha as (i' & Hi' & E').
  assert (i = i') as -> by exact (NoDup_lookup x i i' a Hx E E'). done.
Qed.

Lemma pick_all {A} (x : list A) : pick x (seq 0 (length x)) = x.
Proof.
  unfold pick. induction x as [|a x IH] using rev_ind; [done|].
  rewrite length_app. simpl. rewrite Nat.add_1_r, seq_S, omap_app. simpl.
  rewrite lookup_app_r, Nat.sub_diag by lia. simpl.
  f_equal. rewrite <- IH at 2. apply list_omap_ext, Forall2_same_length_lookup.
  split; [done|]. intros i j1 j2 H1 H2. assert (j1 = j2) as -> by congruence.
  apply lookup_seq in H2 as [-> Hlt]. apply lookup_app_l. lia.
Qed.

Section RandomFacts.
Context {P : PyRandom}.
Hypothesis HP : py_random_contract P.

Lemma random_shuffle_Permutation {A} (x : list A) st :
  (random_shuffle x st).1 ≡ₚ x.
Proof.
  destruct HP as [Hs _]. unfold random_shuffle.
  specialize (Hs (length x) st). destruct (shuffle_order (length x) st) as [o s'].
  simpl in *. rewrite <- (pick_all x) at 2. unfold pick. by rewrite Hs.
Qed.

Lemma random_sample_spec {A} (x : list A) k st :
  (k <= length x)%nat ->
  exists positions st',
    random_sample x k st = Ok (pick x positions, st') /\
    length positions = k /\ NoDup positions /\
    Forall (fun i => (i < length x)%nat) positions.
Proof.
  destruct HP as [_ Hs]. intros Hk. unfold random_sample.
  replace (k <=? length x)%nat with true by (symmetry; by apply Nat.leb_le).
  destruct (Hs (length x) k st Hk) as (Hl & Hnd & Hr).
  destruct (sample_positions (length x) k st) as [ps s']. simpl in *.
  by exists ps, s'.
Qed.

End RandomFacts.

(** ** Slices *)

Lemma slice_bound_nonneg n i : 0 <= i -> slice_bound n i = (Z.to_nat i `min` n)%nat.
Proof. intros Hi. unfold slice_bound. replace (i <? 0) with false by lia. lia. Qed.

(** With non-negative sizes the three slices are consecutive segments:
    joined in order they give the list back. *)
Lemma split3_app {A} (x : list A) dev_num test_num :
  0 <= dev_num -> 0 <= test_num ->
  dev (split3 x dev_num test_num) ++ test (split3 x dev_num test_num)
    ++ train (split3 x dev_num test_num) = x.
Proof.
  intros Hd Ht. unfold split3, slice_to, slice, slice_from. simpl.
  rewrite !slice_bound_nonneg by lia.
  set (a := (Z.to_nat dev_num `min` length x)%nat).
  set (b := (Z.to_nat (dev_num + test_num) `min` length x)%nat).
  assert (a <= b)%nat as Hab by (subst a b; lia).
  replace (drop b x) with (drop (b - a) (drop a x)).
  - by rewrite take_drop, take_drop.
  - rewrite drop_drop. f_equal. lia.
Qed.

Lemma split3_lengths {A} (x : list A) dev_num test_num :
  0 <= dev_num -> 0 <= test_num -> dev_num + test_num <= Z.of_nat (length x) ->
  Z.of_nat (length (dev (split3 x dev_num test_num))) = dev_num /\
  Z.of_nat (length (test (split3 x dev_num test_num))) = test_num /\
  Z.of_nat (length (train (split3 x dev_num test_num)))
    = Z.of_nat (length x) - dev_num - test_num.
Proof.
  intros Hd Ht Hn. unfold split3, slice_to, slice, slice_from. simpl.
  rewrite !slice_bound_nonneg by lia.
  rewrite !length_take, !length_drop. lia.
Qed.

(** The sizes of the splits do not exceed the class when the train
    component of the ratio is not negative. *)
Lemma split_sizes_fit n d t r :
  0 <= n -> 0 <= d -> 0 <= t -> 0 <= r -> 0 < d + t + r ->
  0 <= n * d / (d + t + r) /\ 0 <= n * t / (d + t + r) /\
  n * d / (d + t + r) + n * t / (d + t + r) <= n.
Proof.
  intros Hn Hd Ht Hr HT. set (T := d + t + r) in *.
  assert (0 <= n * d / T) by (apply Z.div_pos; nia).
  assert (0 <= n * t / T) by (apply Z.div_pos; nia).
  split; [done|]. split; [done|].
  pose proof (Z.mul_div_le (n * d) T HT). pose proof (Z.mul_div_le (n * t) T HT).
  assert (T * (n * d / T + n * t / T) <= T * n) by nia.
  apply Z.mul_le_mono_pos_l with (p := T); done.
Qed.

Section SplitFacts.
Context {P : PyRandom}.

(** What [assign_splits] computes, given the four sizes. *)
Lemma assign_splits_unfold walk d t r pp af seed pd pt nd nt :
  let stems := scan (fun _ file => (splitext file).1) walk pp af in
  split_num (length stems.1) d (d + t + r) = Ok pd ->
  split_num (length stems.1) t (d + t + r) = Ok pt ->
  split_num (length stems.2) d (d + t + r) = Ok nd ->
  split_num (length stems.2) t (d + t + r) = Ok nt ->
  let shuffled_p := random_shuffle stems.1 (py_seed seed) in
  let shuffled_n := random_shuffle stems.2 shuffled_p.2 in
  exists report,
    assign_splits walk (d, t, r) pp af seed = Ok report /\
    positive_samples report = shuffled_p.1 /\
    negative_samples report = shuffled_n.1 /\
    p_num report = ClassSplit pd pt (Z.of_nat (length stems.1) - pd - pt) /\
    n_num report = ClassSplit nd nt (Z.of_nat (length stems.2) - nd - nt) /\
    p_split report = split3 shuffled_p.1 pd pt /\
    n_split report = split3 shuffled_n.1 nd nt.
Proof.
  intros stems Hpd Hpt Hnd Hnt shuffled_p shuffled_n.
  unfold assign_splits. fold stems.
  destruct stems as [pos neg] eqn:Est. simpl in *.
  rewrite Hpd, bind_Ok_l, Hpt, bind_Ok_l, Hnd, bind_Ok_l, Hnt, bind_Ok_l.
  subst shuffled_n shuffled_p.
  destruct (random_shuffle pos (py_seed seed)) as [ps st1]. simpl.
  destruct (random_shuffle neg st1) as [ns st2]. simpl.
  eexists. split; [reflexivity|]. simpl. done.
Qed.

(** A size that cannot be computed stops the function before anything is
    shuffled. *)
Lemma assign_splits_sizes walk ratio pp af seed report :
  assign_splits walk ratio pp af seed = Ok report ->
  let stems := scan (fun _ file => (splitext file).1) walk pp af in
  let total := ratio.1.1 + ratio.1.2 + ratio.2 in
  split_num (length stems.1) ratio.1.1 total = Ok (dev (p_num report)) /\
  split_num (length stems.1) ratio.1.2 total = Ok (test (p_num report)) /\
  split_num (length stems.2) ratio.1.1 total = Ok (dev (n_num report)) /\
  split_num (length stems.2) ratio.1.2 total = Ok (test (n_num report)) /\
  positive_samples report = (random_shuffle stems.1 (py_seed seed)).1 /\
  negative_samples report =
    (random_shuffle stems.2 (random_shuffle stems.1 (py_seed seed)).2).1.
Proof.
  destruct ratio as [[d t] r]. unfold assign_splits. simpl.
  destruct (scan _ walk pp af) as [pos neg]. simpl. intros H.
  apply bind_Ok in H as (pd & Hpd & H). apply bind_Ok in H as (pt & Hpt & H).
  apply bind_Ok in H as (nd & Hnd & H). apply bind_Ok in H as (nt & Hnt & H).
  destruct (random_shuffle pos (py_seed seed)) as [ps st1]. simpl.
  destruct (random_shuffle neg st1) as [ns st2]. simpl.
  injection H as <-. simpl. done.
Qed.

End SplitFacts.

(** ** The file-system operations *)

Lemma elem_of_ancestors (a p : path) :
  a ∈ ancestors p <-> a `prefix_of` p /\ a <> [].
Proof.
  unfold ancestors. rewrite list_elem_of_In, in_map_iff. split.
  - intros (n & <- & Hn). apply list_elem_of_In, elem_of_seq in Hn.
    split; [apply prefix_take|].
    destruct p as [|x p]; [simpl in Hn; lia|]. destruct n; [lia | done].
  - intros [[k ->] Ha]. exists (length a). split.
    + by rewrite take_app_length.
    + apply list_elem_of_In, elem_of_seq. rewrite length_app.
      destruct a; [done | simpl; lia].
Qed.

Lemma makedirs_Ok p fs fs' :
  makedirs p fs = Ok fs' <->
  existsb (is_file fs) (ancestors p) = false /\
  fs' = mkFS (dirs fs ∪ list_to_set (ancestors p)) (files fs).
Proof.
  unfold makedirs. destruct (existsb _ _); split.
  - done.
  - by intros [? _].
  - intros [= <-]. done.
  - by intros [_ ->].
Qed.

Lemma makedirs_is_dir p fs fs' : makedirs p fs = Ok fs' -> is_dir fs' p = true.
Proof.
  intros H. apply makedirs_Ok in H as [_ ->]. unfold is_dir. simpl.
  destruct p as [|x p]; [done|]. apply orb_true_iff. right.
  apply bool_decide_eq_true, elem_of_union. right.
  apply elem_of_list_to_set, elem_of_ancestors. done.
Qed.

Lemma is_file_lookup fs p : is_file fs p = true <-> is_Some (files fs !! p).
Proof. unfold is_file. apply bool_decide_eq_true. Qed.

Lemma is_file_None fs p : is_file fs p = false <-> files fs !! p = None.
Proof.
  unfold is_file. rewrite bool_decide_eq_false, eq_None_not_Some. done.
Qed.

Lemma rmtree_Ok p fs fs' :
  rmtree p fs = Ok fs' ->
  is_dir fs p = true /\
  (forall q, p `prefix_of` q -> files fs' !! q = None) /\
  (forall q, ~ p `prefix_of` q -> files fs' !! q = files fs !! q) /\
  (forall q, q ∈ dirs fs' <-> q ∈ dirs fs /\ ~ p `prefix_of` q).
Proof.
  unfold rmtree. destruct (is_dir fs p); [|done]. intros [= <-]. simpl.
  split; [done|]. split; [|split].
  - intros q Hq. apply map_lookup_filter_None. right. intros c _ Hn. by apply Hn.
  - intros q Hq. destruct (files fs !! q) as [c|] eqn:E.
    + by apply map_lookup_filter_Some.
    + apply map_lookup_filter_None. by left.
  - intros q. by rewrite elem_of_filter, (comm and).
Qed.

Lemma write_file_Ok p c fs fs' :
  write_file p c fs = Ok fs' <->
  is_dir fs (dirname p) = true /\ is_dir fs p = false /\
  fs' = mkFS (dirs fs) (<[p := c]> (files fs)).
Proof.
  unfold write_file. destruct (is_dir fs (dirname p)), (is_dir fs p); simpl;
    split; try done; try (by intros (? & ? & ?)).
  - by intros [= <-].
  - by intros (_ & _ & ->).
Qed.

Lemma dirname_snoc (d : path) (x : string) : dirname (d ++ [x]) = d.
Proof. apply removelast_last. Qed.

(** ** [add_noise_to_audio] on the file system *)

Section AddNoiseFacts.
Context {R : NumpyRandom} {F : NumpyFFT}.

Lemma noisy_y_rate y sr noise_type noise_level seed out sr' :
  noisy_y y sr noise_type noise_level seed = Ok (out, sr') -> sr' = sr.
Proof.
  unfold noisy_y. intros H.
  apply bind_Ok in H as (st & _ & H). apply bind_Ok in H as (n & _ & H).
  apply bind_Ok in H as (o & _ & H). by injection H as _ <-.
Qed.

(** The two ways [add_noise_to_audio] ends. *)
Lemma add_noise_cases input_path output_path noise_type noise_level seed fs :
  let r := add_noise_to_audio input_path output_path noise_type noise_level seed fs in
  (r.1 = false /\ files r.2 = files fs /\ dirs fs ⊆ dirs r.2) \/
  (r.1 = true /\
   exists y sr out,
     files fs !! input_path = Some (Audio y sr) /\
     noisy_y y sr noise_type noise_level seed = Ok (out, sr) /\
     r.2 = mkFS (dirs fs ∪ list_to_set (ancestors (dirname output_path)))
                (<[output_path := Audio out sr]> (files fs))).
Proof.
  unfold add_noise_to_audio, librosa_load.
  destruct (files fs !! input_path) as [[y sr| |]|] eqn:Hin;
    try (left; simpl; done).
  destruct (noisy_y y sr noise_type noise_level seed) as [[out sr']|e] eqn:Hn;
    [|left; simpl; done].
  pose proof (noisy_y_rate _ _ _ _ _ _ _ Hn) as ->.
  destruct (makedirs (dirname output_path) fs) as [fs1|e] eqn:Hm;
    [|left; simpl; done].
  apply makedirs_Ok in Hm as [_ ->].
  unfold sf_write.
  destruct (write_file output_path (Audio out sr) _) as [fs2|e] eqn:Hw.
  - right. simpl. split; [done|]. exists y, sr, out.
    apply write_file_Ok in Hw as (_ & _ & ->). done.
  - left. simpl. split; [done|]. split; [done|]. set_solver.
Qed.

End AddNoiseFacts.

Lemma overlay_length y noise_level n out :
  overlay y noise_level n = Ok out -> length n = length y ->
  length out = length y.
Proof.
  unfold overlay. intros H Hlen.
  apply bind_Ok in H as (n' & Hn' & H). apply bind_Ok in H as (s & Hs & H).
  injection H as <-. unfold np_clip. rewrite length_map.
  apply normalize_length in Hn' as [Hlen' _].
  apply broadcast_length in Hs as [Hs | [Hy Hs]]; [done|].
  rewrite length_map in Hs. congruence.
Qed.

Lemma noisy_y_rejects {R : NumpyRandom} {F : NumpyFFT} y sr noise_type noise_level seed :
  noise_type ∉ ["white"; "pink"; "impulse"]%string \/ ~ 0 <= seed < 2 ^ 32 ->
  is_ok (noisy_y y sr noise_type noise_level seed) = false.
Proof.
  intros [Hk | Hs]; unfold noisy_y, np_random_seed.
  - destruct ((0 <=? seed) && (seed <? 2 ^ 32)); [|done].
    rewrite bind_Ok_l. unfold noise.
    destruct (String.eqb_spec noise_type "white") as [->|_]; [set_solver|].
    destruct (String.eqb_spec noise_type "pink") as [->|_]; [set_solver|].
    destruct (String.eqb_spec noise_type "impulse") as [->|_]; [set_solver|].
    done.
  - replace ((0 <=? seed) && (seed <? 2 ^ 32)) with false by lia. done.
Qed.

Section WaveformFacts.
Context {R : NumpyRandom} {F : NumpyFFT}.
Hypothesis HR : random_contract R.

(** White and impulse noise on a waveform with at least one sample. *)
Lemma noisy_y_returns y sr noise_type noise_level seed :
  noise_type = "white"%string \/ noise_type = "impulse"%string ->
  y <> [] -> Z.of_nat (length y) < 2 ^ 50 -> 0 <= seed < 2 ^ 32 ->
  exists out, noisy_y y sr noise_type noise_level seed = Ok (out, sr) /\
              length out = length y.
Proof.
  intros Hkind Hy HL Hseed.
  assert (exists n, noise noise_type y sr (np_seed seed) = Ok n /\
                    length n = length y) as (n & Hn & Hlen).
  { destruct Hkind as [-> | ->].
    - destruct HR as (Hnorm & _). eexists. split; [reflexivity|]. apply Hnorm.
    - pose proof (num_impulses_floor y HL) as Hk.
      destruct (impulse_noise_written HR y sr (np_seed seed) _ Hk)
        as (_ & _ & _ & n & Hn & Hlen & _).
      by exists n. }
  destruct (overlay_same_length y noise_level n) as [out Hout]; [|done|].
  { intros ->. by destruct y. }
  exists out. split; [|by apply (overlay_length _ _ _ _ Hout)].
  unfold noisy_y, np_random_seed.
  replace ((0 <=? seed) && (seed <? 2 ^ 32)) with true by lia.
  by rewrite bind_Ok_l, Hn, bind_Ok_l, Hout.
Qed.

(** No noise kind gets past a waveform without samples. *)
Lemma noisy_y_empty (HF : fft_contract F) sr noise_type noise_level seed :
  is_ok (noisy_y [] sr noise_type noise_level seed) = false.
Proof.
  destruct (noisy_y [] sr noise_type noise_level seed) as [[out sr']|e] eqn:E;
    [exfalso|done].
  unfold noisy_y, overlay in E.
  apply bind_Ok in E as (st & _ & E). apply bind_Ok in E as (n & Hn & E).
  apply bind_Ok in E as (o & Ho & _). apply bind_Ok in Ho as (n' & Hn' & _).
  apply normalize_length in Hn' as [_ Hne].
  apply (noise_length HR HF) in Hn as [Hn | [_ Hn]]; simpl in Hn;
    by destruct n.
Qed.

End WaveformFacts.

Section AddNoiseFiles.
Context {R : NumpyRandom} {F : NumpyFFT}.

Lemma add_noise_fails input_path output_path noise_type noise_level seed fs y sr :
  files fs !! input_path = Some (Audio y sr) ->
  is_ok (noisy_y y sr noise_type noise_level seed) = false ->
  add_noise_to_audio input_path output_path noise_type noise_level seed fs = (false, fs).
Proof.
  intros Hin Hn. unfold add_noise_to_audio, librosa_load. rewrite Hin.
  by destruct (noisy_y y sr noise_type noise_level seed) as [[??]|].
Qed.

End AddNoiseFiles.

(** ** What a batch run leaves behind *)

Lemma keeps_refl fs : keeps fs fs.
Proof. by split. Qed.

Lemma keeps_trans fs1 fs2 fs3 : keeps fs1 fs2 -> keeps fs2 fs3 -> keeps fs1 fs3.
Proof. intros [H1 H2] [H3 H4]. split; auto. Qed.

Lemma add_noise_keeps {R : NumpyRandom} {F : NumpyFFT} input_path output_path
    noise_type noise_level seed fs :
  keeps fs (add_noise_to_audio input_path output_path noise_type noise_level seed fs).2.
Proof.
  destruct (add_noise_cases input_path output_path noise_type noise_level seed fs)
    as [(_ & Hf & Hd) | (_ & y & sr & out & _ & _ & ->)]; split.
  - intros p. unfold is_file. by rewrite Hf.
  - intros d. unfold is_dir. rewrite !orb_true_iff, !bool_decide_eq_true.
    intros [?|?]; [by left | right; set_solver].
  - intros p. rewrite !is_file_lookup. simpl. intros Hp.
    destruct (decide (p = output_path)) as [->|Hne].
    + rewrite lookup_insert_eq. done.
    + by rewrite lookup_insert_ne.
  - intros d. unfold is_dir. simpl. rewrite !orb_true_iff, !bool_decide_eq_true.
    intros [?|?]; [by left | right; set_solver].
Qed.

Section BatchEffects.
Context {R : NumpyRandom} {F : NumpyFFT}.
Variable float_str : float -> string.
Variables (input_folder output_folder : path) (noise_type : string)
          (noise_level : float) (seed : Z).

Let step := batch_step float_str input_folder output_folder noise_type noise_level seed.

Lemma batch_step_grows root s file :
  keeps (batch_fs s) (batch_fs (step root s file)) /\
  (processed_count (step root s file) + skipped_count (step root s file)
   <= S (processed_count s + skipped_count s))%nat /\
  (processed_count s <= processed_count (step root s file))%nat.
Proof.
  unfold step, batch_step. destruct (selected file).
  - pose proof (add_noise_keeps (join root [file])
      (output_name float_str input_folder output_folder root file noise_type noise_level)
      noise_type noise_level seed (batch_fs s)) as Hk.
    destruct (add_noise_to_audio _ _ _ _ _ _) as [[] fs']; simpl in *;
      (split; [done | lia]).
  - simpl. split; [apply keeps_refl | lia].
Qed.

Lemma batch_files_grow root files : forall s,
  let s' := fold_left (step root) files s in
  keeps (batch_fs s) (batch_fs s') /\
  (processed_count s' + skipped_count s'
   <= processed_count s + skipped_count s + length files)%nat.
Proof.
  induction files as [|f files IH]; intros s; simpl.
  - split; [apply keeps_refl | lia].
  - destruct (IH (step root s f)) as [Hk Hc].
    destruct (batch_step_grows root s f) as (Hk1 & Hc1 & _).
    split; [by eapply keeps_trans | lia].
Qed.

Lemma batch_walk_grows walk : forall s,
  let s' := fold_left (fun s (d : path * list string) =>
                         let '(root, files) := d in fold_left (step root) files s)
                      walk s in
  keeps (batch_fs s) (batch_fs s') /\
  (processed_count s' + skipped_count s'
   <= processed_count s + skipped_count s + length (walk_files walk))%nat.
Proof.
  induction walk as [|[root files] walk IH]; intros s; simpl.
  - split; [apply keeps_refl | lia].
  - destruct (batch_files_grow root files s) as [Hk1 Hc1].
    destruct (IH (fold_left (step root) files s)) as [Hk Hc]. simpl in *.
    split; [by eapply keeps_trans|].
    rewrite length_app, length_map. lia.
Qed.

End BatchEffects.

Section BatchRejected.
Context {R : NumpyRandom} {F : NumpyFFT}.
Variable float_str : float -> string.
Variables (input_folder output_folder : path) (noise_type : string)
          (noise_level : float) (seed : Z).
Hypothesis Hbad :
  noise_type ∉ ["white"; "pink"; "impulse"]%string \/ ~ 0 <= seed < 2 ^ 32.

Lemma batch_step_rejected root s file :
  let s' := batch_step float_str input_folder output_folder noise_type
              noise_level seed root s file in
  processed_count s' = processed_count s /\ batch_fs s' = batch_fs s.
Proof.
  unfold batch_step. destruct (selected file); [|done].
  unfold add_noise_to_audio, librosa_load.
  destruct (files (batch_fs s) !! join root [file]) as [[y sr| |]|]; try done.
  pose proof (noisy_y_rejects y sr noise_type noise_level seed Hbad) as Hn.
  by destruct (noisy_y y sr noise_type noise_level seed) as [[??]|].
Qed.

Lemma batch_files_rejected root files : forall s,
  let s' := fold_left (batch_step float_str input_folder output_folder noise_type
                         noise_level seed root) files s in
  processed_count s' = processed_count s /\ batch_fs s' = batch_fs s.
Proof.
  induction files as [|f files IH]; intros s; cbn [fold_left]; [done|].
  destruct (IH (batch_step float_str input_folder output_folder noise_type
                  noise_level seed root s f)) as [Hp Hf].
  destruct (batch_step_rejected root s f) as [Hp' Hf'].
  cbv zeta in *. split; congruence.
Qed.

Lemma batch_walk_rejected walk : forall s,
  let s' := fold_left (fun s (d : path * list string) =>
                         let '(root, files) := d in
                         fold_left (batch_step float_str input_folder output_folder
                                      noise_type noise_level seed root) files s)
                      walk s in
  processed_count s' = processed_count s /\ batch_fs s' = batch_fs s.
Proof.
  induction walk as [|[root files] walk IH]; intros s; cbn [fold_left]; [done|].
  destruct (IH (fold_left (batch_step float_str input_folder output_folder
                             noise_type noise_level seed root) files s)) as [Hp Hf].
  destruct (batch_files_rejected root files s) as [Hp' Hf'].
  cbv zeta in *. split; congruence.
Qed.

End BatchRejected.

(** ** File names *)

Lemma append_cons c (a b : string) : (String c a +:+ b = String c (a +:+ b))%string.
Proof. reflexivity. Qed.

Lemma append_nil (b : string) : (EmptyString +:+ b = b)%string.
Proof. reflexivity. Qed.

Lemma append_assoc (a b c : string) : (a +:+ (b +:+ c) = (a +:+ b) +:+ c)%string.
Proof. induction a as [|x a IH]; rewrite ?append_cons, ?append_nil in *; [done | by rewrite IH]. Qed.

Lemma append_length (a b : string) :
  String.length (a +:+ b) = (String.length a + String.length b)%nat.
Proof. induction a as [|x a IH]; rewrite ?append_cons, ?append_nil in *; simpl; [done | by rewrite IH]. Qed.

Lemma startswith_app s pre :
  startswith s pre = true <-> exists t, s = (pre +:+ t)%string.
Proof.
  unfold startswith. revert s. induction pre as [|c pre IH]; intros s.
  - split; [intros _; by exists s | by destruct s].
  - destruct s as [|d s]; [split; [done | by intros [t ?]]|].
    simpl String.prefix.
    destruct (Ascii.ascii_dec c d) as [->|Hne].
    + rewrite IH. split; intros [t Ht]; exists t; rewrite ?append_cons, ?append_nil in *; congruence.
    + split; [done | intros [t Ht]; rewrite ?append_cons, ?append_nil in *; congruence].
Qed.

Lemma endswith_app s suf :
  endswith s suf = true <-> exists t, s = (t +:+ suf)%string.
Proof.
  induction s as [|c s IH].
  - change (endswith "" suf) with (String.eqb "" suf || false).
    rewrite orb_false_r, String.eqb_eq. split.
    + intros <-. by exists EmptyString.
    + intros [[|? ?] H]; rewrite ?append_cons, ?append_nil in *; [done | discriminate].
  - change (endswith (String c s) suf)
      with (String.eqb (String c s) suf || endswith s suf).
    rewrite orb_true_iff, IH, String.eqb_eq. split.
    + intros [<- | [t ->]]; [by exists EmptyString | by exists (String c t)].
    + intros [[|d t] H]; rewrite ?append_cons, ?append_nil in *; [by left | right].
      injection H as _ ->. by exists t.
Qed.

Lemma lower_app (a b : string) : lower (a +:+ b) = (lower a +:+ lower b)%string.
Proof.
  induction a as [|x a IH]; rewrite ?append_cons, ?append_nil in *; simpl lower; rewrite ?append_cons, ?append_nil in *;
    [done | by rewrite IH].
Qed.

Lemma lower_split s : forall t u,
  lower s = (t +:+ u)%string ->
  exists a b, s = (a +:+ b)%string /\ lower a = t /\ lower b = u.
Proof.
  induction s as [|c s IH]; intros t u H.
  - destruct t; rewrite ?append_cons, ?append_nil in *; [|discriminate]. simpl in H. subst u.
    by exists EmptyString, EmptyString.
  - destruct t as [|d t]; rewrite ?append_cons, ?append_nil in *.
    + subst u. by exists EmptyString, (String c s).
    + simpl in H. injection H as <- H. destruct (IH _ _ H) as (a & b & -> & <- & <-).
      by exists (String c a), b.
Qed.

Lemma lower_ascii_dot c : lower_ascii c = "."%char -> c = "."%char.
Proof.
  destruct c as [[] [] [] [] [] [] [] []]; vm_compute; intros H;
    first [reflexivity | discriminate H].
Qed.

Lemma no_dot_lower s : no_dot (lower s) = true -> no_dot s = true.
Proof.
  unfold no_dot. induction s as [|c s IH]; simpl; [done|].
  rewrite !andb_true_iff, !negb_true_iff, !Ascii.eqb_neq.
  intros [Hc Hs]. split; [|by apply IH].
  intros ->. by apply Hc.
Qed.

(** An extension the filters accept is a dot followed by characters
    that are not dots. *)
Lemma supported_extension e suf :
  suf ∈ supported_formats -> lower e = suf ->
  exists rest, e = String "." rest /\ no_dot rest = true.
Proof.
  intros Hsuf He. destruct e as [|c rest].
  { subst suf. unfold supported_formats in Hsuf.
    repeat (apply elem_of_cons in Hsuf as [Hs | Hsuf]; [discriminate Hs|]).
    by apply elem_of_nil in Hsuf. }
  simpl in He. exists rest.
  assert (lower_ascii c = "."%char /\ no_dot (lower rest) = true) as [Hc Hr].
  { unfold supported_formats in Hsuf.
    repeat (apply elem_of_cons in Hsuf as [-> | Hsuf]);
      [..|by apply elem_of_nil in Hsuf];
      injection He as -> ->; done. }
  apply lower_ascii_dot in Hc as ->. split; [done | by apply no_dot_lower].
Qed.

Lemma list_ascii_app (a b : string) :
  list_ascii_of_string (a +:+ b) = list_ascii_of_string a ++ list_ascii_of_string b.
Proof.
  induction a as [|x a IH]; rewrite ?append_cons, ?append_nil in *; simpl; [done | by rewrite IH].
Qed.

Lemma list_find_first {A} (P : A -> Prop) `{forall x, Decision (P x)} l1 x l2 :
  Forall (fun y => ~ P y) l1 -> P x ->
  list_find P (l1 ++ x :: l2) = Some (length l1, x).
Proof.
  intros Hl Hx. induction Hl as [|y l1 Hy Hl IH]; simpl.
  - by rewrite decide_True.
  - rewrite decide_False by done. by rewrite IH.
Qed.

(** [splitext] splits at a last dot that has a character other than a
    dot before it. *)
Lemma splitext_at_dot pre rest :
  no_dot rest = true ->
  forallb (fun c => Ascii.eqb c ".") (list_ascii_of_string pre) = false ->
  splitext (pre +:+ String "." rest) = (pre, String "." rest).
Proof.
  intros Hrest Hpre. unfold splitext.
  rewrite list_ascii_app. simpl list_ascii_of_string.
  set (lp := list_ascii_of_string pre) in *.
  set (lr := list_ascii_of_string rest).
  rewrite reverse_app, reverse_cons, <- app_assoc. simpl.
  rewrite (list_find_first _ (reverse lr) "."%char (reverse lp)); [|..|done].
  2:{ apply Forall_reverse, Forall_forall. intros c Hc ->.
      unfold no_dot in Hrest. rewrite forallb_forall in Hrest.
      apply list_elem_of_In, Hrest in Hc. done. }
  rewrite length_reverse, length_app. simpl length.
  replace (length lp + S (length lr) - 1 - length lr)%nat with (length lp) by lia.
  rewrite take_app_length, drop_app_length, Hpre.
  unfold lp, lr. simpl. by rewrite !string_of_list_ascii_of_string.
Qed.

(** A name the batch filter selects splits into a stem and an extension,
    and stays selected whatever is put between the two. *)
Lemma selected_shape file :
  selected file = true ->
  exists stem ext,
    splitext file = (stem, ext) /\ file = (stem +:+ ext)%string /\
    forall mid, selected (stem +:+ mid +:+ ext) = true.
Proof.
  unfold selected. intros H. apply andb_true_iff in H as [Ha Hp].
  apply existsb_exists in Ha as (suf & Hsuf & Hend).
  apply list_elem_of_In in Hsuf.
  apply endswith_app in Hend as [t Ht].
  apply lower_split in Ht as (stem & ext & -> & Hstem & Hext).
  destruct (supported_extension ext suf Hsuf Hext) as (rest & -> & Hrest).
  assert (exists pre t', pre ∈ ["base"; "aug"]%string /\
                         stem = (pre +:+ t')%string) as (pre & t' & Hpre & ->).
  { apply orb_true_iff in Hp as [Hp | Hp]; apply startswith_app in Hp as [u Hu].
    - exists "base"%string.
      destruct stem as [|c0 [|c1 [|c2 [|c3 stem]]]]; rewrite ?append_cons, ?append_nil in *;
        try discriminate Hu.
      injection Hu as -> -> -> -> _. exists stem. split; [repeat constructor | done].
    - exists "aug"%string.
      destruct stem as [|c0 [|c1 [|c2 stem]]]; rewrite ?append_cons, ?append_nil in *;
        try discriminate Hu.
      injection Hu as -> -> -> _. exists stem. split; [repeat constructor | done]. }
  exists (pre +:+ t')%string, (String "." rest). split; [|split; [done|]].
  - apply splitext_at_dot; [done|].
    repeat (apply elem_of_cons in Hpre as [-> | Hpre]); [done | done |].
    by apply elem_of_nil in Hpre.
  - intros mid. apply andb_true_iff. split.
    + apply existsb_exists. exists suf. split; [by apply list_elem_of_In|].
      apply endswith_app. rewrite append_assoc, lower_app, Hext. eauto.
    + rewrite <- !append_assoc.
      repeat (apply elem_of_cons in Hpre as [-> | Hpre]);
        [| |by apply elem_of_nil in Hpre]; apply orb_true_iff; [left | right];
        apply startswith_app; eauto.
Qed.

Lemma common_prefix_under (a b : path) : common_prefix a (a ++ b) = length a.
Proof.
  induction a as [|x a IH]; simpl; [done|]. by rewrite String.eqb_refl, IH.
Qed.

(** [relpath] of a path below [start] is what follows [start]. *)
Lemma relpath_under (start rel : path) :
  rel <> [] -> relpath (start ++ rel) start = rel.
Proof.
  intros Hrel. unfold relpath.
  rewrite common_prefix_under, Nat.sub_diag, drop_app_length. simpl.
  by destruct rel.
Qed.

Section OutputNames.
Variable float_str : float -> string.

Lemma output_name_under input_folder output_folder rel file stem ext
    noise_type noise_level :
  splitext file = (stem, ext) ->
  output_name float_str input_folder output_folder (input_folder ++ rel) file
    noise_type noise_level
  = output_folder ++ rel ++
    [(stem +:+ "_" +:+ noise_type +:+ "_noise" +:+ float_str noise_level +:+ ext)%string].
Proof.
  intros Hsplit. unfold output_name, join.
  rewrite <- (app_assoc input_folder), relpath_under by (by destruct rel).
  unfold splitext_path.
  rewrite !app_assoc, last_snoc, removelast_last, Hsplit. simpl.
  by rewrite last_snoc, removelast_last.
Qed.

End OutputNames.

(** ** Well-formed file systems *)

Lemma proper_prefix_ancestor (a p : path) :
  a `prefix_of` p -> a <> p -> a <> [] -> a ∈ ancestors (dirname p).
Proof.
  intros [k ->] Hne Ha. apply elem_of_ancestors. split; [|done].
  destruct (exists_last (l:=k)) as (k' & x & ->).
  { intros ->. by rewrite app_nil_r in Hne. }
  rewrite app_assoc, dirname_snoc. by apply prefix_app_r.
Qed.

Lemma well_formed_above_file fs p a :
  well_formed fs = true -> is_file fs p = true -> a ∈ ancestors (dirname p) ->
  is_dir fs a = true /\ is_file fs a = false.
Proof.
  unfold well_formed. intros Hwf Hp Ha. apply andb_true_iff in Hwf as [Hwf _].
  rewrite forallb_forall in Hwf.
  apply is_file_lookup in Hp as [c Hc].
  assert (In p (map fst (map_to_list (files fs)))) as Hin.
  { apply in_map_iff. exists (p, c). split; [done|].
    by apply list_elem_of_In, elem_of_map_to_list. }
  apply Hwf in Hin. rewrite forallb_forall in Hin.
  apply list_elem_of_In, Hin in Ha. apply andb_true_iff in Ha as [? ?].
  split; [done | by apply negb_true_iff].
Qed.

Lemma well_formed_above_dir fs d a :
  well_formed fs = true -> d ∈ dirs fs -> a ∈ ancestors d -> is_dir fs a = true.
Proof.
  unfold well_formed. intros Hwf Hd Ha. apply andb_true_iff in Hwf as [_ Hwf].
  rewrite forallb_forall in Hwf.
  apply elem_of_elements, list_elem_of_In, Hwf in Hd.
  rewrite forallb_forall in Hd. by apply list_elem_of_In, Hd in Ha.
Qed.

(** No file lies below a file. *)
Lemma well_formed_leaves fs p q :
  well_formed fs = true -> is_file fs p = true -> is_file fs q = true ->
  p <> [] -> p `prefix_of` q -> p = q.
Proof.
  intros Hwf Hp Hq Hnil Hpre. destruct (decide (p = q)) as [|Hne]; [done|].
  destruct (well_formed_above_file fs q p Hwf Hq) as [_ Hf];
    [by apply proper_prefix_ancestor | congruence].
Qed.

(** ** Clearing the output folder *)

Lemma creatable_spec fs p :
  creatable fs p = true <-> forall a, a `prefix_of` p -> a <> [] -> is_file fs a = false.
Proof.
  unfold creatable. rewrite negb_true_iff. split.
  - intros H a Ha Hne. destruct (is_file fs a) eqn:E; [|done].
    assert (existsb (is_file fs) (ancestors p) = true) as Hex; [|congruence].
    apply existsb_exists. exists a. split; [|done].
    by apply list_elem_of_In, elem_of_ancestors.
  - intros H. destruct (existsb _ _) eqn:E; [|done].
    apply existsb_exists in E as (a & Ha & Hf).
    apply list_elem_of_In, elem_of_ancestors in Ha as [Ha Hne].
    by rewrite H in Hf.
Qed.

Lemma makedirs_creatable p fs :
  creatable fs p = true ->
  makedirs p fs = Ok (mkFS (dirs fs ∪ list_to_set (ancestors p)) (files fs)).
Proof.
  unfold creatable. rewrite negb_true_iff. intros H. apply makedirs_Ok. done.
Qed.

(** Step 7 of [balance_samples]: afterwards the output folder is a
    directory with nothing in it, and nothing else has changed. *)
Lemma clear_spec output_folder fs :
  creatable fs output_folder = true ->
  path_exists fs output_folder = true \/ well_formed fs = true ->
  exists fs1 fs2,
    (if path_exists fs output_folder then rmtree output_folder fs else Ok fs) = Ok fs1 /\
    makedirs output_folder fs1 = Ok fs2 /\
    (forall q, output_folder `prefix_of` q -> files fs2 !! q = None) /\
    (forall q, ~ output_folder `prefix_of` q -> files fs2 !! q = files fs !! q) /\
    (forall d, d ∈ dirs fs2 -> output_folder `prefix_of` d -> d = output_folder) /\
    is_dir fs2 output_folder = true.
Proof.
  intros Hc Hw. pose proof Hc as Hc'. rewrite creatable_spec in Hc.
  assert (exists fs1,
    (if path_exists fs output_folder then rmtree output_folder fs else Ok fs) = Ok fs1 /\
    (forall q, output_folder `prefix_of` q -> files fs1 !! q = None) /\
    (forall q, ~ output_folder `prefix_of` q -> files fs1 !! q = files fs !! q) /\
    (forall d, d ∈ dirs fs1 -> ~ output_folder `prefix_of` d))
    as (fs1 & H1 & Hin & Hout & Hd).
  { destruct (path_exists fs output_folder) eqn:Hex.
    - assert (is_dir fs output_folder = true) as Hdir.
      { unfold path_exists in Hex. apply orb_true_iff in Hex as [|Hf]; [done|].
        destruct output_folder as [|x o]; [done|]. rewrite Hc in Hf; done. }
      destruct (rmtree output_folder fs) as [fs1|e] eqn:Hrm.
      + exists fs1. apply rmtree_Ok in Hrm as (_ & Hin & Hout & Hd).
        split; [done|]. split; [done|]. split; [done|].
        intros d Hdd. by apply Hd in Hdd as [_ ?].
      + unfold rmtree in Hrm. by rewrite Hdir in Hrm.
    - destruct Hw as [|Hwf]; [done|].
      exists fs. split; [done|].
      unfold path_exists in Hex. apply orb_false_iff in Hex as [Hnd Hnf].
      assert (output_folder <> []) as Hne by (by intros ->).
      split; [|split; [done|]].
      + intros q Hq. apply is_file_None. destruct (is_file fs q) eqn:Hf; [|done].
        destruct (decide (output_folder = q)) as [<-|Hneq]; [congruence|].
        destruct (well_formed_above_file fs q output_folder Hwf Hf) as [? _];
          [by apply proper_prefix_ancestor | congruence].
      + intros d Hd Hpre.
        assert (is_dir fs output_folder = true); [|congruence].
        apply (well_formed_above_dir fs d); [done | done |].
        by apply elem_of_ancestors. }
  assert (creatable fs1 output_folder = true) as Hc1.
  { apply creatable_spec. intros a Ha Hne. apply is_file_None.
    destruct (decide (output_folder `prefix_of` a)) as [Hp|Hp].
    - by apply Hin.
    - rewrite Hout by done. apply is_file_None. by apply Hc. }
  exists fs1, (mkFS (dirs fs1 ∪ list_to_set (ancestors output_folder)) (files fs1)).
  split; [done|]. split; [by apply makedirs_creatable|]. simpl.
  split; [done|]. split; [done|]. split.
  - intros d Hdd Hpre. apply elem_of_union in Hdd as [Hdd|Hdd].
    + by apply Hd in Hdd.
    + apply elem_of_list_to_set, elem_of_ancestors in Hdd as [Hdd _].
      by apply (anti_symm prefix).
  - apply (makedirs_is_dir output_folder fs1). by apply makedirs_creatable.
Qed.

(** ** The copy loop of [balance_samples] *)

(** A file that is not there is not copied, and no file appears. *)
Lemma copy_step_missing input_folder output_folder n fs p :
  files fs !! p = None ->
  exists fs', copy_step input_folder output_folder (n, fs) p = (n, fs') /\
              files fs' = files fs.
Proof.
  intros Hp. unfold copy_step.
  destruct (makedirs _ fs) as [fs1|e] eqn:Hm; [|by exists fs].
  apply makedirs_Ok in Hm as [_ ->]. unfold copy2. simpl. rewrite Hp.
  by eexists.
Qed.

Lemma copy_loop_missing input_folder output_folder l : forall n fs,
  Forall (fun p => files fs !! p = None) l ->
  exists fs', fold_left (copy_step input_folder output_folder) l (n, fs) = (n, fs') /\
              files fs' = files fs.
Proof.
  induction l as [|p l IH]; intros n fs Hl; cbn [fold_left]; [by exists fs|].
  apply Forall_cons in Hl as [Hp Hl].
  destruct (copy_step_missing input_folder output_folder n fs p Hp) as (fs1 & -> & Hf).
  destruct (IH n fs1) as (fs' & -> & Hf').
  { eapply Forall_impl; [exact Hl|]. intros q Hq. simpl in Hq. by rewrite Hf. }
  exists fs'. split; [done | congruence].
Qed.

Section CopyLoop.
Variables (input_folder output_folder : path) (fs : FS).
Hypothesis Hwf : well_formed fs = true.
Hypothesis Hcreat : creatable fs output_folder = true.
Hypothesis Hout_in : ~ output_folder `prefix_of` input_folder.
Hypothesis Hin_out : ~ input_folder `prefix_of` output_folder.

(** A file of the input folder. *)
Let listed (p : path) : Prop :=
  exists r file, p = input_folder ++ r ++ [file] /\ is_file fs p = true.

Let target := copy_target input_folder output_folder.

Lemma target_listed r file :
  target (input_folder ++ r ++ [file]) = output_folder ++ r ++ [file].
Proof.
  unfold target, copy_target, join. rewrite relpath_under; [done|].
  by destruct r.
Qed.

Lemma listed_outside p : listed p -> ~ output_folder `prefix_of` p.
Proof.
  intros (r & file & -> & _) Hp.
  destruct (prefix_weak_total output_folder input_folder
              (input_folder ++ r ++ [file])) as [?|?]; try done.
  by apply prefix_app_r.
Qed.

Lemma listed_inj p p' : listed p -> listed p' -> target p = target p' -> p = p'.
Proof.
  intros (r & file & -> & _) (r' & file' & -> & _).
  rewrite !target_listed. intros H. apply app_inv_head in H. by rewrite H.
Qed.

(** The state of the loop after the files [done]. *)
Let inv (done : list path) (s : nat * FS) : Prop :=
  s.1 = length done /\
  (forall q, ~ output_folder `prefix_of` q -> files s.2 !! q = files fs !! q) /\
  (forall q c, output_folder `prefix_of` q ->
     files s.2 !! q = Some c <->
     exists p, p ∈ done /\ q = target p /\ files fs !! p = Some c) /\
  (forall d, d ∈ dirs s.2 -> output_folder `prefix_of` d ->
     d = output_folder \/ exists p, p ∈ done /\ d `prefix_of` dirname (target p)).

Lemma copy_step_inv done s p :
  Forall listed done -> listed p -> inv done s ->
  inv (done ++ [p]) (copy_step input_folder output_folder s p).
Proof.
  intros Hdone Hp (Hn & Hframe & Hfiles & Hdirs).
  pose proof (listed_outside p Hp) as Hp_out.
  destruct s as [n fsk]. simpl in Hn, Hframe, Hfiles, Hdirs.
  pose proof Hp as (r & file & Ep & Hfile). 
  pose proof (target_listed r file) as Htgt. rewrite <- Ep in Htgt.
  unfold target, copy_target in Htgt.
  unfold copy_step. rewrite Htgt.
  replace (dirname (output_folder ++ r ++ [file])) with (output_folder ++ r)
    by (by rewrite !app_assoc, dirname_snoc).
  assert (forall p', p' ∈ done -> ~ p' `prefix_of` input_folder ++ r) as Hleaf1.
  { intros p' Hp' Hpre.
    rewrite Forall_forall in Hdone. destruct (Hdone p' Hp') as (r' & f' & -> & Hf').
    assert (input_folder ++ r' ++ [f'] = p) as E.
    { apply (well_formed_leaves fs); try done.
      - by destruct input_folder, r'.
      - rewrite Ep, (app_assoc _ r). by apply prefix_app_r. }
    rewrite E, Ep in Hpre. apply prefix_length in Hpre.
    rewrite !length_app in Hpre. simpl in Hpre. lia. }
  assert (creatable fsk (output_folder ++ r) = true) as Hck.
  { apply creatable_spec. intros a Ha Hne.
    destruct (is_file fsk a) eqn:Hfa; [exfalso|done].
    apply is_file_lookup in Hfa as [c Hc].
    destruct (decide (output_folder `prefix_of` a)) as [Hu|Hu].
    - apply Hfiles in Hc as (p' & Hp' & -> & _); [|done].
      apply (Hleaf1 p' Hp').
      rewrite Forall_forall in Hdone. destruct (Hdone p' Hp') as (r' & f' & -> & _).
      rewrite target_listed in Ha. apply prefix_app_inv in Ha.
      by apply prefix_app.
    - rewrite Hframe in Hc by done.
      assert (is_file fs a = true) as Hfa by (apply is_file_lookup; eauto).
      assert (a `prefix_of` output_folder) as Hl.
      { assert (output_folder `prefix_of` output_folder ++ r) as Ho
          by (by apply prefix_app_r).
        by destruct (prefix_weak_total _ _ _ Ha Ho). }
      rewrite creatable_spec in Hcreat. by rewrite (Hcreat a Hl Hne) in Hfa. }
  rewrite (makedirs_creatable _ _ Hck).
  set (fsa := mkFS (dirs fsk ∪ list_to_set (ancestors (output_folder ++ r))) (files fsk)).
  assert (exists c, files fs !! p = Some c) as [c Hc]
    by (by apply is_file_lookup in Hfile as [c ?]; exists c).
  assert (is_dir fsa (output_folder ++ r ++ [file]) = false) as Hnd.
  { unfold is_dir. apply orb_false_iff. split.
    { apply bool_decide_eq_false. by destruct output_folder, r. }
    apply bool_decide_eq_false. simpl. intros Hd.
    apply elem_of_union in Hd as [Hd|Hd].
    - apply Hdirs in Hd as [Hd | (p' & Hp' & Hd)]; [| |by apply prefix_app_r].
      + apply (f_equal length) in Hd. rewrite !length_app in Hd. simpl in Hd. lia.
      + rewrite Forall_forall in Hdone.
        destruct (Hdone p' Hp') as (r' & f' & -> & Hf').
        rewrite target_listed, !app_assoc, dirname_snoc, <- !app_assoc in Hd.
        apply prefix_app_inv in Hd.
        assert (p = input_folder ++ r' ++ [f']) as E.
        { apply (well_formed_leaves fs); try done.
          - rewrite Ep. by destruct input_folder, r.
          - rewrite Ep. apply prefix_app. by apply prefix_app_r. }
        rewrite Ep in E. apply app_inv_head in E. rewrite E in Hd.
        apply prefix_length in Hd. rewrite !length_app in Hd. simpl in Hd. lia.
    - apply elem_of_list_to_set, elem_of_ancestors in Hd as [Hd _].
      apply prefix_length in Hd. rewrite !length_app in Hd. simpl in Hd. lia. }
  unfold copy2. replace (files fsa !! p) with (Some c)
    by (simpl; by rewrite Hframe).
  rewrite Hnd.
  rewrite bool_decide_eq_false_2.
  2:{ intros E. apply Hp_out. rewrite E. by apply prefix_app_r. }
  assert (write_file (output_folder ++ r ++ [file]) c fsa
          = Ok (mkFS (dirs fsa) (<[output_folder ++ r ++ [file] := c]> (files fsa))))
    as ->.
  { apply write_file_Ok. split; [|done].
    rewrite !app_assoc, dirname_snoc.
    apply (makedirs_is_dir _ fsk). by apply makedirs_creatable. }
  unfold inv. simpl. split; [rewrite length_app; simpl; lia|].
  split; [|split].
  - intros q Hq. rewrite lookup_insert_ne; [by apply Hframe|].
    intros <-. apply Hq. by apply prefix_app_r.
  - intros q c' Hq. destruct (decide (q = output_folder ++ r ++ [file])) as [->|Hne].
    + rewrite lookup_insert_eq. split.
      * intros [= <-]. exists p. split; [apply elem_of_app; right; by constructor|].
        rewrite Ep at 1. by rewrite target_listed.
      * intros (p' & Hp' & Ht & Hc').
        assert (p' = p) as ->; [|congruence].
        apply listed_inj; [| done |].
        { apply elem_of_app in Hp' as [Hp'|Hp'].
          - rewrite Forall_forall in Hdone. by apply Hdone.
          - apply list_elem_of_singleton in Hp'. by subst. }
        rewrite <- Ht. unfold target, copy_target. by rewrite Htgt.
    + rewrite lookup_insert_ne by done. rewrite Hfiles by done. split.
      * intros (p' & Hp' & Hq' & Hc'). exists p'.
        split; [apply elem_of_app; by left | done].
      * intros (p' & Hp' & Hq' & Hc'). exists p'. split; [|done].
        apply elem_of_app in Hp' as [Hp'|Hp']; [done|].
        apply list_elem_of_singleton in Hp'. subst p'. exfalso. apply Hne.
        rewrite Hq'. unfold target, copy_target. by rewrite Htgt.
  - intros d Hd Hpre. apply elem_of_union in Hd as [Hd|Hd].
    + apply Hdirs in Hd as [Hd | (p' & Hp' & Hd)]; [by left | | done].
      right. exists p'. split; [apply elem_of_app; by left | done].
    + right. exists p. split; [apply elem_of_app; right; by constructor|].
      apply elem_of_list_to_set, elem_of_ancestors in Hd as [Hd _].
      unfold target, copy_target. 
      by rewrite Htgt, !app_assoc, dirname_snoc.
Qed.

Lemma copy_loop_inv l : forall done s,
  Forall listed done -> Forall listed l -> inv done s ->
  inv (done ++ l) (fold_left (copy_step input_folder output_folder) l s).
Proof.
  induction l as [|p l IH]; intros done s Hdone Hl Hinv; cbn [fold_left].
  - by rewrite app_nil_r.
  - apply Forall_cons in Hl as [Hp Hl].
    rewrite (cons_middle p), app_assoc. apply IH; [|done|].
    + apply Forall_app. split; [done | by constructor].
    + by apply copy_step_inv.
Qed.

(** The loop, started on an output folder that holds nothing: every file
    of the list is copied to its target, the output folder holds the
    copies and nothing else, and nothing outside it changes. *)
Lemma copy_loop_spec l fs2 :
  Forall listed l ->
  (forall q, output_folder `prefix_of` q -> files fs2 !! q = None) ->
  (forall q, ~ output_folder `prefix_of` q -> files fs2 !! q = files fs !! q) ->
  (forall d, d ∈ dirs fs2 -> output_folder `prefix_of` d -> d = output_folder) ->
  exists fs',
    fold_left (copy_step input_folder output_folder) l (O, fs2) = (length l, fs') /\
    (forall p, p ∈ l -> files fs' !! target p = files fs !! p) /\
    (forall q, output_folder `prefix_of` q -> is_file fs' q = true ->
       exists p, p ∈ l /\ q = target p) /\
    (forall q, ~ output_folder `prefix_of` q -> files fs' !! q = files fs !! q).
Proof.
  intros Hl Hnone Hframe Hdirs.
  destruct (fold_left (copy_step input_folder output_folder) l (O, fs2))
    as [n fs'] eqn:E.
  assert (inv [] (O, fs2)) as Hinit.
  { split; [done|]. split; [done|]. split.
    - intros q c Hq. simpl. rewrite Hnone by done. split; [done|].
      intros (p & Hp & _). by apply elem_of_nil in Hp.
    - intros d Hd Hq. left. by apply Hdirs. }
  pose proof (copy_loop_inv l [] (O, fs2) (List.Forall_nil _) Hl Hinit) as Hinv.
  rewrite E in Hinv. destruct Hinv as (Hn & Hframe' & Hfiles & _).
  simpl in Hn, Hframe', Hfiles.
  exists fs'. split; [by rewrite Hn|]. split; [|split; [|done]].
  - intros p Hp. rewrite Forall_forall in Hl.
    pose proof (Hl p Hp) as (r & file & Ep & Hf).
    apply is_file_lookup in Hf as [c Hc]. rewrite Hc.
    apply Hfiles; [|by exists p].
    rewrite Ep, target_listed. by apply prefix_app_r.
  - intros q Hq Hf. apply is_file_lookup in Hf as [c Hc].
    apply Hfiles in Hc as (p & Hp & -> & _); [|done]. by exists p.
Qed.

End CopyLoop.

(** ** [balance_samples] on the file system *)

Lemma select_samples_returns {P : PyRandom} walk pp af seed :
  let scanned := scan (fun root file => join root [file]) walk pp af in
  (length scanned.1 <= length scanned.2)%nat ->
  exists sel,
    select_samples walk pp af seed = Ok sel /\
    positive_files sel = scanned.1 /\ negative_files sel = scanned.2 /\
    sampled_negative_files sel
      = pick scanned.2 (sample_positions (length scanned.2) (length scanned.1)
                          (py_seed seed)).1 /\
    selected_files sel = scanned.1 ++ sampled_negative_files sel.
Proof.
  intros scanned Hle. unfold select_samples. fold scanned.
  destruct scanned as [pos neg]. simpl in *.
  replace (length neg <? length pos)%nat with false
    by (symmetry; apply Nat.ltb_ge; lia).
  unfold random_sample.
  replace (length pos <=? length neg)%nat with true
    by (symmetry; apply Nat.leb_le; lia).
  destruct (sample_positions _ _ _) as [positions st']. simpl.
  eexists. split; [reflexivity|]. done.
Qed.

(** The paths a scan returns are paths of listed files. *)
Lemma scan_listed fs input_folder walk pp af p :
  lists_files_of fs input_folder walk = true ->
  let scanned := scan (fun root file => join root [file]) walk pp af in
  p ∈ scanned.1 \/ p ∈ scanned.2 ->
  exists r file, p = input_folder ++ r ++ [file] /\ is_file fs p = true.
Proof.
  intros Hl scanned Hp. unfold lists_files_of in Hl. rewrite forallb_forall in Hl.
  assert (exists rf, In rf (walk_files walk) /\ p = join rf.1 [rf.2])
    as ([root file] & Hin & ->).
  { subst scanned. rewrite scan_spec in Hp. simpl in Hp.
    destruct Hp as [Hp|Hp]; apply list_elem_of_In, in_map_iff in Hp
      as (rf & <- & Hrf); apply filter_In in Hrf as [Hrf _]; by exists rf. }
  apply Hl in Hin. apply andb_true_iff in Hin as [Hpre Hf]. simpl in *.
  apply bool_decide_eq_true in Hpre as [r ->].
  exists r, file. unfold join in *. by rewrite <- app_assoc in *.
Qed.

Lemma balance_samples_unfold {P : PyRandom} walk input_folder output_folder
    pp af seed fs sel fs1 fs2 :
  select_samples walk pp af seed = Ok sel ->
  (if path_exists fs output_folder then rmtree output_folder fs else Ok fs) = Ok fs1 ->
  makedirs output_folder fs1 = Ok fs2 ->
  balance_samples walk input_folder output_folder pp af seed fs =
    (Ok (sel, (fold_left (copy_step input_folder output_folder)
                 (selected_files sel) (O, fs2)).1),
     (fold_left (copy_step input_folder output_folder)
        (selected_files sel) (O, fs2)).2).
Proof.
  intros Hs H1 H2. unfold balance_samples. rewrite Hs, H1, H2.
  by destruct (fold_left _ _ _).
Qed.

(** ** Frames: what the three operations leave alone *)

Lemma copy_step_frame input_folder output_folder s p :
  forall q, ~ output_folder `prefix_of` q ->
    files (copy_step input_folder output_folder s p).2 !! q = files s.2 !! q.
Proof.
  intros q Hq. destruct s as [n fs]. unfold copy_step.
  destruct (makedirs _ fs) as [fs1|e] eqn:Hm; [|done].
  apply makedirs_Ok in Hm as [_ ->]. unfold copy2. simpl.
  destruct (files fs !! p) as [c|]; [|done].
  match goal with |- context [bool_decide ?X] => destruct (bool_decide X) end;
    [done|].
  match goal with |- context [write_file ?t c ?f] =>
    destruct (write_file t c f) as [fs2|e] eqn:Hw;
    [apply write_file_Ok in Hw as (_ & _ & ->) | done];
    assert (output_folder `prefix_of` t) as Ht
  end.
  { unfold join. destruct (is_dir _ _); [rewrite <- app_assoc|];
      by apply prefix_app_r. }
  simpl. rewrite lookup_insert_ne; [done|]. by intros <-.
Qed.

Lemma copy_loop_frame input_folder output_folder l : forall s q,
  ~ output_folder `prefix_of` q ->
  files (fold_left (copy_step input_folder output_folder) l s).2 !! q
    = files s.2 !! q.
Proof.
  induction l as [|p l IH]; intros s q Hq; cbn [fold_left]; [done|].
  rewrite IH by done. by apply copy_step_frame.
Qed.

Lemma balance_samples_frame {P : PyRandom} walk input_folder output_folder
    pp af seed fs q :
  ~ output_folder `prefix_of` q ->
  files (balance_samples walk input_folder output_folder pp af seed fs).2 !! q
    = files fs !! q.
Proof.
  intros Hq. unfold balance_samples.
  destruct (select_samples walk pp af seed) as [sel|e]; [|done].
  destruct (if path_exists fs output_folder then rmtree output_folder fs else Ok fs)
    as [fs1|e] eqn:H1; [|done].
  assert (files fs1 !! q = files fs !! q) as E1.
  { destruct (path_exists fs output_folder); [|by injection H1 as <-].
    apply rmtree_Ok in H1 as (_ & _ & Hout & _). by apply Hout. }
  destruct (makedirs output_folder fs1) as [fs2|e] eqn:H2; [|done].
  apply makedirs_Ok in H2 as [_ ->].
  pose proof (copy_loop_frame input_folder output_folder (selected_files sel)
                (O, mkFS (dirs fs1 ∪ list_to_set (ancestors output_folder)) (files fs1))
                q Hq) as Hl.
  destruct (fold_left _ _ _) as [n fs3]. simpl in *. congruence.
Qed.

Lemma write_labels_frame folder fl : forall fs q,
  (forall nd, nd ∈ fl -> q <> folder ++ [nd.1]) ->
  files (write_labels folder fl fs).2 !! q = files fs !! q.
Proof.
  induction fl as [|[name data] fl IH]; intros fs q Hq; cbn [write_labels]; [done|].
  destruct (write_file (join folder [name]) (Labels data) fs) as [fs1|e] eqn:Hw;
    [|done].
  rewrite IH by (intros nd Hnd; apply Hq; by constructor).
  apply write_file_Ok in Hw as (_ & _ & ->). simpl.
  rewrite lookup_insert_ne; [done|].
  intros <-. by apply (Hq (name, data)); [constructor|].
Qed.

(** A full sample: [k] distinct positions out of [k] are all of them. *)
Lemma NoDup_full_Permutation (positions : list nat) n :
  length positions = n -> NoDup positions ->
  Forall (fun i => (i < n)%nat) positions ->
  positions ≡ₚ seq 0 n.
Proof.
  intros Hlen Hnd Hr. apply submseteq_length_Permutation.
  - apply NoDup_submseteq; [done|]. intros i Hi.
    rewrite Forall_forall in Hr. apply elem_of_seq. specialize (Hr i Hi). lia.
  - by rewrite length_seq, Hlen.
Qed.

(** ** The label files *)

Section LabelFacts.
Context {P : PyRandom}.

(** The slices and the label records of a report, from its shuffled
    lists and sizes. *)
Lemma assign_splits_labels walk ratio pp af seed report :
  assign_splits walk ratio pp af seed = Ok report ->
  p_split report = split3 (positive_samples report)
                     (dev (p_num report)) (test (p_num report)) /\
  n_split report = split3 (negative_samples report)
                     (dev (n_num report)) (test (n_num report)) /\
  p_labels report = ClassSplit (build_label_list (dev (p_split report)) 0)
                               (build_label_list (test (p_split report)) 0)
                               (build_label_list (train (p_split report)) 0) /\
  n_labels report = ClassSplit (build_label_list (dev (n_split report)) (-1))
                               (build_label_list (test (n_split report)) (-1))
                               (build_label_list (train (n_split report)) (-1)).
Proof.
  destruct ratio as [[d t] r]. unfold assign_splits.
  destruct (scan _ walk pp af) as [pos neg]. intros H.
  apply bind_Ok in H as (pd & Hpd & H). apply bind_Ok in H as (pt & Hpt & H).
  apply bind_Ok in H as (nd & Hnd & H). apply bind_Ok in H as (nt & Hnt & H).
  destruct (random_shuffle pos (py_seed seed)) as [ps st1].
  destruct (random_shuffle neg st1) as [ns st2].
  injection H as <-. done.
Qed.

End LabelFacts.

Lemma slice_bound_le n i : (slice_bound n i <= n)%nat.
Proof. unfold slice_bound. destruct (i <? 0) eqn:E; lia. Qed.

Lemma elem_of_take_1 {A} (x : list A) n a : a ∈ take n x -> a ∈ x.
Proof. intros H. rewrite <- (take_drop n x). apply elem_of_app. by left. Qed.

Lemma elem_of_drop_1 {A} (x : list A) n a : a ∈ drop n x -> a ∈ x.
Proof. intros H. rewrite <- (take_drop n x). apply elem_of_app. by right. Qed.

Lemma split3_subseteq {A} (x : list A) dev_num test_num :
  dev (split3 x dev_num test_num) ⊆ x /\
  test (split3 x dev_num test_num) ⊆ x /\
  train (split3 x dev_num test_num) ⊆ x.
Proof.
  unfold split3, slice_to, slice, slice_from. simpl.
  split; [|split]; intros a Ha.
  - by eapply elem_of_take_1.
  - eapply elem_of_drop_1, elem_of_take_1, Ha.
  - by eapply elem_of_drop_1.
Qed.

Lemma random_shuffle_subseteq {P : PyRandom} {A} (x : list A) st :
  (random_shuffle x st).1 ⊆ x.
Proof.
  unfold random_shuffle. destruct (shuffle_order _ _) as [order st']. simpl.
  apply pick_subseteq.
Qed.

Lemma elem_of_build_label_list l sample_list keyword :
  l ∈ build_label_list sample_list keyword ->
  utt_id l ∈ sample_list /\ speaker_id l = utt_id l /\ keyword_id l = keyword.
Proof.
  unfold build_label_list. intros H.
  apply list_elem_of_In, in_map_iff in H as (utt & <- & Hin). simpl.
  split; [by apply list_elem_of_In | done].
Qed.

(** Writing the label files one after the other. *)
Lemma write_labels_spec folder fl : forall fs,
  NoDup fl.*1 ->
  is_dir fs folder = true ->
  Forall (fun nd => is_dir fs (folder ++ [nd.1]) = false) fl ->
  exists fs',
    write_labels folder fl fs = (Ok (), fs') /\
    dirs fs' = dirs fs /\
    (forall name data, (name, data) ∈ fl ->
       files fs' !! (folder ++ [name]) = Some (Labels data)) /\
    (forall q, (forall nd, nd ∈ fl -> q <> folder ++ [nd.1]) ->
       files fs' !! q = files fs !! q).
Proof.
  induction fl as [|[name data] fl IH]; intros fs Hnd Hdir Hfl.
  - exists fs. split; [done|]. split; [done|]. split; [|done].
    intros ? ? H. by apply elem_of_nil in H.
  - apply NoDup_cons in Hnd as [Hname Hnd]. apply Forall_cons in Hfl as [Hn Hfl].
    simpl in Hn. cbn [write_labels]. unfold join.
    assert (write_file (folder ++ [name]) (Labels data) fs
            = Ok (mkFS (dirs fs) (<[folder ++ [name] := Labels data]> (files fs))))
      as ->.
    { apply write_file_Ok. by rewrite dirname_snoc. }
    set (fs1 := mkFS _ _).
    destruct (IH fs1) as (fs' & Hw & Hd & Hin & Hout); [done | done | done |].
    exists fs'. split; [done|]. split; [done|]. split.
    + intros name' data' H. apply elem_of_cons in H as [[= -> ->]|H].
      * rewrite Hout; [subst fs1; simpl; by rewrite lookup_insert_eq|].
        intros [n d] Hnd' E. apply app_inj_tail in E as [_ E]. simpl in E. subst n.
        apply Hname. apply list_elem_of_fmap. by exists (name, d).
      * by apply Hin.
    + intros q Hq. rewrite Hout.
      * subst fs1. simpl. rewrite lookup_insert_ne; [done|].
        intros <-. apply (Hq (name, data)); [by constructor | done].
      * intros nd Hnd'. apply Hq. by constructor.
Qed.

Lemma label_files_names report :
  (label_files report).*1
  = ["p_dev.json"; "p_test.json"; "p_train.json";
     "n_dev.json"; "n_test.json"; "n_train.json"]%string.
Proof. reflexivity. Qed.

Lemma makedirs_child d x fs :
  is_dir fs (d ++ [x]) = false ->
  is_dir (mkFS (dirs fs ∪ list_to_set (ancestors d)) (files fs)) (d ++ [x]) = false.
Proof.
  unfold is_dir. simpl. rewrite !orb_false_iff, !bool_decide_eq_false.
  intros [Hroot Hnd]. split; [done|]. intros Hd.
  apply elem_of_union in Hd as [Hd|Hd]; [done|].
  apply elem_of_list_to_set, elem_of_ancestors in Hd as [Hd _].
  apply prefix_length in Hd. rewrite length_app in Hd. simpl in Hd. lia.
Qed.

Lemma split3_zero {A} (x : list A) : split3 x 0 0 = ClassSplit [] [] x.
Proof.
  unfold split3, slice_to, slice, slice_from, slice_bound.
  change (0 + 0) with 0. change (0 <? 0) with false. cbv iota.
  replace (Z.to_nat (Z.min 0 (Z.of_nat (length x)))) with O by lia.
  done.
Qed.

(** ** Rounding never loses a positive value *)

Lemma Zdigits2_le x n : 0 < x -> x < 2 ^ n -> 0 <= n -> Zdigits2 x <= n.
Proof.
  intros Hx Hlt Hn. destruct (Zdigits2_bounds x Hx) as [[Hlo _] Hd].
  destruct (Z_le_gt_dec (Zdigits2 x) n) as [|Hgt]; [done|].
  assert (2 ^ n <= 2 ^ (Zdigits2 x - 1)) by (apply Z.pow_le_mono_r; lia). lia.
Qed.

Lemma shr_fexp_small m e l :
  Zdigits2 m <= 53 -> -1074 <= e ->
  shr_fexp prec emax m e l = (shr_record_of_loc m l, e).
Proof.
  intros Hd He. unfold shr_fexp, fexp, emin, shr.
  destruct (Z.max (Zdigits2 m + e - prec) (3 - emax - prec) - e) as [|p|p] eqn:E;
    try done.
  unfold prec, emax in E. lia.
Qed.

(** The second step of [binary_round_aux], on a mantissa of at most 53
    bits or on [2^53]. *)
Lemma round_finish_positive m1 e1 :
  0 < m1 <= 2 ^ 53 -> -1000 <= e1 <= 900 ->
  exists m e2,
    (let '(mrs, e) := shr_fexp prec emax m1 e1 loc_Exact in
     match shr_m mrs with
     | Z0 => S754_zero false
     | Zpos m => if e <=? emax - prec then S754_finite false m e
                 else S754_infinity false
     | Zneg _ => S754_nan
     end) = S754_finite false m e2 /\
    e1 <= e2 <= e1 + 1 /\ Zpos m < 2 ^ 53.
Proof.
  intros Hm He. destruct (Z_lt_le_dec m1 (2 ^ 53)) as [Hlt|Hge].
  - rewrite shr_fexp_small; [|apply Zdigits2_le; lia|lia].
    rewrite shr_m_of_loc. destruct m1 as [|p|p]; try lia.
    replace (e1 <=? emax - prec) with true by (unfold emax, prec; lia).
    exists p, e1. split; [done|]. split; [lia | done].
  - assert (m1 = 2 ^ 53) as -> by lia.
    rewrite shr_fexp_once; [|reflexivity|lia].
    replace (e1 + 1 <=? emax - prec) with true by (unfold emax, prec; lia).
    eexists _, (e1 + 1). split; [reflexivity|]. split; [lia | reflexivity].
Qed.

Lemma round_aux_positive q e loc :
  0 < q -> q < 2 ^ 200 -> -1000 <= e <= 500 ->
  exists m e2,
    binary_round_aux prec emax false q e loc = S754_finite false m e2 /\
    e <= e2 <= e + 201 /\ Zpos m < 2 ^ 53.
Proof.
  intros Hq Hbig He. unfold binary_round_aux.
  destruct (Zdigits2_bounds q Hq) as [[Hlo Hhi] Hd1].
  pose proof (Zdigits2_le q 200 Hq Hbig ltac:(lia)) as Hd200.
  set (d := Zdigits2 q) in *.
  assert (exists m1 e1,
            (let '(mrs', e') := shr_fexp prec emax q e loc in
             (round_nearest_even (shr_m mrs') (loc_of_shr_record mrs'), e'))
            = (m1, e1) /\ 0 < m1 <= 2 ^ 53 /\ e <= e1 <= e + 200)
    as (m1 & e1 & E1 & Hm1 & He1).
  { destruct (Z_le_gt_dec d 53) as [Hle|Hgt].
    - rewrite shr_fexp_small by (fold d; lia).
      rewrite shr_m_of_loc, loc_of_shr_of_loc.
      eexists _, e. split; [reflexivity|]. split; [|lia].
      pose proof (round_between q loc).
      assert (q < 2 ^ 53); [|lia].
      assert (2 ^ d <= 2 ^ 53) by (apply Z.pow_le_mono_r; lia). lia.
    - assert (exists n, d = 53 + Zpos n) as [n Hn].
      { destruct (d - 53) as [|n|n] eqn:E; try lia. exists n. lia. }
      destruct (shr_fexp_cut q e loc n ltac:(lia) Hn ltac:(lia)) as [Ee Em].
      destruct (shr_fexp prec emax q e loc) as [mrs' e']. simpl in Ee, Em.
      eexists _, e'. split; [reflexivity|].
      pose proof (round_between (shr_m mrs') (loc_of_shr_record mrs')).
      assert (0 < 2 ^ Zpos n) by (apply Z.pow_pos_nonneg; lia).
      assert (2 ^ 52 <= q / 2 ^ Zpos n < 2 ^ 53).
      { assert (2 ^ (d - 1) = 2 ^ 52 * 2 ^ Zpos n) as E1
          by (rewrite <- Z.pow_add_r by lia; f_equal; lia).
        assert (2 ^ d = 2 ^ 53 * 2 ^ Zpos n) as E2
          by (rewrite <- Z.pow_add_r by lia; f_equal; lia).
        split; [apply Z.div_le_lower_bound; lia | apply Z.div_lt_upper_bound; lia]. }
      split; lia. }
  destruct (shr_fexp prec emax q e loc) as [mrs' e'].
  injection E1 as -> ->.
  destruct (round_finish_positive _ e1 Hm1 ltac:(lia)) as (m & e2 & Hf & He2 & Hm).
  exists m, e2. split; [exact Hf|]. split; [lia | done].
Qed.

(** The quotient of two positive integers below [2^53] is a positive
    finite value. *)
Lemma truediv_positive a b :
  0 < a < 2 ^ 53 -> 0 < b < 2 ^ 53 ->
  exists m e, py_truediv a b = Ok (S754_finite false m e) /\
              -200 <= e <= 200 /\ Zpos m < 2 ^ 53.
Proof.
  intros Ha Hb. unfold py_truediv. replace (b =? 0) with false by lia.
  destruct (Zdigits2_bounds a ltac:(lia)) as [[Ba1 Ba2] Da].
  destruct (Zdigits2_bounds b ltac:(lia)) as [[Bb1 Bb2] Db].
  pose proof (Zdigits2_le a 53 ltac:(lia) ltac:(lia) ltac:(lia)) as Da'.
  pose proof (Zdigits2_le b 53 ltac:(lia) ltac:(lia) ltac:(lia)) as Db'.
  destruct a as [|pa|pa]; try lia. destruct b as [|pb|pb]; try lia.
  cbn [int_float].
  set (a := Zpos pa) in *. set (b := Zpos pb) in *.
  set (d1 := Zdigits2 a) in *. set (d2 := Zdigits2 b) in *.
  unfold div, SFdiv, SFdiv_core_binary. fold a b d1 d2. cbv zeta.
  assert (Z.min (fexp prec emax (d1 + 0 - (d2 + 0))) (0 - 0) = d1 - d2 - 53) as ->.
  { unfold fexp, emin, prec, emax. lia. }
  set (s := 53 + d2 - d1).
  replace (0 - 0 - (d1 - d2 - 53)) with s by (subst s; lia).
  assert (0 < s) as Hs by (subst s; lia).
  destruct s as [|ps|ps] eqn:Es; try lia.
  rewrite <- Es. rewrite Z.shiftl_mul_pow2 by lia.
  assert (Z.div_eucl (a * 2 ^ s) b = ((a * 2 ^ s) / b, (a * 2 ^ s) mod b)) as ->.
  { unfold Z.div, Z.modulo. by destruct (Z.div_eucl (a * 2 ^ s) b). }
  set (q := a * 2 ^ s / b).
  assert (0 < 2 ^ s) as HS by (apply Z.pow_pos_nonneg; lia).
  assert (2 ^ 52 <= q < 2 ^ 54) as Hq.
  { assert (2 ^ s * 2 ^ (d1 - 1) = 2 ^ 52 * 2 ^ d2) as E1.
    { rewrite <- !Z.pow_add_r by lia. f_equal. subst s. lia. }
    assert (2 ^ s * 2 ^ d1 = 2 ^ 54 * 2 ^ (d2 - 1)) as E2.
    { rewrite <- !Z.pow_add_r by lia. f_equal. subst s. lia. }
    split.
    - apply Z.div_le_lower_bound; [lia|]. nia.
    - apply Z.div_lt_upper_bound; [lia|]. nia. }
  destruct (round_aux_positive q (d1 - d2 - 53)
              (new_location b ((a * 2 ^ s) mod b)))
    as (m & e2 & Hround & He2 & Hm); [lia | | lia |].
  { assert (2 ^ 54 <= 2 ^ 200) by (apply Z.pow_le_mono_r; lia). lia. }
  exists m, e2. split; [|split; [lia | done]].
  change (xorb false false) with false.
  by rewrite Hround.
Qed.

(** The product of two positive finite values of moderate exponent is
    a positive finite value. *)
Lemma mul_positive m1 e1 m2 e2 :
  Zpos m1 < 2 ^ 53 -> Zpos m2 < 2 ^ 53 ->
  -250 <= e1 <= 250 -> -250 <= e2 <= 250 ->
  exists m e, mul (S754_finite false m1 e1) (S754_finite false m2 e2)
              = S754_finite false m e.
Proof.
  intros H1 H2 He1 He2. unfold mul, SFmul. simpl xorb.
  destruct (round_aux_positive (Zpos (m1 * m2)) (e1 + e2) loc_Exact)
    as (m & e & -> & _); [lia | | lia | by exists m, e].
  rewrite Pos2Z.inj_mul.
  assert (2 ^ 53 * 2 ^ 53 <= 2 ^ 200) by (rewrite <- Z.pow_add_r by lia;
                                           apply Z.pow_le_mono_r; lia).
  nia.
Qed.

Lemma rfftfreq_returns n sr :
  (0 < n)%nat -> Z.of_nat n < 2 ^ 53 -> 0 < sr < 2 ^ 53 ->
  exists d freq,
    py_truediv 1 sr = Ok d /\ rfftfreq n d = Ok freq /\
    length freq = (n / 2 + 1)%nat.
Proof.
  intros Hn Hbig Hsr.
  destruct (truediv_positive 1 sr ltac:(lia) Hsr) as (m & e & Hd & He & Hm).
  destruct (of_Z_exact (Z.of_nat n) ltac:(lia)) as (mL & EL & _ & HmL).
  destruct (Zdigits2_bounds (Z.of_nat n) ltac:(lia)) as [_ Hd1].
  pose proof (Zdigits2_le (Z.of_nat n) 53 ltac:(lia) Hbig ltac:(lia)) as Hd53.
  destruct (mul_positive mL (Zdigits2 (Z.of_nat n) - 53) m e)
    as (mp & ep & Hmul); [lia | done | lia | lia |].
  exists (S754_finite false m e). unfold rfftfreq, py_float. rewrite EL.
  rewrite bind_Ok_l, Hmul. unfold py_fdiv. simpl is_zero. cbv iota.
  rewrite bind_Ok_l. eexists. split; [done|]. split; [reflexivity|].
  by rewrite length_map, length_seq.
Qed.

Section PinkReturns.
Context {R : NumpyRandom} {F : NumpyFFT}.
Hypothesis HR : random_contract R.
Hypothesis HF : fft_contract F.

Lemma pink_noise_returns y sr st :
  fft_accepts F (length y) ->
  y <> [] -> Nat.even (length y) = true ->
  Z.of_nat (length y) < 2 ^ 53 -> 0 < sr < 2 ^ 53 ->
  exists n, noise "pink" y sr st = Ok n /\ length n = length y.
Proof.
  intros [Hr Hi] Hy Hev HL Hsr.
  destruct HR as (Hnorm & _), HF as (Hrc & Hic).
  unfold noise. simpl String.eqb. cbv iota.
  set (white := (np_normal zero one (length y) st).1).
  assert (length white = length y) as Hw by apply Hnorm.
  assert (2 <= length y)%nat as Htwo.
  { destruct y as [|y0 [|y1 y]]; [done | discriminate Hev | simpl; lia]. }
  pose proof (Hr white Hw ltac:(lia)) as Hok.
  destruct (rfft white) as [X|e] eqn:EX; [clear Hok | done].
  rewrite bind_Ok_l.
  destruct (Hrc _ _ EX) as [_ HX]. rewrite Hw in HX.
  destruct (rfftfreq_returns (length y) sr) as (d & freq & Hd & Hfr & Hfreq);
    [destruct y; [done | simpl; lia] | done | done |].
  rewrite Hd, bind_Ok_l, Hfr, bind_Ok_l.
  set (den := map _ (map _ freq)).
  assert (length den = length X) as Hden
    by (subst den; by rewrite !length_map, Hfreq, HX).
  unfold broadcast_to. rewrite <- Hden, Nat.eqb_refl, bind_Ok_l.
  set (X' := zip_with np_cdiv X den).
  assert (length X' = (length y / 2 + 1)%nat) as HX'
    by (subst X'; rewrite length_zip_with_l_eq; [done | by rewrite Hden]).
  pose proof (Hi X' HX' Htwo) as Hok.
  destruct (irfft X') as [n|e] eqn:En; [clear Hok | done].
  exists n. split; [done|]. destruct (Hic _ _ En) as [_ ->]. rewrite HX'.
  apply Nat.even_spec in Hev as [k Hk]. rewrite Hk.
  replace (2 * k / 2)%nat with k; [lia|].
  apply (Nat.div_unique _ _ _ 0%nat); lia.
Qed.

Lemma noisy_y_pink_returns y sr noise_level seed :
  fft_accepts F (length y) ->
  y <> [] -> Nat.even (length y) = true ->
  Z.of_nat (length y) < 2 ^ 53 -> 0 < sr < 2 ^ 53 -> 0 <= seed < 2 ^ 32 ->
  exists out, noisy_y y sr "pink" noise_level seed = Ok (out, sr) /\
              length out = length y.
Proof.
  intros Hacc Hy Hev HL Hsr Hseed.
  destruct (pink_noise_returns y sr (np_seed seed) Hacc Hy Hev HL Hsr)
    as (n & Hn & Hlen).
  destruct (overlay_same_length y noise_level n) as [out Hout]; [|done|].
  { intros ->. by destruct y. }
  exists out. split; [|by apply (overlay_length _ _ _ _ Hout)].
  unfold noisy_y, np_random_seed.
  replace ((0 <=? seed) && (seed <? 2 ^ 32)) with true by lia.
  by rewrite bind_Ok_l, Hn, bind_Ok_l, Hout.
Qed.

End PinkReturns.

Lemma dft2_accepts_two : fft_accepts dft2 2.
Proof.
  split; intros x Hx _; destruct x as [|a [|b [|c x]]]; try discriminate Hx;
    reflexivity.
Qed.

(** ** Runs on concrete inputs *)

Example splitext_runs :
  splitext "a.b.wav" = ("a.b", ".wav")%string /\
  splitext "clip.FLAC" = ("clip", ".FLAC")%string /\
  splitext ".wav" = (".wav", "")%string /\
  splitext "readme" = ("readme", "")%string.
Proof. repeat split; reflexivity. Qed.

Example selected_runs :
  selected "base_1.wav" = true /\ selected "aug3.FLAC" = true /\
  selected "neg_1.wav" = false /\ selected "base.txt" = false /\
  selected "Base_1.wav" = false.
Proof. repeat split; reflexivity. Qed.

Example relpath_runs :
  relpath ["data"; "a"; "x.wav"]%string ["data"]%string = ["a"; "x.wav"]%string /\
  relpath ["other"; "x.wav"]%string ["data"; "in"]%string
    = [".."; ".."; "other"; "x.wav"]%string.
Proof. split; reflexivity. Qed.

Example slice_runs :
  slice_to [1; 2; 3; 4] 3 = [1; 2; 3] /\ slice [1; 2; 3; 4] 3 2 = [] /\
  slice_from [1; 2; 3; 4] (-1) = [4] /\ slice_to [1; 2; 3; 4] (-1) = [1; 2; 3].
Proof. repeat split; reflexivity. Qed.

(** [length = 10000] gives ten impulses. *)
Example num_impulses_ten_thousand : num_impulses (repeat zero (Z.to_nat 10000)) = Ok 10.
Proof. vm_compute. reflexivity. Qed.

Example split_num_runs :
  split_num 2 1 10 = Ok 0 /\ split_num 25 1 10 = Ok 2 /\
  split_num 4 (-1) 3 = Ok (-1) /\ split_num 7 1 0 = Raise ZeroDivisionError.
Proof. repeat split; vm_compute; reflexivity. Qed.

(** The end-to-end example: two positive and three negative files, ratio
    1:1:8.  Two negatives are kept; each class of two stems goes to train
    whole. *)
Example end_to_end_selection :
  exists sel,
    select_samples (P:=lcg_python) example_corpus default_prefixes
      supported_formats 42 = Ok sel /\
    length (positive_files sel) = 2%nat /\
    length (sampled_negative_files sel) = 2%nat /\
    length (selected_files sel) = 4%nat.
Proof. eexists. split; [vm_compute; reflexivity|]. repeat split; reflexivity. Qed.

Example end_to_end_split :
  exists report,
    assign_splits (P:=lcg_python)
      [(["balanced"], ["base_1.wav"; "aug_1.wav"; "neg_1.wav"; "neg_3.wav"])]%string
      (1, 1, 8) default_prefixes supported_formats 42 = Ok report /\
    p_num report = ClassSplit 0 0 2 /\ n_num report = ClassSplit 0 0 2 /\
    dev (p_labels report) = [] /\ test (p_labels report) = [] /\
    dev (n_labels report) = [] /\ test (n_labels report) = [] /\
    length (train (p_labels report)) = 2%nat /\
    length (train (n_labels report)) = 2%nat.
Proof. eexists. split; [vm_compute; reflexivity|]. repeat split; reflexivity. Qed.

(** * The claims *)

(** ** Noise mixing *)

(** C1.  Whatever the noise kind, a waveform that [add_noise_to_audio]
    produces has as many samples as the input and is written with the
    input's sample rate. *)
Theorem noisy_y_preserves_length_and_rate (R : NumpyRandom) (F : NumpyFFT)
    (y : list float) (sr : Z) (noise_type : string) (noise_level : float)
    (seed : Z) (out : list float) (sr' : Z) :
  random_contract R -> fft_contract F ->
  noisy_y y sr noise_type noise_level seed = Ok (out, sr') ->
  length out = length y /\ sr' = sr.
Proof. intros HR HF. by apply noisy_y_shape. Qed.

Lemma noisy_y_preserves_length_and_rate_witness :
  random_contract lcg_numpy /\ fft_contract dft2 /\
  exists out,
    noisy_y (R:=lcg_numpy) (F:=dft2) short_wave 16000 "white" (ratio 2 100) 42
      = Ok (out, 16000) /\
    length out = length short_wave /\ 16000 = 16000.
Proof.
  split; [exact lcg_numpy_contract|]. split; [exact dft2_contract|].
  eexists. split; [vm_compute; reflexivity|].
  exact (noisy_y_preserves_length_and_rate lcg_numpy dft2 short_wave 16000
           "white" (ratio 2 100) 42 _ 16000 lcg_numpy_contract dft2_contract
           eq_refl).
Defined.

(** C2 (the code departs from the claim).  An all-zero noise sequence is
    not rejected: normalising it divides zero by zero, nothing is raised,
    and the waveform handed on consists of NaN only. *)
Theorem all_zero_noise_yields_nan (y : list float) (noise_level : float)
    (n : list float) :
  n <> [] -> Forall (fun x => is_zero x = true) n -> length n = length y ->
  overlay y noise_level n = Ok (replicate (length y) nan).
Proof. apply overlay_zeros. Qed.

Lemma all_zero_noise_yields_nan_witness :
  [zero; zero] <> [] /\
  Forall (fun x => is_zero x = true) [zero; zero] /\
  length [zero; zero] = length pair_wave /\
  overlay pair_wave (ratio 2 100) [zero; zero] = Ok [nan; nan].
Proof.
  assert ([zero; zero] <> []) as H1 by discriminate.
  assert (Forall (fun x => is_zero x = true) [zero; zero]) as H2
    by (repeat constructor).
  assert (length [zero; zero] = length pair_wave) as H3 by reflexivity.
  split; [exact H1|]. split; [exact H2|]. split; [exact H3|].
  exact (all_zero_noise_yields_nan pair_wave (ratio 2 100) [zero; zero] H1 H2 H3).
Defined.

(** C3 (the code departs from the claim).  For a waveform of fewer than
    a thousand samples the impulse noise has no impulse: every sample of
    the result is NaN, which lies outside [[-1, 1]]. *)
Theorem short_impulse_waveform_is_nan (R : NumpyRandom) (F : NumpyFFT)
    (y : list float) (sr : Z) (noise_level : float) (seed : Z) :
  random_contract R ->
  y <> [] -> (length y < 1000)%nat -> 0 <= seed < 2 ^ 32 ->
  noisy_y y sr "impulse" noise_level seed = Ok (replicate (length y) nan, sr) /\
  within minus_one one nan = false.
Proof. intros HR Hy Hl Hs. split; [by apply noisy_y_short_impulse | reflexivity]. Qed.

Lemma short_impulse_waveform_is_nan_witness :
  random_contract lcg_numpy /\ short_wave <> [] /\
  (length short_wave < 1000)%nat /\ 0 <= 42 < 2 ^ 32 /\
  noisy_y (R:=lcg_numpy) (F:=dft2) short_wave 16000 "impulse" (ratio 2 100) 42
    = Ok ([nan; nan; nan], 16000) /\
  within minus_one one nan = false.
Proof.
  assert (short_wave <> []) as H1 by discriminate.
  assert (length short_wave < 1000)%nat as H2 by (simpl; lia).
  assert (0 <= 42 < 2 ^ 32) as H3 by lia.
  split; [exact lcg_numpy_contract|]. split; [exact H1|]. split; [exact H2|].
  split; [exact H3|].
  exact (short_impulse_waveform_is_nan lcg_numpy dft2 short_wave 16000
           (ratio 2 100) 42 lcg_numpy_contract H1 H2 H3).
Defined.

(** C8.  Impulse noise for a waveform of [L < 2^50] samples: exactly
    [L / 1000] positions are drawn with [randint(0, L, .)], all inside
    [[0, L)], and as many amplitudes with [normal(0, 5, .)]; the noise has
    [L] entries, entry [j] holds the amplitude assigned last to position
    [j] and is zero where none was, and at most [L / 1000] entries are
    not zero. *)
Theorem impulse_noise_layout (R : NumpyRandom) (F : NumpyFFT)
    (y : list float) (sr : Z) (st : np_state) :
  random_contract R ->
  Z.of_nat (length y) < 2 ^ 50 ->
  let L := length y in
  let k := Z.to_nat (Z.of_nat L / 1000) in
  let positions := (np_randint 0 (Z.of_nat L) k st).1 in
  let st1 := (np_randint 0 (Z.of_nat L) k st).2 in
  let amplitudes := (np_normal zero (of_Z 5) k st1).1 in
  num_impulses y = Ok (Z.of_nat L / 1000) /\
  length positions = k /\ length amplitudes = k /\
  Forall (fun p => 0 <= p < Z.of_nat L) positions /\
  exists n, noise "impulse" y sr st = Ok n /\
            length n = L /\
            (forall j, (j < L)%nat ->
               n !! j = Some (default zero (last_write (zip positions amplitudes) j))) /\
            (count_nonzero n <= k)%nat.
Proof.
  intros HR HL. pose proof (num_impulses_floor y HL) as Hk.
  intros L k positions st1 amplitudes. split; [exact Hk|].
  exact (impulse_noise_written HR y sr st _ Hk).
Qed.

Lemma impulse_noise_layout_witness :
  random_contract lcg_numpy /\
  Z.of_nat (length (repeat zero 3000)) < 2 ^ 50 /\
  num_impulses (repeat zero 3000) = Ok 3 /\
  exists n, noise (R:=lcg_numpy) (F:=dft2) "impulse" (repeat zero 3000) 16000 42 = Ok n /\
            length n = 3000%nat /\ (count_nonzero n <= 3)%nat.
Proof.
  assert (Z.of_nat (length (repeat zero 3000)) < 2 ^ 50) as HL
    by (rewrite repeat_length; vm_compute; reflexivity).
  split; [exact lcg_numpy_contract|]. split; [exact HL|].
  destruct (impulse_noise_layout lcg_numpy dft2 (repeat zero 3000) 16000 42
              lcg_numpy_contract HL)
    as (Hk & _ & _ & _ & n & Hn & Hlen & _ & Hc).
  rewrite repeat_length in Hk, Hlen, Hc.
  split; [exact Hk|]. exists n. split; [exact Hn|]. split; [exact Hlen | exact Hc].
Defined.

(** C10, counterexample.  Two waveforms with the same two samples, read
    at 8000 Hz and at 16000 Hz, get different pink noise from the same
    seed. *)
Lemma pink_noise_depends_on_rate :
  length pair_wave = length pair_wave /\
  (np_random_seed (R:=lcg_numpy) 42 ≫= noise (F:=dft2) "pink" pair_wave 8000)
    = Ok [S754_finite true 7091834787450573 (-40);
          S754_finite true 7091865210859827 (-40)] /\
  (np_random_seed (R:=lcg_numpy) 42 ≫= noise (F:=dft2) "pink" pair_wave 16000)
    = Ok [S754_finite true 7091839242855705 (-40);
          S754_finite true 7091860755454695 (-40)].
Proof. split; [reflexivity|]. split; vm_compute; reflexivity. Qed.

(** C10, amended.  The noise depends on the noise kind, the number of
    samples, the seed and, for pink noise, the sample rate; the samples
    themselves play no part.  Two waveforms of equal length, and of equal
    sample rate when the noise is pink, get the same noise and the same
    normalised noise. *)
Theorem noise_fixed_by_kind_length_rate_seed (R : NumpyRandom) (F : NumpyFFT)
    (noise_type : string) (y1 y2 : list float) (sr1 sr2 : Z) (seed : Z) :
  length y1 = length y2 ->
  (noise_type = "pink"%string -> sr1 = sr2) ->
  (np_random_seed seed ≫= noise noise_type y1 sr1)
    = (np_random_seed seed ≫= noise noise_type y2 sr2) /\
  (st ← np_random_seed seed; n ← noise noise_type y1 sr1 st; normalize n)
    = (st ← np_random_seed seed; n ← noise noise_type y2 sr2 st; normalize n).
Proof.
  intros Hlen Hsr.
  assert (forall st, noise noise_type y1 sr1 st = noise noise_type y2 sr2 st) as Hn.
  { intros st. unfold noise, num_impulses. rewrite Hlen.
    destruct (String.eqb noise_type "white"); [done|].
    destruct (String.eqb_spec noise_type "pink") as [E|_]; [by rewrite (Hsr E)|].
    done. }
  assert ((np_random_seed seed ≫= noise noise_type y1 sr1)
          = (np_random_seed seed ≫= noise noise_type y2 sr2)) as H.
  { destruct (np_random_seed seed) as [st|e]; simpl; [apply Hn | done]. }
  split; [exact H|].
  destruct (np_random_seed seed) as [st|e]; simpl; [by rewrite Hn | done].
Qed.

Lemma noise_fixed_by_kind_length_rate_seed_witness :
  length short_wave = length [zero; one; minus_one] /\
  (("white" = "pink")%string -> 16000 = 8000) /\
  (np_random_seed (R:=lcg_numpy) 42 ≫= noise (F:=dft2) "white" short_wave 16000)
    = (np_random_seed (R:=lcg_numpy) 42
         ≫= noise (F:=dft2) "white" [zero; one; minus_one] 8000).
Proof.
  assert (length short_wave = length [zero; one; minus_one]) as H1 by reflexivity.
  assert (("white" = "pink")%string -> 16000 = 8000) as H2 by discriminate.
  split; [exact H1|]. split; [exact H2|].
  exact (proj1 (noise_fixed_by_kind_length_rate_seed lcg_numpy dft2 "white"
                  short_wave [zero; one; minus_one] 16000 8000 42 H1 H2)).
Defined.

(** C9.  [batch_process_audio_folder] hands to [add_noise_to_audio] the
    files the filter selects and no other: every rejected file adds one
    to the skip counter and leaves the processed counter and the file
    system as they are, so the run equals the run over the selected
    files alone.  A selected name starts with [base] or [aug]; a name
    that starts with neither is rejected, whatever its extension. *)
Theorem batch_processes_selected_only (R : NumpyRandom) (F : NumpyFFT)
    (float_str : float -> string) (walk : listing)
    (input_folder output_folder : path) (noise_type : string)
    (noise_level : float) (seed : Z) (fs : FS) :
  let full := batch_process_audio_folder float_str walk input_folder
                output_folder noise_type noise_level seed fs in
  let kept := batch_process_audio_folder float_str (keep_selected walk)
                input_folder output_folder noise_type noise_level seed fs in
  skipped_count full = rejected_count walk /\
  skipped_count kept = O /\
  processed_count full = processed_count kept /\
  batch_fs full = batch_fs kept /\
  Forall (fun d => Forall (fun file =>
            selected file = true /\
            (startswith file "base" = true \/ startswith file "aug" = true))
          d.2) (keep_selected walk) /\
  Forall (fun d => Forall (fun file =>
            startswith file "base" = false -> startswith file "aug" = false ->
            selected file = false) d.2) walk.
Proof.
  intros full kept.
  destruct (batch_filter float_str input_folder output_folder noise_type
              noise_level seed walk fs) as (H1 & H2 & H3 & H4).
  split; [exact H1|]. split; [exact H2|]. split; [exact H3|]. split; [exact H4|].
  split.
  - unfold keep_selected. apply List.Forall_map, Forall_forall. intros d _. simpl.
    apply Forall_forall. intros file Hf.
    apply list_elem_of_In, filter_In in Hf as [_ Hs].
    split; [done|]. by apply selected_prefix in Hs as [Hp _].
  - apply Forall_forall. intros d _. apply Forall_forall. intros file _.
    apply not_selected_other.
Qed.

(** ** Balancing *)

Lemma scan_negative_NoDup walk pp af :
  NoDup (walk_files walk) ->
  NoDup (scan (fun root file => join root [file]) walk pp af).2.
Proof.
  intros Hnd. rewrite scan_spec. simpl.
  apply (NoDup_fmap_2_strong (fun rf : path * string => join rf.1 [rf.2])).
  - intros [r1 f1] [r2 f2] _ _ E. unfold join in E. simpl in E.
    apply app_inj_tail in E as [-> ->]. done.
  - apply NoDup_ListNoDup, List.NoDup_filter. by apply NoDup_ListNoDup.
Qed.

(** C5.  With fewer negative than positive files [balance_samples]
    raises [ValueError] and the file system is as it was: the output
    folder is neither removed nor created nor written to. *)
Theorem balance_rejects_small_negative_pool (P : PyRandom) (walk : listing)
    (input_folder output_folder : path)
    (positive_prefixes audio_formats : list string) (random_seed : Z) (fs : FS) :
  let scanned := scan (fun root file => join root [file]) walk
                   positive_prefixes audio_formats in
  (length scanned.2 < length scanned.1)%nat ->
  balance_samples walk input_folder output_folder positive_prefixes
    audio_formats random_seed fs = (Raise ValueError, fs).
Proof.
  intros scanned Hlt. unfold balance_samples, select_samples. fold scanned.
  destruct scanned as [pos neg]. simpl in Hlt.
  by replace (length neg <? length pos)%nat with true
    by (symmetry; apply Nat.ltb_lt; lia).
Qed.

Lemma balance_rejects_small_negative_pool_witness :
  (length (scan (fun root file => join root [file]) lopsided_corpus
             default_prefixes supported_formats).2
   < length (scan (fun root file => join root [file]) lopsided_corpus
               default_prefixes supported_formats).1)%nat /\
  balance_samples (P:=lcg_python) lopsided_corpus ["data"]%string ["out"]%string
    default_prefixes supported_formats 42 empty_fs = (Raise ValueError, empty_fs).
Proof.
  assert (length (scan (fun root file => join root [file]) lopsided_corpus
                    default_prefixes supported_formats).2
          < length (scan (fun root file => join root [file]) lopsided_corpus
                      default_prefixes supported_formats).1)%nat as H
    by (vm_compute; lia).
  split; [exact H|].
  exact (balance_rejects_small_negative_pool lcg_python lopsided_corpus
           ["data"]%string ["out"]%string default_prefixes supported_formats 42
           empty_fs H).
Defined.

(** C6.  With at least as many negative as positive files the selection
    is made: it is the positive files followed by a sample of the
    negative ones; the sample has as many entries as there are positive
    files, every entry of it is a negative file, read at pairwise
    distinct positions of the negative list, so no file occurs twice in
    it when the traversal lists no file twice. *)
Theorem balanced_selection_sizes (P : PyRandom) (walk : listing)
    (positive_prefixes audio_formats : list string) (random_seed : Z) :
  py_random_contract P ->
  let scanned := scan (fun root file => join root [file]) walk
                   positive_prefixes audio_formats in
  (length scanned.1 <= length scanned.2)%nat ->
  exists sel,
    select_samples walk positive_prefixes audio_formats random_seed = Ok sel /\
    positive_files sel = scanned.1 /\
    negative_files sel = scanned.2 /\
    selected_files sel = positive_files sel ++ sampled_negative_files sel /\
    length (sampled_negative_files sel) = length (positive_files sel) /\
    Forall (fun p => exists file, last p = Some file /\
                       is_positive positive_prefixes file = true)
           (positive_files sel) /\
    Forall (fun p => exists file, last p = Some file /\
                       is_positive positive_prefixes file = false)
           (sampled_negative_files sel) /\
    sampled_negative_files sel ⊆ negative_files sel /\
    (exists positions,
        NoDup positions /\
        sampled_negative_files sel = pick (negative_files sel) positions) /\
    (NoDup (walk_files walk) -> NoDup (sampled_negative_files sel)).
Proof.
  intros HP scanned Hle.
  pose proof (scan_paths_positive walk positive_prefixes audio_formats) as Hpos.
  pose proof (scan_paths_negative walk positive_prefixes audio_formats) as Hneg.
  pose proof (scan_negative_NoDup walk positive_prefixes audio_formats) as Hnd.
  unfold select_samples. fold scanned in Hpos, Hneg, Hnd |- *.
  destruct scanned as [pos neg]. simpl in *.
  replace (length neg <? length pos)%nat with false
    by (symmetry; apply Nat.ltb_ge; lia).
  destruct (random_sample_spec HP neg (length pos) (py_seed random_seed) Hle)
    as (positions & st' & Hs & Hlen & Hdist & Hrange).
  rewrite Hs, bind_Ok_l. eexists. split; [reflexivity|]. simpl.
  split; [done|]. split; [done|]. split; [done|].
  split; [by rewrite pick_length|].
  split.
  { apply Forall_forall. intros p Hp. destruct (Hpos p Hp) as (f & Hl & _ & Hf). eauto. }
  split.
  { apply Forall_forall. intros p Hp. apply pick_subseteq in Hp.
    destruct (Hneg p Hp) as (f & Hl & _ & Hf). eauto. }
  split; [apply pick_subseteq|].
  split; [by exists positions|].
  intros Hw. apply pick_NoDup; [by apply Hnd | done].
Qed.

Lemma balanced_selection_sizes_witness :
  py_random_contract lcg_python /\
  (length (scan (fun root file => join root [file]) small_corpus
             default_prefixes supported_formats).1
   <= length (scan (fun root file => join root [file]) small_corpus
                default_prefixes supported_formats).2)%nat /\
  exists sel,
    select_samples (P:=lcg_python) small_corpus default_prefixes
      supported_formats 42 = Ok sel /\
    length (positive_files sel) = 4%nat /\
    length (sampled_negative_files sel) = 4%nat /\
    sampled_negative_files sel ⊆ negative_files sel.
Proof.
  assert (length (scan (fun root file => join root [file]) small_corpus
                    default_prefixes supported_formats).1
          <= length (scan (fun root file => join root [file]) small_corpus
                       default_prefixes supported_formats).2)%nat as H
    by (vm_compute; lia).
  split; [exact lcg_python_contract|]. split; [exact H|].
  destruct (balanced_selection_sizes lcg_python small_corpus default_prefixes
              supported_formats 42 lcg_python_contract H)
    as (sel & Hsel & Hp & _ & _ & Hlen & _ & _ & Hsub & _).
  exists sel. split; [exact Hsel|].
  assert (length (positive_files sel) = 4%nat) as H4 by (by rewrite Hp).
  split; [exact H4|]. split; [by rewrite Hlen | exact Hsub].
Defined.

(** ** Splitting *)

Section SplitClaims.
Context {P : PyRandom}.
Hypothesis HP : py_random_contract P.

Lemma split_correct_class d t r (class : list string) st pd pt :
  0 <= d -> 0 <= t -> 0 < d + t + r ->
  pd = Z.of_nat (length class) * d / (d + t + r) ->
  pt = Z.of_nat (length class) * t / (d + t + r) ->
  split_correct d t r class (random_shuffle class st).1
    (ClassSplit pd pt (Z.of_nat (length class) - pd - pt))
    (split3 (random_shuffle class st).1 pd pt).
Proof.
  intros Hd Ht HT Epd Ept.
  pose proof (random_shuffle_Permutation HP class st) as Hperm.
  set (x := (random_shuffle class st).1) in *.
  assert (0 <= pd) as Hpd by (subst pd; apply Z.div_pos; nia).
  assert (0 <= pt) as Hpt by (subst pt; apply Z.div_pos; nia).
  unfold split_correct. simpl dev. simpl test. simpl train.
  split; [done|]. split; [done|]. split; [done|]. split; [lia|].
  split; [done|].
  pose proof (split3_app x pd pt Hpd Hpt) as Happ. simpl in Happ.
  split; [exact Happ|]. split.
  - intros Hnd. rewrite Happ, Hperm. done.
  - intros Hr.
    destruct (split_sizes_fit (Z.of_nat (length class)) d t r) as (_ & _ & Hfit);
      try lia.
    assert (length x = length class) as Hlen by (by rewrite Hperm).
    pose proof (split3_lengths x pd pt Hpd Hpt) as Hl. simpl in Hl.
    rewrite Hlen in Hl. apply Hl. subst pd pt. exact Hfit.
Qed.

End SplitClaims.

(** C4, counterexample.  On a corpus of four keyword files and four other
    recordings, with seed 42, the negative stems end in the order
    [z; w; y; x].  A generator seeded afresh with 42 shuffles them to
    [z; y; x; w], the order in which it shuffled the positive stems. *)
Lemma negative_shuffle_not_reseeded :
  exists report,
    assign_splits (P:=lcg_python) small_corpus (1, 1, 8) default_prefixes
      supported_formats 42 = Ok report /\
    positive_samples report = ["aug_d"; "aug_c"; "base_b"; "base_a"]%string /\
    negative_samples report = ["z"; "w"; "y"; "x"]%string /\
    (random_shuffle (P:=lcg_python) ["w"; "x"; "y"; "z"]%string (py_seed 42)).1
      = ["z"; "y"; "x"; "w"]%string /\
    negative_samples report
      <> (random_shuffle (P:=lcg_python) ["w"; "x"; "y"; "z"]%string (py_seed 42)).1.
Proof.
  eexists. split; [vm_compute; reflexivity|].
  split; [reflexivity|]. split; [reflexivity|].
  split; [vm_compute; reflexivity|]. vm_compute. discriminate.
Qed.

(** C4, amended.  The generator is seeded once, when the function starts.
    The positive stems are shuffled from that state, and the negative
    stems from the state the first shuffle leaves behind. *)
Theorem shuffles_share_one_generator (P : PyRandom) (walk : listing)
    (split_ratio : Z * Z * Z) (positive_prefixes audio_formats : list string)
    (random_seed : Z) (report : split_report) :
  assign_splits walk split_ratio positive_prefixes audio_formats random_seed
    = Ok report ->
  let stems := scan (fun _ file => (splitext file).1) walk
                 positive_prefixes audio_formats in
  let first := random_shuffle stems.1 (py_seed random_seed) in
  positive_samples report = first.1 /\
  negative_samples report = (random_shuffle stems.2 first.2).1.
Proof.
  intros H stems first.
  by destruct (assign_splits_sizes walk split_ratio positive_prefixes
                 audio_formats random_seed report H) as (_ & _ & _ & _ & Hp & Hn).
Qed.

Lemma shuffles_share_one_generator_witness :
  exists report,
    assign_splits (P:=lcg_python) small_corpus (1, 1, 8) default_prefixes
      supported_formats 42 = Ok report /\
    positive_samples report
      = (random_shuffle (P:=lcg_python)
           (scan (fun _ file => (splitext file).1) small_corpus
              default_prefixes supported_formats).1 (py_seed 42)).1 /\
    negative_samples report
      = (random_shuffle (P:=lcg_python)
           (scan (fun _ file => (splitext file).1) small_corpus
              default_prefixes supported_formats).2
           (random_shuffle (P:=lcg_python)
              (scan (fun _ file => (splitext file).1) small_corpus
                 default_prefixes supported_formats).1 (py_seed 42)).2).1.
Proof.
  destruct (assign_splits (P:=lcg_python) small_corpus (1, 1, 8) default_prefixes
              supported_formats 42) as [report|e] eqn:E;
    [|vm_compute in E; discriminate].
  exists report. split; [reflexivity|].
  exact (shuffles_share_one_generator lcg_python small_corpus (1, 1, 8)
           default_prefixes supported_formats 42 report E).
Defined.

(** C7, counterexample.  The ratio [(3, -1, 1)] has a positive total.  On
    a class of four stems the test size is [-1], not the floor [-2] of
    [4 * -1 / 3], and the stem [base_a] lies both in the dev slice and in
    the train slice. *)
Lemma negative_ratio_overlapping_slices :
  0 < 3 + -1 + 1 /\
  exists report,
    assign_splits (P:=lcg_python) small_corpus (3, -1, 1) default_prefixes
      supported_formats 42 = Ok report /\
    p_num report = ClassSplit 4 (-1) 1 /\
    4 * -1 / (3 + -1 + 1) = -2 /\
    dev (p_split report) = ["aug_d"; "aug_c"; "base_b"; "base_a"]%string /\
    test (p_split report) = [] /\
    train (p_split report) = ["base_a"]%string.
Proof.
  split; [lia|]. eexists. split; [vm_compute; reflexivity|].
  split; [reflexivity|]. split; [reflexivity|]. split; [reflexivity|].
  split; reflexivity.
Qed.

(** C7, amended.  For a ratio whose dev and test components are not
    negative and whose total is positive (class size times component,
    and the total, below [2^53]) the function returns, and for each
    class of [n] stems: the dev and test sizes are the integer quotients
    [n * d / total] and [n * t / total], the train size is the rest, the
    three sum to [n]; the shuffled list is a permutation of the class
    and is the dev, test and train slices joined in this order, so that
    distinct stems land in exactly one slice; with a non-negative train
    component each slice has the length its size says. *)
Theorem split_sizes_and_partition (P : PyRandom) (walk : listing) (d t r : Z)
    (positive_prefixes audio_formats : list string) (random_seed : Z) :
  py_random_contract P ->
  0 <= d -> 0 <= t -> 0 < d + t + r < 2 ^ 53 ->
  let stems := scan (fun _ file => (splitext file).1) walk
                 positive_prefixes audio_formats in
  Z.of_nat (length stems.1 `max` length stems.2) * Z.max d t < 2 ^ 53 ->
  exists report,
    assign_splits walk (d, t, r) positive_prefixes audio_formats random_seed
      = Ok report /\
    split_correct d t r stems.1 (positive_samples report)
      (p_num report) (p_split report) /\
    split_correct d t r stems.2 (negative_samples report)
      (n_num report) (n_split report).
Proof.
  intros HP Hd Ht HT stems Hbound.
  assert (forall (c : nat) (x : Z), (c <= length stems.1 `max` length stems.2)%nat ->
            0 <= x <= Z.max d t -> Z.of_nat c * x < 2 ^ 53) as Hb.
  { intros c x Hc Hx.
    assert (Z.of_nat c * x
            <= Z.of_nat (length stems.1 `max` length stems.2) * Z.max d t); [|lia].
    apply Z.mul_le_mono_nonneg; lia. }
  destruct (assign_splits_unfold walk d t r positive_prefixes audio_formats
              random_seed
              (Z.of_nat (length stems.1) * d / (d + t + r))
              (Z.of_nat (length stems.1) * t / (d + t + r))
              (Z.of_nat (length stems.2) * d / (d + t + r))
              (Z.of_nat (length stems.2) * t / (d + t + r)))
    as (report & Hrep & Hps & Hns & Hpn & Hnn & Hpp & Hnp);
    try (apply split_num_floor; [lia | lia | apply Hb; lia]).
  exists report. split; [exact Hrep|].
  rewrite Hps, Hns, Hpn, Hnn, Hpp, Hnp.
  split; apply (split_correct_class HP); solve [lia | reflexivity].
Qed.

Lemma split_sizes_and_partition_witness :
  py_random_contract lcg_python /\ 0 <= 1 /\ 0 <= 1 /\ 0 < 1 + 1 + 8 < 2 ^ 53 /\
  Z.of_nat (length (scan (fun _ file => (splitext file).1) small_corpus
                      default_prefixes supported_formats).1
            `max`
            length (scan (fun _ file => (splitext file).1) small_corpus
                      default_prefixes supported_formats).2) * Z.max 1 1 < 2 ^ 53 /\
  exists report,
    assign_splits (P:=lcg_python) small_corpus (1, 1, 8) default_prefixes
      supported_formats 42 = Ok report /\
    split_correct 1 1 8
      (scan (fun _ file => (splitext file).1) small_corpus
         default_prefixes supported_formats).1
      (positive_samples report) (p_num report) (p_split report) /\
    split_correct 1 1 8
      (scan (fun _ file => (splitext file).1) small_corpus
         default_prefixes supported_formats).2
      (negative_samples report) (n_num report) (n_split report).
Proof.
  assert (0 <= 1) as H1 by lia.
  assert (0 < 1 + 1 + 8 < 2 ^ 53) as H2 by lia.
  assert (Z.of_nat (length (scan (fun _ file => (splitext file).1) small_corpus
                              default_prefixes supported_formats).1
                    `max`
                    length (scan (fun _ file => (splitext file).1) small_corpus
                              default_prefixes supported_formats).2) * Z.max 1 1
          < 2 ^ 53) as H3 by (vm_compute; reflexivity).
  split; [exact lcg_python_contract|]. split; [exact H1|]. split; [exact H1|].
  split; [exact H2|]. split; [exact H3|].
  exact (split_sizes_and_partition lcg_python small_corpus 1 1 8 default_prefixes
           supported_formats 42 lcg_python_contract H1 H1 H2 H3).
Defined.

(** ** Further properties of the mixing step *)

(** X1.  The clipping bound, where it holds.  For a waveform of finite
    samples, a finite non-zero level and a noise sequence of finite
    values that are not all zero, every sample that steps 3 and 4 hand
    on lies in [[-1, 1]]. *)
Theorem finite_noise_is_clipped (y : list float) (noise_level : float)
    (n out : list float) :
  Forall (fun x => is_finite x = true) y ->
  is_finite noise_level = true -> is_zero noise_level = false ->
  Forall (fun x => is_finite x = true) n ->
  Exists (fun x => is_zero x = false) n ->
  overlay y noise_level n = Ok out ->
  Forall (fun x => within minus_one one x = true) out.
Proof. apply overlay_finite_within. Qed.

Lemma finite_noise_is_clipped_witness :
  Forall (fun x => is_finite x = true) short_wave /\
  is_finite (ratio 2 100) = true /\ is_zero (ratio 2 100) = false /\
  Forall (fun x => is_finite x = true) [one; zero; minus_one] /\
  Exists (fun x => is_zero x = false) [one; zero; minus_one] /\
  exists out,
    overlay short_wave (ratio 2 100) [one; zero; minus_one] = Ok out /\
    Forall (fun x => within minus_one one x = true) out.
Proof.
  assert (Forall (fun x => is_finite x = true) short_wave) as H1
    by (repeat constructor).
  assert (is_finite (ratio 2 100) = true) as H2 by reflexivity.
  assert (is_zero (ratio 2 100) = false) as H3 by reflexivity.
  assert (Forall (fun x => is_finite x = true) [one; zero; minus_one]) as H4
    by (repeat constructor).
  assert (Exists (fun x => is_zero x = false) [one; zero; minus_one]) as H5
    by (by apply Exists_cons_hd).
  split; [exact H1|]. split; [exact H2|]. split; [exact H3|].
  split; [exact H4|]. split; [exact H5|].
  destruct (overlay short_wave (ratio 2 100) [one; zero; minus_one])
    as [out|e] eqn:E; [|vm_compute in E; discriminate].
  exists out. split; [reflexivity|].
  exact (finite_noise_is_clipped short_wave (ratio 2 100) [one; zero; minus_one]
           out H1 H2 H3 H4 H5 E).
Defined.

(** X2.  White noise on a waveform with at least one sample, with a seed
    that fits in 32 bits, always gives a waveform back. *)
Theorem white_noise_returns (R : NumpyRandom) (F : NumpyFFT) (y : list float)
    (sr : Z) (noise_level : float) (seed : Z) :
  random_contract R ->
  y <> [] -> 0 <= seed < 2 ^ 32 ->
  exists out, noisy_y y sr "white" noise_level seed = Ok (out, sr).
Proof. intros HR. by apply noisy_y_white_returns. Qed.

Lemma white_noise_returns_witness :
  random_contract lcg_numpy /\ short_wave <> [] /\ 0 <= 42 < 2 ^ 32 /\
  exists out,
    noisy_y (R:=lcg_numpy) (F:=dft2) short_wave 16000 "white" (ratio 2 100) 42
      = Ok (out, 16000).
Proof.
  assert (short_wave <> []) as H1 by discriminate.
  assert (0 <= 42 < 2 ^ 32) as H2 by lia.
  split; [exact lcg_numpy_contract|]. split; [exact H1|]. split; [exact H2|].
  exact (white_noise_returns lcg_numpy dft2 short_wave 16000 (ratio 2 100) 42
           lcg_numpy_contract H1 H2).
Defined.

(** X3.  Pink noise on a waveform with an odd number of samples never
    gives a waveform back: [irfft] returns one sample less than the
    waveform has, and the addition in step 3 raises. *)
Theorem pink_noise_fails_on_odd_length (R : NumpyRandom) (F : NumpyFFT)
    (y : list float) (sr : Z) (noise_level : float) (seed : Z) :
  random_contract R -> fft_contract F ->
  Nat.odd (length y) = true ->
  is_ok (noisy_y y sr "pink" noise_level seed) = false.
Proof. intros HR HF. by apply noisy_y_pink_odd. Qed.

Lemma pink_noise_fails_on_odd_length_witness :
  random_contract lcg_numpy /\ fft_contract dft2 /\
  Nat.odd (length short_wave) = true /\
  is_ok (noisy_y (R:=lcg_numpy) (F:=dft2) short_wave 16000 "pink" (ratio 2 100) 42)
    = false.
Proof.
  assert (Nat.odd (length short_wave) = true) as H by reflexivity.
  split; [exact lcg_numpy_contract|]. split; [exact dft2_contract|].
  split; [exact H|].
  exact (pink_noise_fails_on_odd_length lcg_numpy dft2 short_wave 16000
           (ratio 2 100) 42 lcg_numpy_contract dft2_contract H).
Defined.

(** ** The augmentation script on files *)

(** X4.  One call of [add_noise_to_audio] changes no file but the one at
    [output_path] and removes nothing.  When it returns [False] no file
    has changed at all (directories may have been created); when it
    returns [True], the input held a waveform, steps 1-4 returned the
    noisy waveform, and that waveform is at [output_path] with the
    input's sample rate. *)
Theorem add_noise_touches_output_only (R : NumpyRandom) (F : NumpyFFT)
    (input_path output_path : path) (noise_type : string) (noise_level : float)
    (seed : Z) (fs : FS) :
  let r := add_noise_to_audio input_path output_path noise_type noise_level seed fs in
  (forall q, q <> output_path -> files r.2 !! q = files fs !! q) /\
  keeps fs r.2 /\
  (r.1 = false -> files r.2 = files fs) /\
  (r.1 = true ->
   exists y sr out,
     files fs !! input_path = Some (Audio y sr) /\
     noisy_y y sr noise_type noise_level seed = Ok (out, sr) /\
     files r.2 !! output_path = Some (Audio out sr)).
Proof.
  intros r. pose proof (add_noise_keeps input_path output_path noise_type
                          noise_level seed fs) as Hk. fold r in Hk.
  destruct (add_noise_cases input_path output_path noise_type noise_level seed fs)
    as [(Hr & Hf & Hd) | (Hr & y & sr & out & Hin & Hn & Hfs)]; fold r in Hr |- *.
  - fold r in Hf. split; [intros q _; by rewrite Hf|]. split; [done|].
    split; [done|]. rewrite Hr. done.
  - fold r in Hfs. split; [|split; [done|split]].
    + intros q Hq. rewrite Hfs. simpl. by rewrite lookup_insert_ne.
    + rewrite Hr. done.
    + intros _. exists y, sr, out. split; [done|]. split; [done|].
      rewrite Hfs. simpl. by rewrite lookup_insert_eq.
Qed.



(** X6.  A recording that holds no sample is never augmented, whatever
    the noise kind, level and seed: the call returns [False] and the
    file system is as it was. *)
Theorem empty_recording_is_rejected (R : NumpyRandom) (F : NumpyFFT)
    (input_path output_path : path) (noise_type : string) (noise_level : float)
    (seed : Z) (fs : FS) (sr : Z) :
  random_contract R -> fft_contract F ->
  files fs !! input_path = Some (Audio [] sr) ->
  add_noise_to_audio input_path output_path noise_type noise_level seed fs
    = (false, fs).
Proof.
  intros HR HF Hin. apply (add_noise_fails _ _ _ _ _ _ [] sr Hin).
  by apply noisy_y_empty.
Qed.

Lemma empty_recording_is_rejected_witness :
  random_contract lcg_numpy /\ fft_contract dft2 /\
  files silent_fs !! ["data"; "base_silent.wav"]%string = Some (Audio [] 16000) /\
  add_noise_to_audio (R:=lcg_numpy) (F:=dft2) ["data"; "base_silent.wav"]%string
    ["noisy"; "base_silent_pink_noise0.02.wav"]%string "pink" (ratio 2 100) 42
    silent_fs = (false, silent_fs).
Proof.
  assert (files silent_fs !! ["data"; "base_silent.wav"]%string
          = Some (Audio [] 16000)) as H by (vm_compute; reflexivity).
  split; [exact lcg_numpy_contract|]. split; [exact dft2_contract|].
  split; [exact H|].
  exact (empty_recording_is_rejected lcg_numpy dft2 ["data"; "base_silent.wav"]%string
           ["noisy"; "base_silent_pink_noise0.02.wav"]%string "pink" (ratio 2 100)
           42 silent_fs 16000 lcg_numpy_contract dft2_contract H).
Defined.

(** X7.  A noise kind other than white, pink and impulse, or a seed
    outside [[0, 2^32)], makes [add_noise_to_audio] return [False]
    without changing the file system, whether the input exists or not. *)
Theorem unsupported_request_is_rejected (R : NumpyRandom) (F : NumpyFFT)
    (input_path output_path : path) (noise_type : string) (noise_level : float)
    (seed : Z) (fs : FS) :
  noise_type ∉ ["white"; "pink"; "impulse"]%string \/ ~ 0 <= seed < 2 ^ 32 ->
  add_noise_to_audio input_path output_path noise_type noise_level seed fs
    = (false, fs).
Proof.
  intros H. unfold add_noise_to_audio, librosa_load.
  destruct (files fs !! input_path) as [[y sr| |]|] eqn:Hin; try done.
  pose proof (noisy_y_rejects y sr noise_type noise_level seed H) as Hn.
  by destruct (noisy_y y sr noise_type noise_level seed) as [[??]|].
Qed.

Lemma unsupported_request_is_rejected_witness :
  ("brown"%string ∉ ["white"; "pink"; "impulse"]%string \/ ~ 0 <= 42 < 2 ^ 32) /\
  add_noise_to_audio (R:=lcg_numpy) (F:=dft2) ["data"; "base_a.wav"]%string
    ["noisy"; "base_a_brown_noise0.02.wav"]%string "brown" (ratio 2 100) 42
    small_corpus_fs = (false, small_corpus_fs).
Proof.
  assert ("brown"%string ∉ ["white"; "pink"; "impulse"]%string \/ ~ 0 <= 42 < 2 ^ 32)
    as H.
  { left. intros Hin.
    repeat (apply elem_of_cons in Hin as [Hin|Hin]; [discriminate Hin|]).
    by apply elem_of_nil in Hin. }
  split; [exact H|].
  exact (unsupported_request_is_rejected lcg_numpy dft2 ["data"; "base_a.wav"]%string
           ["noisy"; "base_a_brown_noise0.02.wav"]%string "brown" (ratio 2 100) 42
           small_corpus_fs H).
Defined.

(** X8.  For a supported noise kind, a seed that fits in 32 bits, a
    positive sample rate and a transform that handles the waveform's
    length, steps 1-4 return a waveform exactly when the waveform has a
    sample and, for pink noise, an even number of them. *)
Theorem waveform_returned_exactly_when (R : NumpyRandom) (F : NumpyFFT)
    (y : list float) (sr : Z) (noise_type : string) (noise_level : float)
    (seed : Z) :
  random_contract R -> fft_contract F -> fft_accepts F (length y) ->
  noise_type ∈ ["white"; "pink"; "impulse"]%string ->
  Z.of_nat (length y) < 2 ^ 50 -> 0 < sr < 2 ^ 53 -> 0 <= seed < 2 ^ 32 ->
  is_ok (noisy_y y sr noise_type noise_level seed) = true <->
  y <> [] /\ (noise_type = "pink"%string -> Nat.even (length y) = true).
Proof.
  intros HR HF Hacc Hkind HL Hsr Hseed. split.
  - intros Hok. split.
    + intros ->. by rewrite (noisy_y_empty HR HF) in Hok.
    + intros ->. destruct (Nat.even (length y)) eqn:Hev; [done|].
      rewrite (noisy_y_pink_odd HR HF) in Hok; [done|].
      by rewrite <- Nat.negb_even, Hev.
  - intros [Hy Hpink].
    assert (exists out, noisy_y y sr noise_type noise_level seed = Ok (out, sr))
      as [out ->]; [|done].
    repeat (apply elem_of_cons in Hkind as [-> | Hkind]).
    + destruct (noisy_y_returns HR y sr "white" noise_level seed) as (out & ? & _);
        eauto.
    + destruct (noisy_y_pink_returns HR HF y sr noise_level seed) as (out & ? & _);
        eauto.
      assert (2 ^ 50 <= 2 ^ 53) by (apply Z.pow_le_mono_r; lia). lia.
    + destruct (noisy_y_returns HR y sr "impulse" noise_level seed) as (out & ? & _);
        eauto.
    + by apply elem_of_nil in Hkind.
Qed.

Lemma waveform_returned_exactly_when_witness :
  random_contract lcg_numpy /\ fft_contract dft2 /\
  fft_accepts dft2 (length pair_wave) /\
  "pink"%string ∈ ["white"; "pink"; "impulse"]%string /\
  Z.of_nat (length pair_wave) < 2 ^ 50 /\ 0 < 16000 < 2 ^ 53 /\ 0 <= 42 < 2 ^ 32 /\
  pair_wave <> [] /\ Nat.even (length pair_wave) = true /\
  is_ok (noisy_y (R:=lcg_numpy) (F:=dft2) pair_wave 16000 "pink" (ratio 2 100) 42)
    = true.
Proof.
  assert ("pink"%string ∈ ["white"; "pink"; "impulse"]%string) as H1
    by (do 2 constructor).
  assert (Z.of_nat (length pair_wave) < 2 ^ 50) as H2 by (vm_compute; reflexivity).
  assert (0 < 16000 < 2 ^ 53) as H3 by lia.
  assert (0 <= 42 < 2 ^ 32) as H4 by lia.
  assert (pair_wave <> []) as H5 by discriminate.
  assert (Nat.even (length pair_wave) = true) as H6 by reflexivity.
  split; [exact lcg_numpy_contract|]. split; [exact dft2_contract|].
  split; [exact dft2_accepts_two|]. split; [exact H1|]. split; [exact H2|].
  split; [exact H3|]. split; [exact H4|]. split; [exact H5|]. split; [exact H6|].
  exact (proj2 (waveform_returned_exactly_when lcg_numpy dft2 pair_wave 16000
                  "pink" (ratio 2 100) 42 lcg_numpy_contract dft2_contract
                  dft2_accepts_two H1 H2 H3 H4)
               (conj H5 (fun _ => H6))).
Defined.

(** ** The batch run *)

(** X9.  A batch run removes nothing: every file and every directory
    that existed before exists afterwards.  The files it counts as
    processed or skipped are never more than the files of the listing. *)
Theorem batch_keeps_existing_files (R : NumpyRandom) (F : NumpyFFT)
    (float_str : float -> string) (walk : listing)
    (input_folder output_folder : path) (noise_type : string)
    (noise_level : float) (seed : Z) (fs : FS) :
  let s := batch_process_audio_folder float_str walk input_folder output_folder
             noise_type noise_level seed fs in
  keeps fs (batch_fs s) /\
  (processed_count s + skipped_count s <= length (walk_files walk))%nat.
Proof.
  intros s.
  destruct (batch_walk_grows float_str input_folder output_folder noise_type
              noise_level seed walk (BatchState 0 0 fs)) as [Hk Hc].
  split; [exact Hk | exact Hc].
Qed.

(** X10.  With a noise kind or a seed that [add_noise_to_audio] does not
    accept, a batch run goes through the whole listing without raising:
    nothing is processed, the file system is unchanged, and the skip
    counter counts the files the filter rejects. *)
Theorem batch_with_rejected_request_changes_nothing (R : NumpyRandom)
    (F : NumpyFFT) (float_str : float -> string) (walk : listing)
    (input_folder output_folder : path) (noise_type : string)
    (noise_level : float) (seed : Z) (fs : FS) :
  noise_type ∉ ["white"; "pink"; "impulse"]%string \/ ~ 0 <= seed < 2 ^ 32 ->
  batch_process_audio_folder float_str walk input_folder output_folder
    noise_type noise_level seed fs
  = BatchState O (rejected_count walk) fs.
Proof.
  intros Hbad.
  destruct (batch_walk_rejected float_str input_folder output_folder noise_type
              noise_level seed Hbad walk (BatchState 0 0 fs)) as [Hp Hf].
  destruct (batch_filter float_str input_folder output_folder noise_type
              noise_level seed walk fs) as (Hs & _).
  cbv zeta in *. unfold batch_process_audio_folder in *.
  destruct (fold_left _ walk _) as [p s f]. simpl in *. congruence.
Qed.

Lemma batch_with_rejected_request_changes_nothing_witness :
  ("brown"%string ∉ ["white"; "pink"; "impulse"]%string \/ ~ 0 <= 42 < 2 ^ 32) /\
  batch_process_audio_folder (R:=lcg_numpy) (F:=dft2) (fun _ => "0.02"%string)
    small_corpus ["data"]%string ["noisy"]%string "brown" (ratio 2 100) 42
    small_corpus_fs
  = BatchState O (rejected_count small_corpus) small_corpus_fs.
Proof.
  assert ("brown"%string ∉ ["white"; "pink"; "impulse"]%string \/ ~ 0 <= 42 < 2 ^ 32)
    as H.
  { left. intros Hin.
    repeat (apply elem_of_cons in Hin as [Hin|Hin]; [discriminate Hin|]).
    by apply elem_of_nil in Hin. }
  split; [exact H|].
  exact (batch_with_rejected_request_changes_nothing lcg_numpy dft2
           (fun _ => "0.02"%string) small_corpus ["data"]%string ["noisy"]%string
           "brown" (ratio 2 100) 42 small_corpus_fs H).
Defined.

(** X11.  For a supported noise kind (so that the new name is one path
    component) and a selected file of a directory of the input folder,
    the output path is the output folder, the directory's path below
    the input folder, and a new name.  The new name differs from the
    file's, the output path is not the input path, and the new name
    passes the batch filter again. *)
Theorem batch_output_is_selected_again (float_str : float -> string)
    (input_folder output_folder root : path) (file noise_type : string)
    (noise_level : float) :
  noise_type ∈ ["white"; "pink"; "impulse"]%string ->
  input_folder `prefix_of` root ->
  selected file = true ->
  exists name,
    output_name float_str input_folder output_folder root file noise_type noise_level
      = output_folder ++ drop (length input_folder) root ++ [name] /\
    selected name = true /\ name <> file /\
    output_name float_str input_folder output_folder root file noise_type noise_level
      <> join root [file].
Proof.
  intros _ [rel ->] Hsel.
  destruct (selected_shape file Hsel) as (stem & ext & Hsplit & Hfile & Hmid).
  set (name := (stem +:+ "_" +:+ noise_type +:+ "_noise" +:+ float_str noise_level
                +:+ ext)%string).
  assert (name <> file) as Hne.
  { intros E. apply (f_equal String.length) in E. subst name. rewrite Hfile in E.
    rewrite !append_length in E. simpl in E. lia. }
  exists name. rewrite drop_app_length.
  rewrite (output_name_under float_str _ _ _ _ stem ext _ _ Hsplit). fold name.
  split; [done|]. split; [|split; [done|]].
  - specialize (Hmid ("_" +:+ noise_type +:+ "_noise" +:+ float_str noise_level)%string).
    subst name. by rewrite <- !append_assoc in Hmid.
  - unfold join. rewrite !app_assoc. intros E. by apply app_inj_tail in E as [_ E].
Qed.

Lemma batch_output_is_selected_again_witness :
  "white"%string ∈ ["white"; "pink"; "impulse"]%string /\
  ["data"]%string `prefix_of` ["data"; "speaker1"]%string /\
  selected "base_a.wav" = true /\
  exists name,
    output_name (fun _ => "0.02"%string) ["data"]%string ["data"]%string
      ["data"; "speaker1"]%string "base_a.wav" "white" (ratio 2 100)
      = ["data"]%string ++ drop (length ["data"]%string) ["data"; "speaker1"]%string
        ++ [name] /\
    selected name = true /\ name <> "base_a.wav"%string /\
    output_name (fun _ => "0.02"%string) ["data"]%string ["data"]%string
      ["data"; "speaker1"]%string "base_a.wav" "white" (ratio 2 100)
      <> join ["data"; "speaker1"]%string ["base_a.wav"]%string.
Proof.
  assert ("white"%string ∈ ["white"; "pink"; "impulse"]%string) as H1 by constructor.
  assert (["data"]%string `prefix_of` ["data"; "speaker1"]%string) as H2
    by (by exists ["speaker1"]%string).
  assert (selected "base_a.wav" = true) as H3 by reflexivity.
  split; [exact H1|]. split; [exact H2|]. split; [exact H3|].
  exact (batch_output_is_selected_again (fun _ => "0.02"%string) ["data"]%string
           ["data"]%string ["data"; "speaker1"]%string "base_a.wav" "white"
           (ratio 2 100) H1 H2 H3).
Defined.

(** ** Scanning and balancing *)

(** X12.  The scan shared by [balance_samples] and
    [split_and_generate_labels] puts every audio file of the listing in
    exactly one of its two lists, in traversal order: the positive list
    holds the audio files whose name starts with a positive prefix, the
    negative list the other audio files, and files that are not audio
    are in neither. *)
Theorem scan_partitions_audio_files (A : Type) (entry : path -> string -> A)
    (walk : listing) (positive_prefixes audio_formats : list string) :
  let scanned := scan entry walk positive_prefixes audio_formats in
  scanned.1 = map (fun rf => entry rf.1 rf.2)
                  (List.filter (positive_audio positive_prefixes audio_formats)
                               (walk_files walk)) /\
  scanned.2 = map (fun rf => entry rf.1 rf.2)
                  (List.filter (negative_audio positive_prefixes audio_formats)
                               (walk_files walk)) /\
  (length scanned.1 + length scanned.2
   = length (List.filter (fun rf => is_audio audio_formats rf.2) (walk_files walk)))%nat.
Proof.
  intros scanned. subst scanned. rewrite scan_spec. simpl.
  split; [done|]. split; [done|]. rewrite !length_map.
  induction (walk_files walk) as [|rf l IH]; [done|]. simpl.
  unfold positive_audio, negative_audio.
  destruct (is_audio audio_formats rf.2); simpl; [|done].
  destruct (is_positive positive_prefixes rf.2); simpl;
    unfold positive_audio, negative_audio in IH; lia.
Qed.

(** X13.  When there are as many negative as positive files, the sample
    is the whole negative list in some order: the selection holds every
    audio file of the listing. *)
Theorem even_corpus_is_kept_whole (P : PyRandom) (walk : listing)
    (positive_prefixes audio_formats : list string) (random_seed : Z) :
  py_random_contract P ->
  let scanned := scan (fun root file => join root [file]) walk
                   positive_prefixes audio_formats in
  length scanned.1 = length scanned.2 ->
  exists sel,
    select_samples walk positive_prefixes audio_formats random_seed = Ok sel /\
    sampled_negative_files sel ≡ₚ scanned.2 /\
    selected_files sel ≡ₚ scanned.1 ++ scanned.2.
Proof.
  intros [_ HP] scanned Heq.
  destruct (select_samples_returns walk positive_prefixes audio_formats random_seed)
    as (sel & Hsel & _ & _ & Hsam & Hall); [fold scanned; lia|].
  fold scanned in Hsam, Hall.
  exists sel. split; [done|].
  assert (sampled_negative_files sel ≡ₚ scanned.2) as Hperm.
  { rewrite Hsam, Heq.
    destruct (HP (length scanned.2) (length scanned.2) (py_seed random_seed))
      as (Hlen & Hnd & Hr); [lia|].
    pose proof (NoDup_full_Permutation _ _ Hlen Hnd Hr) as Hps.
    transitivity (pick scanned.2 (seq 0 (length scanned.2)));
      [unfold pick; by rewrite Hps | by rewrite pick_all]. }
  split; [done|]. by rewrite Hall, Hperm.
Qed.
Lemma even_corpus_is_kept_whole_witness :
  py_random_contract lcg_python /\
  length (scan (fun root file => join root [file]) small_corpus
            default_prefixes supported_formats).1
  = length (scan (fun root file => join root [file]) small_corpus
              default_prefixes supported_formats).2 /\
  exists sel,
    select_samples (P:=lcg_python) small_corpus default_prefixes supported_formats 42
      = Ok sel /\
    sampled_negative_files sel
      ≡ₚ (scan (fun root file => join root [file]) small_corpus
            default_prefixes supported_formats).2 /\
    selected_files sel
      ≡ₚ (scan (fun root file => join root [file]) small_corpus
            default_prefixes supported_formats).1
         ++ (scan (fun root file => join root [file]) small_corpus
               default_prefixes supported_formats).2.
Proof.
  assert (length (scan (fun root file => join root [file]) small_corpus
                    default_prefixes supported_formats).1
          = length (scan (fun root file => join root [file]) small_corpus
                      default_prefixes supported_formats).2) as H
    by (vm_compute; reflexivity).
  split; [exact lcg_python_contract|]. split; [exact H|].
  exact (even_corpus_is_kept_whole lcg_python small_corpus default_prefixes
           supported_formats 42 lcg_python_contract H).
Defined.

(** X14.  Balancing into an output folder that is neither the input
    folder nor above nor below it, on a well-formed file system whose
    listing is that of the input folder, with enough negative files:
    [balance_samples] returns, every selected file is copied
    ([copied_count] is the size of the selection), each to the output
    folder at its path relative to the input folder and with its
    content; afterwards the output folder holds these copies and
    nothing else (what it held before is gone), and no file outside it
    has changed. *)
Theorem balance_copies_selection (P : PyRandom) (walk : listing)
    (input_folder output_folder : path)
    (positive_prefixes audio_formats : list string) (random_seed : Z) (fs : FS) :
  well_formed fs = true ->
  lists_files_of fs input_folder walk = true ->
  creatable fs output_folder = true ->
  ~ output_folder `prefix_of` input_folder ->
  ~ input_folder `prefix_of` output_folder ->
  (length (scan (fun root file => join root [file]) walk
             positive_prefixes audio_formats).1
   <= length (scan (fun root file => join root [file]) walk
                positive_prefixes audio_formats).2)%nat ->
  exists sel fs',
    balance_samples walk input_folder output_folder positive_prefixes
      audio_formats random_seed fs
      = (Ok (sel, length (selected_files sel)), fs') /\
    (forall p, p ∈ selected_files sel ->
       is_file fs p = true /\
       files fs' !! copy_target input_folder output_folder p = files fs !! p) /\
    (forall q, output_folder `prefix_of` q -> is_file fs' q = true ->
       exists p, p ∈ selected_files sel /\
                 q = copy_target input_folder output_folder p) /\
    (forall q, ~ output_folder `prefix_of` q -> files fs' !! q = files fs !! q).
Proof.
  intros Hwf Hlist Hcreat Hoi Hio Hle.
  destruct (select_samples_returns walk positive_prefixes audio_formats
              random_seed Hle) as (sel & Hsel & Hpos & Hneg & Hsam & Hall).
  destruct (clear_spec output_folder fs Hcreat (or_intror Hwf))
    as (fs1 & fs2 & H1 & H2 & Hnone & Hframe & Hdirs & _).
  assert (Forall (fun p => exists r file, p = input_folder ++ r ++ [file] /\
                                          is_file fs p = true)
                 (selected_files sel)) as Hlisted.
  { apply Forall_forall. intros p Hp. rewrite Hall in Hp.
    apply (scan_listed fs input_folder walk positive_prefixes audio_formats p Hlist).
    apply elem_of_app in Hp as [Hp|Hp]; [by left | right].
    rewrite Hsam in Hp. by apply pick_subseteq in Hp. }
  destruct (copy_loop_spec input_folder output_folder fs Hwf Hcreat Hoi Hio
              (selected_files sel) fs2 Hlisted Hnone Hframe Hdirs)
    as (fs' & Hloop & Hcopied & Honly & Hrest).
  exists sel, fs'. split.
  { rewrite (balance_samples_unfold _ _ _ _ _ _ _ _ _ _ Hsel H1 H2), Hloop. done. }
  split; [|done].
  intros p Hp. split; [|by apply Hcopied].
  rewrite Forall_forall in Hlisted. by destruct (Hlisted p Hp) as (r & f & _ & ?).
Qed.

Lemma balance_copies_selection_witness :
  well_formed small_corpus_fs = true /\
  lists_files_of small_corpus_fs ["data"]%string small_corpus = true /\
  creatable small_corpus_fs ["out"]%string = true /\
  ~ ["out"]%string `prefix_of` ["data"]%string /\
  ~ ["data"]%string `prefix_of` ["out"]%string /\
  (length (scan (fun root file => join root [file]) small_corpus
             default_prefixes supported_formats).1
   <= length (scan (fun root file => join root [file]) small_corpus
                default_prefixes supported_formats).2)%nat /\
  exists sel fs',
    balance_samples (P:=lcg_python) small_corpus ["data"]%string ["out"]%string
      default_prefixes supported_formats 42 small_corpus_fs
      = (Ok (sel, length (selected_files sel)), fs') /\
    files fs' !! ["data"; "notes.txt"]%string
      = files small_corpus_fs !! ["data"; "notes.txt"]%string.
Proof.
  assert (well_formed small_corpus_fs = true) as H1 by (vm_compute; reflexivity).
  assert (lists_files_of small_corpus_fs ["data"]%string small_corpus = true) as H2
    by (vm_compute; reflexivity).
  assert (creatable small_corpus_fs ["out"]%string = true) as H3
    by (vm_compute; reflexivity).
  assert (~ ["out"]%string `prefix_of` ["data"]%string) as H4
    by (intros [k Hk]; discriminate Hk).
  assert (~ ["data"]%string `prefix_of` ["out"]%string) as H5
    by (intros [k Hk]; discriminate Hk).
  assert (length (scan (fun root file => join root [file]) small_corpus
                    default_prefixes supported_formats).1
          <= length (scan (fun root file => join root [file]) small_corpus
                       default_prefixes supported_formats).2)%nat as H6
    by (vm_compute; lia).
  split; [exact H1|]. split; [exact H2|]. split; [exact H3|].
  split; [exact H4|]. split; [exact H5|]. split; [exact H6|].
  destruct (balance_copies_selection lcg_python small_corpus ["data"]%string
              ["out"]%string default_prefixes supported_formats 42
              small_corpus_fs H1 H2 H3 H4 H5 H6)
    as (sel & fs' & Hb & _ & _ & Hrest).
  exists sel, fs'. split; [exact Hb|].
  apply Hrest. intros [k Hk]. discriminate Hk.
Defined.

(** X15.  Balancing with an output folder that is the input folder, or
    a folder above it: step 7 removes the corpus before step 8 copies
    it.  [balance_samples] returns normally with [copied_count = 0],
    and no file is left in the output folder. *)
Theorem balance_in_place_loses_corpus (P : PyRandom) (walk : listing)
    (input_folder output_folder : path)
    (positive_prefixes audio_formats : list string) (random_seed : Z) (fs : FS) :
  output_folder `prefix_of` input_folder ->
  lists_files_of fs input_folder walk = true ->
  is_dir fs output_folder = true ->
  creatable fs output_folder = true ->
  (length (scan (fun root file => join root [file]) walk
             positive_prefixes audio_formats).1
   <= length (scan (fun root file => join root [file]) walk
                positive_prefixes audio_formats).2)%nat ->
  exists sel fs',
    balance_samples walk input_folder output_folder positive_prefixes
      audio_formats random_seed fs = (Ok (sel, O), fs') /\
    (forall q, output_folder `prefix_of` q -> files fs' !! q = None) /\
    (forall q, ~ output_folder `prefix_of` q -> files fs' !! q = files fs !! q).
Proof.
  intros Hpre Hlist Hdir Hcreat Hle.
  destruct (select_samples_returns walk positive_prefixes audio_formats
              random_seed Hle) as (sel & Hsel & Hpos & Hneg & Hsam & Hall).
  assert (path_exists fs output_folder = true) as Hex
    by (unfold path_exists; by rewrite Hdir).
  destruct (clear_spec output_folder fs Hcreat (or_introl Hex))
    as (fs1 & fs2 & H1 & H2 & Hnone & Hframe & _).
  destruct (copy_loop_missing input_folder output_folder (selected_files sel) O fs2)
    as (fs' & Hloop & Hfiles).
  { apply Forall_forall. intros p Hp. apply Hnone. rewrite Hall in Hp.
    destruct (scan_listed fs input_folder walk positive_prefixes audio_formats p Hlist)
      as (r & file & -> & _).
    { apply elem_of_app in Hp as [Hp|Hp]; [by left | right].
      rewrite Hsam in Hp. by apply pick_subseteq in Hp. }
    etrans; [exact Hpre | by apply prefix_app_r]. }
  exists sel, fs'. split.
  { by rewrite (balance_samples_unfold _ _ _ _ _ _ _ _ _ _ Hsel H1 H2), Hloop. }
  rewrite Hfiles. done.
Qed.

Lemma balance_in_place_loses_corpus_witness :
  ["data"]%string `prefix_of` ["data"]%string /\
  lists_files_of small_corpus_fs ["data"]%string small_corpus = true /\
  is_dir small_corpus_fs ["data"]%string = true /\
  creatable small_corpus_fs ["data"]%string = true /\
  (length (scan (fun root file => join root [file]) small_corpus
             default_prefixes supported_formats).1
   <= length (scan (fun root file => join root [file]) small_corpus
                default_prefixes supported_formats).2)%nat /\
  exists sel fs',
    balance_samples (P:=lcg_python) small_corpus ["data"]%string ["data"]%string
      default_prefixes supported_formats 42 small_corpus_fs = (Ok (sel, O), fs') /\
    files fs' !! ["data"; "base_a.wav"]%string = None.
Proof.
  assert (["data"]%string `prefix_of` ["data"]%string) as H1 by reflexivity.
  assert (lists_files_of small_corpus_fs ["data"]%string small_corpus = true) as H2
    by (vm_compute; reflexivity).
  assert (is_dir small_corpus_fs ["data"]%string = true) as H3
    by (vm_compute; reflexivity).
  assert (creatable small_corpus_fs ["data"]%string = true) as H4
    by (vm_compute; reflexivity).
  assert (length (scan (fun root file => join root [file]) small_corpus
                    default_prefixes supported_formats).1
          <= length (scan (fun root file => join root [file]) small_corpus
                       default_prefixes supported_formats).2)%nat as H5
    by (vm_compute; lia).
  split; [exact H1|]. split; [exact H2|]. split; [exact H3|].
  split; [exact H4|]. split; [exact H5|].
  destruct (balance_in_place_loses_corpus lcg_python small_corpus ["data"]%string
              ["data"]%string default_prefixes supported_formats 42
              small_corpus_fs H1 H2 H3 H4 H5)
    as (sel & fs' & Hb & Hnone & _).
  exists sel, fs'. split; [exact Hb|]. apply Hnone. by exists ["base_a.wav"]%string.
Defined.

(** X16.  When the scan finds no positive file (an empty or mistyped
    input folder), [balance_samples] raises nothing: it selects nothing,
    copies nothing, and still empties an output folder that exists. *)
Theorem balance_without_positives_clears_output (P : PyRandom) (walk : listing)
    (input_folder output_folder : path)
    (positive_prefixes audio_formats : list string) (random_seed : Z) (fs : FS) :
  py_random_contract P ->
  (scan (fun root file => join root [file]) walk
     positive_prefixes audio_formats).1 = [] ->
  path_exists fs output_folder = true ->
  creatable fs output_folder = true ->
  exists sel fs',
    balance_samples walk input_folder output_folder positive_prefixes
      audio_formats random_seed fs = (Ok (sel, O), fs') /\
    selected_files sel = [] /\
    (forall q, output_folder `prefix_of` q -> files fs' !! q = None) /\
    (forall q, ~ output_folder `prefix_of` q -> files fs' !! q = files fs !! q).
Proof.
  intros [_ HP] Hpos Hex Hcreat.
  destruct (select_samples_returns walk positive_prefixes audio_formats random_seed)
    as (sel & Hsel & _ & _ & Hsam & Hall).
  { rewrite Hpos. simpl. lia. }
  rewrite Hpos in Hsam, Hall. simpl in Hsam, Hall.
  assert (selected_files sel = []) as Hnil.
  { rewrite Hall, Hsam.
    destruct (HP (length (scan (fun root file => join root [file]) walk
                            positive_prefixes audio_formats).2) O
                 (py_seed random_seed)) as (Hlen & _); [lia|].
    by destruct (sample_positions _ _ _).1. }
  destruct (clear_spec output_folder fs Hcreat (or_introl Hex))
    as (fs1 & fs2 & H1 & H2 & Hnone & Hframe & _).
  exists sel, fs2. split; [|done].
  rewrite (balance_samples_unfold _ _ _ _ _ _ _ _ _ _ Hsel H1 H2), Hnil. done.
Qed.

Lemma balance_without_positives_clears_output_witness :
  py_random_contract lcg_python /\
  (scan (fun root file => join root [file]) [] default_prefixes supported_formats).1
    = [] /\
  path_exists small_corpus_fs ["out"]%string = true /\
  creatable small_corpus_fs ["out"]%string = true /\
  exists sel fs',
    balance_samples (P:=lcg_python) [] ["dta"]%string ["out"]%string
      default_prefixes supported_formats 42 small_corpus_fs = (Ok (sel, O), fs') /\
    files fs' !! ["out"; "old.wav"]%string = None.
Proof.
  assert ((scan (fun root file => join root [file]) [] default_prefixes
             supported_formats).1 = []) as H1 by reflexivity.
  assert (path_exists small_corpus_fs ["out"]%string = true) as H2
    by (vm_compute; reflexivity).
  assert (creatable small_corpus_fs ["out"]%string = true) as H3
    by (vm_compute; reflexivity).
  split; [exact lcg_python_contract|]. split; [exact H1|]. split; [exact H2|].
  split; [exact H3|].
  destruct (balance_without_positives_clears_output lcg_python [] ["dta"]%string
              ["out"]%string default_prefixes supported_formats 42
              small_corpus_fs lcg_python_contract H1 H2 H3)
    as (sel & fs' & Hb & _ & Hnone & _).
  exists sel, fs'. split; [exact Hb|]. apply Hnone. by exists ["old.wav"]%string.
Defined.

(** X17.  Whatever [balance_samples] does, and whether it returns or
    raises, it changes no file outside the output folder (the listing
    being one of the input folder, so that no relative path leaves the
    output folder). *)
Theorem balance_touches_output_folder_only (P : PyRandom) (walk : listing)
    (input_folder output_folder : path)
    (positive_prefixes audio_formats : list string) (random_seed : Z) (fs : FS) :
  Forall (fun d => input_folder `prefix_of` d.1) walk ->
  forall q, ~ output_folder `prefix_of` q ->
    files (balance_samples walk input_folder output_folder positive_prefixes
             audio_formats random_seed fs).2 !! q
    = files fs !! q.
Proof. intros _ q Hq. by apply balance_samples_frame. Qed.

Lemma balance_touches_output_folder_only_witness :
  Forall (fun d => ["data"]%string `prefix_of` d.1) small_corpus /\
  ~ ["out"]%string `prefix_of` ["data"; "notes.txt"]%string /\
  files (balance_samples (P:=lcg_python) small_corpus ["data"]%string ["out"]%string
           default_prefixes supported_formats 42 small_corpus_fs).2
    !! ["data"; "notes.txt"]%string
  = files small_corpus_fs !! ["data"; "notes.txt"]%string.
Proof.
  assert (Forall (fun d => ["data"]%string `prefix_of` d.1) small_corpus) as H1
    by (constructor; [by exists [] | constructor]).
  assert (~ ["out"]%string `prefix_of` ["data"; "notes.txt"]%string) as H2
    by (intros [k Hk]; discriminate Hk).
  split; [exact H1|]. split; [exact H2|].
  exact (balance_touches_output_folder_only lcg_python small_corpus ["data"]%string
           ["out"]%string default_prefixes supported_formats 42 small_corpus_fs H1
           ["data"; "notes.txt"]%string H2).
Defined.

(** ** Label files *)

(** X18.  When the sizes can be computed, the label folder can be
    created and none of the six file names is a directory,
    [split_and_generate_labels] returns: each of the six files holds its
    label list, every other file is as it was (the folder is not
    cleared), and the only new directories are the label folder and
    those above it. *)
Theorem split_writes_six_label_files (P : PyRandom) (walk : listing)
    (output_label_folder : path) (split_ratio : Z * Z * Z)
    (positive_prefixes audio_formats : list string) (random_seed : Z) (fs : FS)
    (report : split_report) :
  assign_splits walk split_ratio positive_prefixes audio_formats random_seed
    = Ok report ->
  creatable fs output_label_folder = true ->
  Forall (fun nd => is_dir fs (output_label_folder ++ [nd.1]) = false)
         (label_files report) ->
  exists fs',
    split_and_generate_labels walk output_label_folder split_ratio
      positive_prefixes audio_formats random_seed fs = (Ok report, fs') /\
    (forall name data, (name, data) ∈ label_files report ->
       files fs' !! (output_label_folder ++ [name]) = Some (Labels data)) /\
    (forall q, (forall nd, nd ∈ label_files report ->
                  q <> output_label_folder ++ [nd.1]) ->
       files fs' !! q = files fs !! q) /\
    dirs fs' = dirs fs ∪ list_to_set (ancestors output_label_folder).
Proof.
  intros Hassign Hcreat Hfree.
  unfold split_and_generate_labels. rewrite Hassign.
  rewrite (makedirs_creatable _ _ Hcreat).
  set (fs1 := mkFS _ (files fs)).
  destruct (write_labels_spec output_label_folder (label_files report) fs1)
    as (fs' & Hw & Hd & Hin & Hout).
  - rewrite label_files_names. apply NoDup_ListNoDup.
    repeat (constructor; [simpl; intuition discriminate|]). constructor.
  - apply (makedirs_is_dir _ fs). by apply makedirs_creatable.
  - eapply Forall_impl; [exact Hfree|]. intros nd Hnd. by apply makedirs_child.
  - exists fs'. rewrite Hw. split; [done|]. split; [done|]. split; [done|].
    by rewrite Hd.
Qed.

Lemma split_writes_six_label_files_witness :
  creatable small_corpus_fs ["labels"]%string = true /\
  exists report fs',
    assign_splits (P:=lcg_python) small_corpus (1, 1, 8) default_prefixes
      supported_formats 42 = Ok report /\
    Forall (fun nd => is_dir small_corpus_fs (["labels"]%string ++ [nd.1]) = false)
           (label_files report) /\
    split_and_generate_labels (P:=lcg_python) small_corpus ["labels"]%string
      (1, 1, 8) default_prefixes supported_formats 42 small_corpus_fs
      = (Ok report, fs') /\
    files fs' !! ["labels"; "p_train.json"]%string
      = Some (Labels (train (p_labels report))).
Proof.
  assert (creatable small_corpus_fs ["labels"]%string = true) as H1
    by (vm_compute; reflexivity).
  split; [exact H1|].
  destruct (assign_splits (P:=lcg_python) small_corpus (1, 1, 8) default_prefixes
              supported_formats 42) as [report|e] eqn:E;
    [|vm_compute in E; discriminate].
  assert (Forall (fun nd => is_dir small_corpus_fs (["labels"]%string ++ [nd.1]) = false)
                 (label_files report)) as H2.
  { unfold label_files. repeat constructor. }
  destruct (split_writes_six_label_files lcg_python small_corpus ["labels"]%string
              (1, 1, 8) default_prefixes supported_formats 42 small_corpus_fs
              report E H1 H2) as (fs' & Hs & Hin & _).
  exists report, fs'. split; [reflexivity|]. split; [exact H2|].
  split; [exact Hs|]. apply Hin. unfold label_files. do 2 constructor. constructor.
Defined.

(** X19.  Whatever [split_and_generate_labels] does, and whether it
    returns or raises, no file other than the six label files of the
    label folder changes. *)
Theorem split_touches_label_files_only (P : PyRandom) (walk : listing)
    (output_label_folder : path) (split_ratio : Z * Z * Z)
    (positive_prefixes audio_formats : list string) (random_seed : Z) (fs : FS)
    (q : path) :
  q ∉ map (fun name => output_label_folder ++ [name])
          ["p_dev.json"; "p_test.json"; "p_train.json";
           "n_dev.json"; "n_test.json"; "n_train.json"]%string ->
  files (split_and_generate_labels walk output_label_folder split_ratio
           positive_prefixes audio_formats random_seed fs).2 !! q
  = files fs !! q.
Proof.
  intros Hq. unfold split_and_generate_labels.
  destruct (assign_splits _ _ _ _ _) as [report|e]; [|done].
  destruct (makedirs output_label_folder fs) as [fs1|e] eqn:Hm; [|done].
  apply makedirs_Ok in Hm as [_ ->].
  assert (forall nd, nd ∈ label_files report -> q <> output_label_folder ++ [nd.1])
    as Hq'.
  { intros nd Hnd E. apply Hq. rewrite E.
    apply list_elem_of_In, (in_map (fun name => output_label_folder ++ [name])),
      list_elem_of_In.
    rewrite <- (label_files_names report). apply list_elem_of_fmap. by exists nd. }
  pose proof (write_labels_frame output_label_folder (label_files report)
    (mkFS (dirs fs ∪ list_to_set (ancestors output_label_folder)) (files fs)) q Hq')
    as Hw.
  by destruct (write_labels _ _ _) as [[u|e] fs2].
Qed.

Lemma split_touches_label_files_only_witness :
  (["data"; "notes.txt"]%string
     ∉ map (fun name => ["data"]%string ++ [name])
           ["p_dev.json"; "p_test.json"; "p_train.json";
            "n_dev.json"; "n_test.json"; "n_train.json"]%string) /\
  files (split_and_generate_labels (P:=lcg_python) small_corpus ["data"]%string
           (1, 1, 8) default_prefixes supported_formats 42 small_corpus_fs).2
    !! ["data"; "notes.txt"]%string
  = files small_corpus_fs !! ["data"; "notes.txt"]%string.
Proof.
  assert (["data"; "notes.txt"]%string
            ∉ map (fun name => ["data"]%string ++ [name])
                  ["p_dev.json"; "p_test.json"; "p_train.json";
                   "n_dev.json"; "n_test.json"; "n_train.json"]%string) as H.
  { intros Hin. simpl in Hin.
    repeat (apply elem_of_cons in Hin as [Hin|Hin]; [discriminate Hin|]).
    by apply elem_of_nil in Hin. }
  split; [exact H|].
  exact (split_touches_label_files_only lcg_python small_corpus ["data"]%string
           (1, 1, 8) default_prefixes supported_formats 42 small_corpus_fs
           ["data"; "notes.txt"]%string H).
Defined.

(** X20.  A ratio whose three components sum to zero makes
    [split_and_generate_labels] raise [ZeroDivisionError] at the first
    size, before the label folder is created or anything is written;
    this holds for an empty corpus too. *)
Theorem zero_total_ratio_raises (P : PyRandom) (walk : listing)
    (output_label_folder : path) (d t r : Z)
    (positive_prefixes audio_formats : list string) (random_seed : Z) (fs : FS) :
  d + t + r = 0 ->
  split_and_generate_labels walk output_label_folder (d, t, r)
    positive_prefixes audio_formats random_seed fs
  = (Raise ZeroDivisionError, fs).
Proof.
  intros Hz. unfold split_and_generate_labels, assign_splits.
  destruct (scan _ walk positive_prefixes audio_formats) as [pos neg].
  unfold split_num at 1, py_truediv. rewrite Hz. done.
Qed.

Lemma zero_total_ratio_raises_witness :
  1 + (-1) + 0 = 0 /\
  split_and_generate_labels (P:=lcg_python) small_corpus ["labels"]%string
    (1, -1, 0) default_prefixes supported_formats 42 small_corpus_fs
  = (Raise ZeroDivisionError, small_corpus_fs).
Proof.
  assert (1 + (-1) + 0 = 0) as H by reflexivity.
  split; [exact H|].
  exact (zero_total_ratio_raises lcg_python small_corpus ["labels"]%string
           1 (-1) 0 default_prefixes supported_formats 42 small_corpus_fs H).
Defined.

(** X21.  When both classes are so small that their size times the dev
    ratio and times the test ratio stays below the sum of the ratios
    (with the default 1:1:8, fewer than ten files each), the dev and
    test lists of both are empty and all stems go to train. *)
Theorem small_classes_go_to_train (P : PyRandom) (walk : listing) (d t r : Z)
    (positive_prefixes audio_formats : list string) (random_seed : Z) :
  let stems := scan (fun _ file => (splitext file).1) walk
                 positive_prefixes audio_formats in
  let n := Z.of_nat (Nat.max (length stems.1) (length stems.2)) in
  0 <= d -> 0 <= t -> d + t + r < 2 ^ 53 ->
  n * d < d + t + r -> n * t < d + t + r ->
  exists report,
    assign_splits walk (d, t, r) positive_prefixes audio_formats random_seed
      = Ok report /\
    p_num report = ClassSplit 0 0 (Z.of_nat (length stems.1)) /\
    n_num report = ClassSplit 0 0 (Z.of_nat (length stems.2)) /\
    p_labels report
      = ClassSplit [] [] (build_label_list (positive_samples report) 0) /\
    n_labels report
      = ClassSplit [] [] (build_label_list (negative_samples report) (-1)).
Proof.
  intros stems n Hd Ht Hbig Hnd Hnt.
  assert (forall count ratio, (count <= Nat.max (length stems.1) (length stems.2))%nat ->
            0 <= ratio -> n * ratio < d + t + r ->
            split_num count ratio (d + t + r) = Ok 0) as Hzero.
  { intros count ratio Hc Hr Hlt.
    assert (Z.of_nat count * ratio <= n * ratio) as Hle by (subst n; nia).
    rewrite split_num_floor; [|done|nia|nia].
    f_equal. apply Z.div_small. nia. }
  assert (split_num (length stems.1) d (d + t + r) = Ok 0) as Z1
    by (apply Hzero; [lia | done | done]).
  assert (split_num (length stems.1) t (d + t + r) = Ok 0) as Z2
    by (apply Hzero; [lia | done | done]).
  assert (split_num (length stems.2) d (d + t + r) = Ok 0) as Z3
    by (apply Hzero; [lia | done | done]).
  assert (split_num (length stems.2) t (d + t + r) = Ok 0) as Z4
    by (apply Hzero; [lia | done | done]).
  destruct (assign_splits_unfold walk d t r positive_prefixes audio_formats
              random_seed 0 0 0 0 Z1 Z2 Z3 Z4)
    as (report & Ha & Hps & Hns & Hpn & Hnn & Hp & Hn).
  fold stems in Hpn, Hnn.
  exists report. split; [done|].
  destruct (assign_splits_labels _ _ _ _ _ _ Ha) as (_ & _ & Hpl & Hnl).
  rewrite Hpl, Hnl, Hp, Hn, !split3_zero, Hpn, Hnn, Hps, Hns, !Z.sub_0_r. done.
Qed.

Lemma small_classes_go_to_train_witness :
  0 <= 1 /\ 0 <= 1 /\ 1 + 1 + 8 < 2 ^ 53 /\
  Z.of_nat (Nat.max
    (length (scan (fun _ file => (splitext file).1) small_corpus
               default_prefixes supported_formats).1)
    (length (scan (fun _ file => (splitext file).1) small_corpus
               default_prefixes supported_formats).2)) * 1 < 1 + 1 + 8 /\
  exists report,
    assign_splits (P:=lcg_python) small_corpus (1, 1, 8) default_prefixes
      supported_formats 42 = Ok report /\
    p_num report = ClassSplit 0 0 4 /\ n_num report = ClassSplit 0 0 4.
Proof.
  assert (0 <= 1) as H1 by lia.
  assert (1 + 1 + 8 < 2 ^ 53) as H2 by lia.
  assert (Z.of_nat (Nat.max
    (length (scan (fun _ file => (splitext file).1) small_corpus
               default_prefixes supported_formats).1)
    (length (scan (fun _ file => (splitext file).1) small_corpus
               default_prefixes supported_formats).2)) * 1 < 1 + 1 + 8) as H3
    by (vm_compute; reflexivity).
  split; [exact H1|]. split; [exact H1|]. split; [exact H2|]. split; [exact H3|].
  destruct (small_classes_go_to_train lcg_python small_corpus 1 1 8
              default_prefixes supported_formats 42 H1 H1 H2 H3 H3)
    as (report & Ha & Hp & Hn & _).
  exists report. split; [exact Ha|]. split; [exact Hp | exact Hn].
Defined.

(** X22.  No label is invented: whatever the ratio, every label of the
    positive files carries the stem of a positive audio file of the
    listing as [utt_id] and as [speaker_id], with [keyword_id = 0], and
    every label of the negative files the stem of a negative audio file,
    with [keyword_id = -1]. *)
Theorem labels_name_scanned_files (P : PyRandom) (walk : listing)
    (split_ratio : Z * Z * Z) (positive_prefixes audio_formats : list string)
    (random_seed : Z) (report : split_report) :
  assign_splits walk split_ratio positive_prefixes audio_formats random_seed
    = Ok report ->
  let stems := scan (fun _ file => (splitext file).1) walk
                 positive_prefixes audio_formats in
  Forall (fun l => utt_id l ∈ stems.1 /\ speaker_id l = utt_id l /\ keyword_id l = 0)
         (dev (p_labels report) ++ test (p_labels report) ++ train (p_labels report)) /\
  Forall (fun l => utt_id l ∈ stems.2 /\ speaker_id l = utt_id l /\ keyword_id l = -1)
         (dev (n_labels report) ++ test (n_labels report) ++ train (n_labels report)).
Proof.
  intros Ha stems.
  destruct (assign_splits_labels _ _ _ _ _ _ Ha) as (Hp & Hn & Hpl & Hnl).
  destruct (assign_splits_sizes _ _ _ _ _ _ Ha) as (_ & _ & _ & _ & Hps & Hns).
  fold stems in Hps, Hns.
  assert (positive_samples report ⊆ stems.1) as Hsp
    by (rewrite Hps; apply random_shuffle_subseteq).
  assert (negative_samples report ⊆ stems.2) as Hsn
    by (rewrite Hns; apply random_shuffle_subseteq).
  destruct (split3_subseteq (positive_samples report) (dev (p_num report))
              (test (p_num report))) as (Hp1 & Hp2 & Hp3).
  destruct (split3_subseteq (negative_samples report) (dev (n_num report))
              (test (n_num report))) as (Hn1 & Hn2 & Hn3).
  rewrite <- Hp in Hp1, Hp2, Hp3. rewrite <- Hn in Hn1, Hn2, Hn3.
  rewrite Hpl, Hnl. simpl.
  split; rewrite !Forall_app; repeat split; apply Forall_forall; intros l Hl;
    apply elem_of_build_label_list in Hl as (Hu & Hs & Hk);
    (split; [|done]); auto.
Qed.

Lemma labels_name_scanned_files_witness :
  exists report,
    assign_splits (P:=lcg_python) small_corpus (3, -1, 1) default_prefixes
      supported_formats 42 = Ok report /\
    Forall (fun l => utt_id l ∈ (scan (fun _ file => (splitext file).1) small_corpus
                                   default_prefixes supported_formats).1 /\
                     speaker_id l = utt_id l /\ keyword_id l = 0)
           (dev (p_labels report) ++ test (p_labels report) ++ train (p_labels report)).
Proof.
  destruct (assign_splits (P:=lcg_python) small_corpus (3, -1, 1) default_prefixes
              supported_formats 42) as [report|e] eqn:E;
    [|vm_compute in E; discriminate].
  exists report. split; [reflexivity|].
  exact (proj1 (labels_name_scanned_files lcg_python small_corpus (3, -1, 1)
                  default_prefixes supported_formats 42 report E)).
Defined.
